(** * Real-estate assistant backend: language detection, intent extraction,
      query enhancement, relevance ranking, history mining and response
      normalisation.

    A shallow embedding of [languageService.js], [webSearchService.js] and
    [mistralService.js].  JavaScript strings are sequences of UTF-16 code
    units ([list N]); regular expressions are parsed from their source text
    into an abstract syntax and run by a backtracking matcher that follows
    the ECMAScript matching rules (leftmost match, ordered alternation,
    greedy and lazy quantifiers, rejection of empty iterations).

    Case mapping is modelled on the ASCII letters, the only cased letters
    that occur in the program's own tables; the Indic scripts, Arabic and
    the rupee sign have no case. *)

From Stdlib Require Import List NArith ZArith String Ascii Bool Lia Arith.
From Stdlib Require Import Permutation Sorted.
Import ListNotations.

Set Implicit Arguments.

(* ================================================================== *)
(** * JavaScript strings *)
(* ================================================================== *)

Module JS.

Open Scope N_scope.

(** A string is its sequence of UTF-16 code units. *)
Definition jstring := list N.

(** Literals are written as UTF-8 text and decoded to UTF-16. *)
Fixpoint utf8_go (need : nat) (acc : N) (bs : list N) : jstring :=
  match bs with
  | [] => []
  | b :: bs' =>
      match need with
      | O =>
          if b <? 128 then b :: utf8_go O 0 bs'
          else if b <? 224 then utf8_go 1 (N.land b 31) bs'
          else if b <? 240 then utf8_go 2 (N.land b 15) bs'
          else utf8_go 3 (N.land b 7) bs'
      | S n =>
          let acc' := acc * 64 + N.land b 63 in
          match n with
          | O =>
              (if acc' <? 65536 then [acc']
               else [55296 + N.shiftr (acc' - 65536) 10;
                     56320 + N.land (acc' - 65536) 1023])
              ++ utf8_go O 0 bs'
          | _ => utf8_go n acc' bs'
          end
      end
  end.

Definition js (s : string) : jstring :=
  utf8_go O 0 (map N_of_ascii (list_ascii_of_string s)).

Definition str_eqb (a b : jstring) : bool :=
  if list_eq_dec N.eq_dec a b then true else false.

(** Truthiness of a string: only the empty string is falsy. *)
Definition truthy (s : jstring) : bool :=
  match s with [] => false | _ => true end.

(** [String.prototype.toLowerCase] / [toUpperCase], on the letters A to Z
    and a to z.  This is the whole of the conversion for a text of ASCII
    characters ([asciiText] below); the letters of other alphabets are left
    as they are here. *)
Definition lower_cu (c : N) : N :=
  if (65 <=? c) && (c <=? 90) then c + 32 else c.

Definition upper_cu (c : N) : N :=
  if (97 <=? c) && (c <=? 122) then c - 32 else c.

Definition toLowerCase (s : jstring) : jstring := map lower_cu s.

(** A text of ASCII characters. *)
Definition asciiText (s : jstring) : bool := forallb (fun c => c <? 128) s.

(** [s.startsWith(t)] on the remaining text. *)
Fixpoint starts_with (t s : jstring) : bool :=
  match t, s with
  | [], _ => true
  | _ :: _, [] => false
  | a :: t', b :: s' => (a =? b) && starts_with t' s'
  end.

(** [s.includes(t)]. *)
Fixpoint includes (s t : jstring) : bool :=
  starts_with t s ||
  match s with
  | [] => false
  | _ :: s' => includes s' t
  end.

(** White space and line terminators, the set shared by [trim] and [\s]. *)
Definition is_space (c : N) : bool :=
  ((9 <=? c) && (c <=? 13)) || (c =? 32) || (c =? 160) || (c =? 5760) ||
  ((8192 <=? c) && (c <=? 8202)) || (c =? 8232) || (c =? 8233) ||
  (c =? 8239) || (c =? 8287) || (c =? 12288) || (c =? 65279).

Fixpoint trimStart (s : jstring) : jstring :=
  match s with
  | c :: s' => if is_space c then trimStart s' else s
  | [] => []
  end.

Definition trimEnd (s : jstring) : jstring := rev (trimStart (rev s)).

Definition trim (s : jstring) : jstring := trimEnd (trimStart s).

(** [s.replace(pat, rep)] with a string pattern: the first occurrence only. *)
Fixpoint replace_str (pat rep s : jstring) : jstring :=
  if starts_with pat s then rep ++ skipn (List.length pat) s
  else match s with
       | [] => []
       | c :: s' => c :: replace_str pat rep s'
       end.

(** [parts.join(sep)]. *)
Fixpoint join (sep : jstring) (parts : list jstring) : jstring :=
  match parts with
  | [] => []
  | [p] => p
  | p :: rest => p ++ sep ++ join sep rest
  end.

(** Decimal rendering of a non-negative integer, as in a template literal. *)
Fixpoint digits_go (fuel : nat) (n : N) (acc : jstring) : jstring :=
  match fuel with
  | O => acc
  | S f =>
      let acc' := (48 + n mod 10) :: acc in
      if n / 10 =? 0 then acc' else digits_go f (n / 10) acc'
  end.

Definition of_nat (n : nat) : jstring :=
  digits_go (S n) (N.of_nat n) [].

Definition is_digit (c : N) : bool := (48 <=? c) && (c <=? 57).

(** [parseInt(s)] in base 10: optional white space and sign, then the
    longest run of digits; [None] stands for [NaN].  The prefix [0x], which
    makes the code read in base 16, is not modelled: the one caller passes
    a string of decimal digits. *)
Fixpoint parse_digits (s : jstring) (acc : Z) : Z :=
  match s with
  | c :: s' => if is_digit c then parse_digits s' (acc * 10 + Z.of_N (c - 48))
               else acc
  | [] => acc
  end.

Definition parseInt (s : jstring) : option Z :=
  match trimStart s with
  | c :: s' =>
      if c =? 45 then
        match s' with
        | d :: _ => if is_digit d then Some (- parse_digits s' 0)%Z else None
        | [] => None
        end
      else if c =? 43 then
        match s' with
        | d :: _ => if is_digit d then Some (parse_digits s' 0) else None
        | [] => None
        end
      else if is_digit c then Some (parse_digits (c :: s') 0)
      else None
  | [] => None
  end.

(** [s.split(sep)] with a non-empty string separator: the pieces between
    the occurrences of [sep], found from left to right.  [skip] counts the
    characters of the current occurrence still to be dropped. *)
Fixpoint split_str_go (sep : jstring) (skip : nat) (cur : jstring)
    (s : jstring) : list jstring :=
  match skip with
  | S n =>
      match s with
      | [] => [rev cur]
      | _ :: s' => split_str_go sep n cur s'
      end
  | O =>
      match s with
      | [] => [rev cur]
      | c :: s' =>
          if starts_with sep s
          then rev cur :: split_str_go sep (List.length sep - 1) [] s'
          else split_str_go sep O (c :: cur) s'
      end
  end.

Definition split_str (sep s : jstring) : list jstring :=
  split_str_go sep O [] s.

End JS.

Export JS.

(* ================================================================== *)
(** * Regular expressions *)
(* ================================================================== *)

Module Regex.

Open Scope N_scope.

(** ** Abstract syntax *)

Inductive citem : Type :=
| CRange (lo hi : N)      (* [a-z], or a single character as [c-c] *)
| CDigit                  (* \d *)
| CSpace                  (* \s *)
| CWord.                  (* \w *)

Inductive regex : Type :=
| REmpty
| RChar (c : N)
| RAny                                        (* . *)
| RClass (neg : bool) (items : list citem)    (* [...] and [^...] *)
| RSeq (r1 r2 : regex)
| RAlt (r1 r2 : regex)
| RRepeat (r : regex) (lo : nat) (hi : option nat) (greedy : bool)
| RGroup (idx : nat) (r : regex)              (* capturing group *)
| REnd.                                       (* $ *)

(** ** Parser for the pattern syntax the program uses *)

Definition seq (a b : regex) : regex :=
  match a, b with
  | REmpty, _ => b
  | _, REmpty => a
  | _, _ => RSeq a b
  end.

Definition hex_val (c : N) : option N :=
  if (48 <=? c) && (c <=? 57) then Some (c - 48)
  else if (65 <=? c) && (c <=? 70) then Some (c - 55)
  else if (97 <=? c) && (c <=? 102) then Some (c - 87)
  else None.

Definition hex4 (s : jstring) : option (N * jstring) :=
  match s with
  | a :: b :: c :: d :: s' =>
      match hex_val a, hex_val b, hex_val c, hex_val d with
      | Some a, Some b, Some c, Some d =>
          Some (((a * 16 + b) * 16 + c) * 16 + d, s')
      | _, _, _, _ => None
      end
  | _ => None
  end.

(** What follows a backslash: a class escape or a single character. *)
Definition parse_escape (s : jstring) : option ((N + citem) * jstring) :=
  match s with
  | [] => None
  | c :: s' =>
      if c =? 100 then Some (inr CDigit, s')
      else if c =? 115 then Some (inr CSpace, s')
      else if c =? 119 then Some (inr CWord, s')
      else if c =? 110 then Some (inl 10, s')
      else if c =? 116 then Some (inl 9, s')
      else if c =? 114 then Some (inl 13, s')
      else if c =? 117 then
        match hex4 s' with
        | Some (u, s'') => Some (inl u, s'')
        | None => None
        end
      else Some (inl c, s')
  end.

Definition class_atom (s : jstring) : option ((N + citem) * jstring) :=
  match s with
  | [] => None
  | c :: s' => if c =? 92 then parse_escape s' else Some (inl c, s')
  end.

Fixpoint parse_class (fuel : nat) (s : jstring)
  : option (list citem * jstring) :=
  match fuel with
  | O => None
  | S f =>
      match s with
      | [] => None
      | c :: s0 =>
          if c =? 93 then Some ([], s0)
          else
            match class_atom s with
            | None => None
            | Some (inr it, s1) =>
                match parse_class f s1 with
                | Some (its, s2) => Some (it :: its, s2)
                | None => None
                end
            | Some (inl lo, s1) =>
                let single :=
                  match parse_class f s1 with
                  | Some (its, s2) => Some (CRange lo lo :: its, s2)
                  | None => None
                  end in
                match s1 with
                | d :: s2 =>
                    if d =? 45 then
                      match s2 with
                      | e :: _ =>
                          if e =? 93 then single
                          else
                            match class_atom s2 with
                            | Some (inl hi, s3) =>
                                match parse_class f s3 with
                                | Some (its, s4) =>
                                    Some (CRange lo hi :: its, s4)
                                | None => None
                                end
                            | _ => single
                            end
                      | [] => None
                      end
                    else single
                | [] => None
                end
            end
      end
  end.

Fixpoint read_nat (s : jstring) (acc : option nat) : option nat * jstring :=
  match s with
  | c :: s' =>
      if is_digit c then
        read_nat s' (Some (match acc with Some a => a * 10 | None => 0 end
                           + N.to_nat (c - 48))%nat)
      else (acc, s)
  | [] => (acc, s)
  end.

Definition laziness (a : regex) (lo : nat) (hi : option nat) (s : jstring)
  : regex * jstring :=
  match s with
  | c :: s' => if c =? 63 then (RRepeat a lo hi false, s')
               else (RRepeat a lo hi true, s)
  | [] => (RRepeat a lo hi true, s)
  end.

Definition parse_braces (a : regex) (s : jstring) : option (regex * jstring) :=
  match read_nat s None with
  | (Some n, c :: s1) =>
      if c =? 125 then Some (laziness a n (Some n) s1)
      else if c =? 44 then
        match read_nat s1 None with
        | (Some m, d :: s2) =>
            if d =? 125 then Some (laziness a n (Some m) s2) else None
        | (None, d :: s2) =>
            if d =? 125 then Some (laziness a n None s2) else None
        | _ => None
        end
      else None
  | _ => None
  end.

Definition parse_quant (a : regex) (s : jstring) : option (regex * jstring) :=
  match s with
  | c :: s' =>
      if c =? 42 then Some (laziness a 0 None s')
      else if c =? 43 then Some (laziness a 1 None s')
      else if c =? 63 then Some (laziness a 0 (Some 1%nat) s')
      else if c =? 123 then parse_braces a s'
      else Some (a, s)
  | [] => Some (a, s)
  end.

Definition quantified (a : regex) (s : jstring) (g : nat)
  : option (regex * jstring * nat) :=
  match parse_quant a s with
  | Some (r, s') => Some (r, s', g)
  | None => None
  end.

(** Disjunction, alternative and term; [g] is the index the next capturing
    group receives (groups are numbered by their opening parenthesis). *)
Fixpoint parse_disj (fuel : nat) (s : jstring) (g : nat)
  : option (regex * jstring * nat) :=
  match fuel with
  | O => None
  | S f =>
      match parse_alt f s g with
      | Some (a, c :: s', g') =>
          if c =? 124 then
            match parse_disj f s' g' with
            | Some (d, s'', g'') => Some (RAlt a d, s'', g'')
            | None => None
            end
          else Some (a, c :: s', g')
      | other => other
      end
  end
with parse_alt (fuel : nat) (s : jstring) (g : nat)
  : option (regex * jstring * nat) :=
  match fuel with
  | O => None
  | S f =>
      match s with
      | [] => Some (REmpty, s, g)
      | c :: _ =>
          if (c =? 124) || (c =? 41) then Some (REmpty, s, g)
          else
            match parse_term f s g with
            | Some (t, s', g') =>
                match parse_alt f s' g' with
                | Some (a, s'', g'') => Some (seq t a, s'', g'')
                | None => None
                end
            | None => None
            end
      end
  end
with parse_term (fuel : nat) (s : jstring) (g : nat)
  : option (regex * jstring * nat) :=
  match fuel with
  | O => None
  | S f =>
      match s with
      | [] => None
      | c :: s' =>
          if c =? 36 then Some (REnd, s', g)
          else if c =? 40 then
            match s' with
            | 63 :: 58 :: s'' =>
                match parse_disj f s'' g with
                | Some (d, e :: s3, g') =>
                    if e =? 41 then quantified d s3 g' else None
                | _ => None
                end
            | _ =>
                match parse_disj f s' (S g) with
                | Some (d, e :: s3, g') =>
                    if e =? 41 then quantified (RGroup g d) s3 g' else None
                | _ => None
                end
            end
          else if c =? 91 then
            let '(neg, body) :=
              match s' with
              | d :: s'' => if d =? 94 then (true, s'') else (false, s')
              | [] => (false, s')
              end in
            match parse_class (S (List.length body)) body with
            | Some (its, s3) => quantified (RClass neg its) s3 g
            | None => None
            end
          else if c =? 92 then
            match parse_escape s' with
            | Some (inl ch, s3) => quantified (RChar ch) s3 g
            | Some (inr it, s3) => quantified (RClass false [it]) s3 g
            | None => None
            end
          else if c =? 46 then quantified RAny s' g
          else if (c =? 42) || (c =? 43) || (c =? 63) || (c =? 41)
                  || (c =? 124) then None
          else quantified (RChar c) s' g
      end
  end.

(** A pattern parses when the whole source text is consumed. *)
Definition parse (src : jstring) : option regex :=
  match parse_disj (4 * List.length src + 8) src 1 with
  | Some (r, [], _) => Some r
  | _ => None
  end.

(** A regular expression object: pattern and flags. *)
Record RegExp : Type := {
  pattern : option regex;
  ignoreCase : bool;
  global : bool
}.

Definition re (src flags : string) : RegExp :=
  {| pattern := parse (js src);
     ignoreCase := includes (js flags) (js "i");
     global := includes (js flags) (js "g") |}.

Definition well_formed (r : RegExp) : bool :=
  match pattern r with Some _ => true | None => false end.

(** ** Backtracking matcher *)

Definition caps := list (nat * jstring).

Fixpoint capture (i : nat) (cs : caps) : option jstring :=
  match cs with
  | [] => None
  | (j, v) :: cs' => if Nat.eqb i j then Some v else capture i cs'
  end.

Fixpoint groups_of (r : regex) : list nat :=
  match r with
  | RSeq a b | RAlt a b => groups_of a ++ groups_of b
  | RRepeat a _ _ _ => groups_of a
  | RGroup i a => i :: groups_of a
  | _ => []
  end.

Definition clear_groups (gs : list nat) (cs : caps) : caps :=
  filter (fun p => negb (existsb (Nat.eqb (fst p)) gs)) cs.

Definition citem_match (c : N) (it : citem) : bool :=
  match it with
  | CRange lo hi => (lo <=? c) && (c <=? hi)
  | CDigit => is_digit c
  | CSpace => is_space c
  | CWord => is_digit c || ((65 <=? c) && (c <=? 90))
             || ((97 <=? c) && (c <=? 122)) || (c =? 95)
  end.

Definition is_line_terminator (c : N) : bool :=
  (c =? 10) || (c =? 13) || (c =? 8232) || (c =? 8233).

Section Matcher.

Variable ci : bool.          (* the i flag *)
Variable A : Type.

Definition char_match (p c : N) : bool :=
  if ci then upper_cu p =? upper_cu c else p =? c.

Definition class_match (neg : bool) (items : list citem) (c : N) : bool :=
  let hit x := existsb (citem_match x) items in
  xorb neg (hit c || (ci && (hit (upper_cu c) || hit (lower_cu c)))).

(** [repeat_loop step k] runs a quantifier: [step] matches one iteration
    of the quantified atom and hands the rest of the input to its
    continuation.  An iteration beyond the required minimum that consumes
    nothing is rejected.  [fuel] starts at [lo + length s], the number of
    iterations that can be made under that rule. *)
Fixpoint repeat_loop
    (step : jstring -> caps -> (jstring -> caps -> option A) -> option A)
    (k : jstring -> caps -> option A) (greedy : bool)
    (fuel lo : nat) (hi : option nat) (s : jstring) (cs : caps)
  : option A :=
  match fuel with
  | O => k s cs
  | S fuel' =>
      match hi with
      | Some O => k s cs
      | _ =>
          let iter :=
            step s cs (fun s' cs' =>
              if Nat.eqb lo 0 && Nat.eqb (List.length s') (List.length s)
              then None
              else repeat_loop step k greedy fuel' (pred lo)
                               (option_map pred hi) s' cs') in
          match lo with
          | S _ => iter
          | O =>
              if greedy then
                match iter with Some x => Some x | None => k s cs end
              else
                match k s cs with Some x => Some x | None => iter end
          end
      end
  end.

Fixpoint m (r : regex) (s : jstring) (cs : caps)
    (k : jstring -> caps -> option A) {struct r} : option A :=
  match r with
  | REmpty => k s cs
  | RChar p =>
      match s with
      | c :: s' => if char_match p c then k s' cs else None
      | [] => None
      end
  | RAny =>
      match s with
      | c :: s' => if is_line_terminator c then None else k s' cs
      | [] => None
      end
  | RClass neg items =>
      match s with
      | c :: s' => if class_match neg items c then k s' cs else None
      | [] => None
      end
  | RSeq r1 r2 => m r1 s cs (fun s' cs' => m r2 s' cs' k)
  | RAlt r1 r2 =>
      match m r1 s cs k with
      | Some x => Some x
      | None => m r2 s cs k
      end
  | RGroup i r1 =>
      m r1 s cs (fun s' cs' =>
        k s' ((i, firstn (List.length s - List.length s') s) :: cs'))
  | REnd => match s with [] => k s cs | _ :: _ => None end
  | RRepeat r1 lo hi greedy =>
      repeat_loop
        (fun s0 cs0 k0 => m r1 s0 (clear_groups (groups_of r1) cs0) k0)
        k greedy (lo + List.length s) lo hi s cs
  end.

End Matcher.

(** A match anchored at the start of [s]: matched length and captures. *)
Definition match_here (ci : bool) (r : regex) (s : jstring)
  : option (nat * caps) :=
  m ci r s [] (fun s' cs => Some ((List.length s - List.length s')%nat, cs)).

(** The leftmost match in [s]: start index, length and captures. *)
Fixpoint search (ci : bool) (r : regex) (i : nat) (s : jstring)
  : option (nat * nat * caps) :=
  match match_here ci r s with
  | Some (len, cs) => Some (i, len, cs)
  | None =>
      match s with
      | [] => None
      | _ :: s' => search ci r (S i) s'
      end
  end.

(** [regexp.exec(s)] for a regular expression without the g flag, and
    [s.match(regexp)]: [None] is [null]. *)
Definition exec (rx : RegExp) (s : jstring) : option (nat * nat * caps) :=
  match pattern rx with
  | Some r => search (ignoreCase rx) r 0 s
  | None => None
  end.

(** [regexp.test(s)]. *)
Definition test (rx : RegExp) (s : jstring) : bool :=
  match exec rx s with Some _ => true | None => false end.

(** [match[i]] of [s.match(regexp)], where [undefined] and the empty string
    are both falsy: the captured text when it is non-empty. *)
Definition match_group (rx : RegExp) (i : nat) (s : jstring) : option jstring :=
  match exec rx s with
  | Some (_, _, cs) =>
      match capture i cs with
      | Some (c :: v) => Some (c :: v)
      | _ => None
      end
  | None => None
  end.

(** [s.replace(regexp, rep)] for a replacement text without [$]: every
    match when the g flag is set, the first one otherwise.  [skip] counts
    the characters of the current match still to be dropped; [live] tells
    whether matching is still going on. *)
Fixpoint replace_go (ci g : bool) (r : regex) (rep : jstring)
    (live : bool) (skip : nat) (s : jstring) : jstring :=
  match skip with
  | S n =>
      match s with
      | [] => []
      | _ :: s' => replace_go ci g r rep live n s'
      end
  | O =>
      match (if live then match_here ci r s else None) with
      | Some (S n, _) =>
          rep ++ match s with
                 | [] => []
                 | _ :: s' => replace_go ci g r rep g n s'
                 end
      | Some (O, _) =>
          rep ++ match s with
                 | [] => []
                 | c :: s' => c :: replace_go ci g r rep g O s'
                 end
      | None =>
          match s with
          | [] => []
          | c :: s' => c :: replace_go ci g r rep live O s'
          end
      end
  end.

Definition replace (rx : RegExp) (rep : jstring) (s : jstring) : jstring :=
  match pattern rx with
  | Some r => replace_go (ignoreCase rx) (global rx) r rep true O s
  | None => s
  end.

(** [s.split(regexp)] for a pattern without capturing groups that matches
    no empty text: the pieces between the matches. *)
Fixpoint split_go (ci : bool) (r : regex) (skip : nat) (cur : jstring)
    (s : jstring) : list jstring :=
  match skip with
  | S n =>
      match s with
      | [] => [rev cur]
      | _ :: s' => split_go ci r n cur s'
      end
  | O =>
      match s with
      | [] => [rev cur]
      | c :: s' =>
          match match_here ci r s with
          | Some (S n, _) => rev cur :: split_go ci r n [] s'
          | _ => split_go ci r O (c :: cur) s'
          end
      end
  end.

Definition split (rx : RegExp) (s : jstring) : list jstring :=
  match pattern rx with
  | Some r => split_go (ignoreCase rx) r O [] s
  | None => [s]
  end.

End Regex.

Export Regex.

(* ================================================================== *)
(** * Values exchanged with the collaborators *)
(* ================================================================== *)

Module Data.

Local Open Scope string_scope.
Local Open Scope list_scope.

(** A JavaScript value, as far as the guards of the program tell values
    apart. *)
Inductive jsval : Type :=
| VUndefined
| VNull
| VBool (b : bool)
| VNumber (z : Z)
| VString (s : jstring).

(** A raw search hit.  [pagemap] arrays are represented by their first
    element, the only one the program reads; the absent text is the empty
    string. *)
Record metatagsObj : Type := {
  og_description : jstring;
  og_image : jstring
}.

Record productObj : Type := {
  product_price : jstring;
  product_name : jstring
}.

Record pagemapObj : Type := {
  metatags : option metatagsObj;
  product : option productObj;
  offer : bool;
  image : bool;
  cse_image : bool
}.

Record item : Type := {
  title : jstring;
  link : jstring;
  snippet : jstring;
  pagemap : option pagemapObj
}.

(** A hit as returned to the caller: the three texts and the optional
    details taken from the page map. *)
Record result : Type := {
  r_title : jstring;
  r_link : jstring;
  r_snippet : jstring;
  r_description : option jstring;
  r_image : option jstring;
  r_price : option jstring;
  r_name : option jstring
}.

Definition nl : jstring := [10%N].

(** [table[key]] on an object literal used as a dictionary, for a key that
    is none of the [inheritedNames] below. *)
Fixpoint get (table : list (string * jstring)) (key : string)
  : option jstring :=
  match table with
  | [] => None
  | (k, v) :: rest => if String.eqb k key then Some v else get rest key
  end.

(** The names that every object literal inherits from [Object.prototype].
    Under one of them [table[key]] is the inherited member, a function or an
    object, and not [undefined]. *)
Definition inheritedNames : list string :=
  [ "constructor"; "__defineGetter__"; "__defineSetter__"; "hasOwnProperty";
    "__lookupGetter__"; "__lookupSetter__"; "isPrototypeOf";
    "propertyIsEnumerable"; "toString"; "valueOf"; "__proto__";
    "toLocaleString" ].

Definition inherited (key : string) : bool :=
  existsb (String.eqb key) inheritedNames.

(** [a || b] on possibly missing texts. *)
Definition or_else (a : option jstring) (b : jstring) : jstring :=
  match a with
  | Some (c :: v) => c :: v
  | _ => b
  end.

(** [process.env]: a variable is unset or holds a text. *)
Record environment : Type := {
  GOOGLE_API_KEY : option jstring;
  GOOGLE_SEARCH_ENGINE_ID : option jstring;
  MISTRAL_API_KEY : option jstring
}.

(** [!value] is false: the variable is set to a non-empty text. *)
Definition present (value : option jstring) : bool :=
  match value with
  | Some (_ :: _) => true
  | _ => false
  end.

End Data.

Export Data.

(* ================================================================== *)
(** * languageService.js *)
(* ================================================================== *)

Module LanguageService.

Local Open Scope string_scope.
Local Open Scope list_scope.

(** Detection patterns, in the insertion order of the object literal. *)
Definition languagePatterns : list (string * list RegExp) :=
  [
    ("hi",
     [ re "[\u0900-\u097F]{3,}" "";
       re "(कैसे|क्या|कौन|कहाँ|क्यों|मैं|हम|तुम|आप|वह|यह|मेरा|हमारा|मुझे|हमें)" "i" ]);
    ("mr",
     [ re "[\u0900-\u097F]{3,}.*?(आहे|नाही|काय|कसे|कोण|कुठे|का|मी|आम्ही|तू|तुम्ही|तो|ती|ते|माझा|आमचा|मला|आम्हाला)" "i" ]);
    ("gu",
     [ re "[\u0A80-\u0AFF]{3,}" "" ]);
    ("bn",
     [ re "[\u0980-\u09FF]{3,}" "" ]);
    ("ta",
     [ re "[\u0B80-\u0BFF]{3,}" "" ]);
    ("te",
     [ re "[\u0C00-\u0C7F]{3,}" "" ]);
    ("kn",
     [ re "[\u0C80-\u0CFF]{3,}" "" ]);
    ("ml",
     [ re "[\u0D00-\u0D7F]{3,}" "" ]);
    ("pa",
     [ re "[\u0A00-\u0A7F]{3,}" "" ]);
    ("ur",
     [ re "[\u0600-\u06FF]{3,}" "" ])
  ].

Fixpoint firstMatch (table : list (string * list RegExp)) (text : jstring)
  : option string :=
  match table with
  | [] => None
  | (langCode, patterns) :: rest =>
      if existsb (fun p => test p text) patterns then Some langCode
      else firstMatch rest text
  end.

Definition detectLanguage (text : jsval) : string :=
  match text with
  | VString s =>
      if negb (truthy s) || Nat.eqb (List.length (trim s)) 0 then "en"
      else match firstMatch languagePatterns s with
           | Some langCode => langCode
           | None => "en"
           end
  | _ => "en"
  end.

Definition noResultsMessages : list (string * jstring) :=
  [
    ("en", js "I couldn't find any relevant real estate information for your query.");
    ("hi", js "मुझे आपके प्रश्न के लिए कोई प्रासंगिक रियल एस्टेट जानकारी नहीं मिली।");
    ("mr", js "मला तुमच्या प्रश्नासाठी कोणतीही संबंधित रिअल इस्टेट माहिती सापडली नाही.");
    ("gu", js "મને તમારી ક્વેરી માટે કોઈ સંબંધિત રીયલ એસ્ટેટ માહિતી મળી નથી.");
    ("bn", js "আমি আপনার প্রশ্নের জন্য কোনও প্রাসঙ্গিক রিয়েল এস্টেট তথ্য খুঁজে পাইনি।");
    ("ta", js "உங்கள் கேள்விக்கு தொடர்புடைய ரியல் எஸ்டேட் தகவல்களை என்னால் கண்டுபிடிக்க முடியவில்லை.");
    ("te", js "మీ ప్రశ్నకు సంబంధించిన రియల్ ఎస్టేట్ సమాచారాన్ని నేను కనుగొనలేకపోయాను.");
    ("kn", js "ನಿಮ್ಮ ಪ್ರಶ್ನೆಗೆ ಸಂಬಂಧಿಸಿದ ಯಾವುದೇ ರಿಯಲ್ ಎಸ್ಟೇಟ್ ಮಾಹಿತಿಯನ್ನು ನಾನು ಕಂಡುಕೊಳ್ಳಲು ಸಾಧ್ಯವಾಗಲಿಲ್ಲ.");
    ("ml", js "നിങ്ങളുടെ ചോദ്യത്തിന് പ്രസക്തമായ റിയൽ എസ്റ്റേറ്റ് വിവരങ്ങളൊന്നും എനിക്ക് കണ്ടെത്താൻ കഴിഞ്ഞില്ല.");
    ("pa", js "ਮੈਨੂੰ ਤੁਹਾਡੇ ਸਵਾਲ ਲਈ ਕੋਈ ਢੁਕਵੀਂ ਰੀਅਲ ਅਸਟੇਟ ਜਾਣਕਾਰੀ ਨਹੀਂ ਮਿਲੀ।");
    ("ur", js "مجھے آپ کے سوال کے لیے کوئی متعلقہ ریل اسٹیٹ معلومات نہیں مل سکیں۔")
  ].

Definition introMessages : list (string * jstring) :=
  [
    ("en", js "Here's what I found online about your real estate query:");
    ("hi", js "आपके रियल एस्टेट प्रश्न के बारे में मुझे ऑनलाइन यह जानकारी मिली:");
    ("mr", js "तुमच्या रिअल इस्टेट प्रश्नाबद्दल मला ऑनलाईन हे सापडले:");
    ("gu", js "તમારી રીયલ એસ્ટેટ ક્વેરી વિશે મને ઓનલાઇન આ માહિતી મળી:");
    ("bn", js "আপনার রিয়েল এস্টেট প্রশ্ন সম্পর্কে আমি অনলাইনে যা খুঁজে পেয়েছি:");
    ("ta", js "உங்கள் ரியல் எஸ்டேட் கேள்வி பற்றி நான் ஆன்லைனில் கண்டுபிடித்தது இதோ:");
    ("te", js "మీ రియల్ ఎస్టేట్ ప్రశ్న గురించి నేను ఆన్‌లైన్‌లో కనుగొన్నది ఇదే:");
    ("kn", js "ನಿಮ್ಮ ರಿಯಲ್ ಎಸ್ಟೇಟ್ ಪ್ರಶ್ನೆಯ ಬಗ್ಗೆ ನಾನು ಆನ್‌ಲೈನ್‌ನಲ್ಲಿ ಕಂಡುಕೊಂಡದ್ದು ಇಲ್ಲಿದೆ:");
    ("ml", js "നിങ്ങളുടെ റിയൽ എസ്റ്റേറ്റ് ചോദ്യത്തെക്കുറിച്ച് ഞാൻ ഓൺലൈനിൽ കണ്ടെത്തിയത് ഇതാണ്:");
    ("pa", js "ਤੁਹਾਡੇ ਰੀਅਲ ਅਸਟੇਟ ਸਵਾਲ ਬਾਰੇ ਮੈਨੂੰ ਔਨਲਾਈਨ ਜੋ ਮਿਲਿਆ:");
    ("ur", js "آپ کے ریل اسٹیٹ سوال کے بارے میں مجھے آن لائن یہ معلومات ملیں:")
  ].

Definition moreInfoMessages : list (string * jstring) :=
  [
    ("en", nl ++ js "Is there anything specific from these results you'd like to know more about?");
    ("hi", nl ++ js "क्या इन परिणामों से आप किसी विशेष जानकारी के बारे में और अधिक जानना चाहते हैं?");
    ("mr", nl ++ js "या निकालांमधून तुम्हाला काही विशिष्ट माहिती अधिक जाणून घ्यायची आहे का?");
    ("gu", nl ++ js "શું આ પરિણામોમાંથી કોઈ ચોક્કસ માહિતી વિશે તમે વધુ જાણવા માંગો છો?");
    ("bn", nl ++ js "এই ফলাফলগুলি থেকে আপনি কি কোনও নির্দিষ্ট বিষয় সম্পর্কে আরও জানতে চান?");
    ("ta", nl ++ js "இந்த முடிவுகளிலிருந்து குறிப்பிட்ட ஏதாவது பற்றி மேலும் அறிய விரும்புகிறீர்களா?");
    ("te", nl ++ js "ఈ ఫలితాల నుండి మీరు ఏదైనా నిర్దిష్ట విషయం గురించి మరింత తెలుసుకోవాలనుకుంటున్నారా?");
    ("kn", nl ++ js "ಈ ಫಲಿತಾಂಶಗಳಿಂದ ನೀವು ಯಾವುದಾದರೂ ನಿರ್ದಿಷ್ಟ ವಿಷಯದ ಬಗ್ಗೆ ಹೆಚ್ಚು ತಿಳಿಯಲು ಬಯಸುತ್ತೀರಾ?");
    ("ml", nl ++ js "ഈ ഫലങ്ങളിൽ നിന്ന് എന്തെങ്കിലും പ്രത്യേകമായി കൂടുതൽ അറിയാൻ നിങ്ങൾ ആഗ്രഹിക്കുന്നുണ്ടോ?");
    ("pa", nl ++ js "ਕੀ ਇਹਨਾਂ ਨਤੀਜਿਆਂ ਵਿੱਚੋਂ ਕੋਈ ਖਾਸ ਜਾਣਕਾਰੀ ਹੈ ਜਿਸ ਬਾਰੇ ਤੁਸੀਂ ਹੋਰ ਜਾਣਨਾ ਚਾਹੋਗੇ?");
    ("ur", nl ++ js "کیا ان نتائج میں سے کوئی خاص چیز ہے جس کے بارے میں آپ مزید جاننا چاہیں گے؟")
  ].

(** The body of the [forEach] that renders one hit after the other. *)
Fixpoint formatEntries (index : nat) (rs : list result) (acc : jstring)
  : jstring :=
  match rs with
  | [] => acc
  | r :: rest =>
      let acc1 := acc ++ of_nat (index + 1) ++ js ". **" ++ r_title r
                      ++ js "**" ++ nl in
      let acc2 := acc1 ++ r_snippet r ++ nl in
      let acc3 := acc2 ++ js "[Learn more](" ++ r_link r ++ js ")" ++ nl ++ nl in
      formatEntries (S index) rest acc3
  end.

(** [searchResults] is [None] when the caller passes [null] or
    [undefined]. *)
Definition formatSearchResultsInLanguage
    (searchResults : option (list result)) (langCode : string) : jstring :=
  match searchResults with
  | None | Some [] =>
      or_else (get noResultsMessages langCode)
              (or_else (get noResultsMessages "en") [])
  | Some rs =>
      let formattedResponse :=
        or_else (get introMessages langCode)
                (or_else (get introMessages "en") []) in
      let formattedResponse := formattedResponse ++ nl ++ nl in
      let formattedResponse := formatEntries 0 rs formattedResponse in
      formattedResponse
        ++ or_else (get moreInfoMessages langCode)
                   (or_else (get moreInfoMessages "en") [])
  end.

(** ** Language names and base system messages *)

Definition languageNames : list (string * jstring) :=
  [ ("en", js "English");
    ("hi", js "Hindi");
    ("mr", js "Marathi");
    ("gu", js "Gujarati");
    ("bn", js "Bengali");
    ("ta", js "Tamil");
    ("te", js "Telugu");
    ("kn", js "Kannada");
    ("ml", js "Malayalam");
    ("pa", js "Punjabi");
    ("ur", js "Urdu") ].

(** [languageNames[langCode] || 'Unknown']. *)
Definition getLanguageName (langCode : string) : jstring :=
  or_else (get languageNames langCode) (js "Unknown").

Definition systemMessages : list (string * jstring) :=
  [ ("en", js "You are a helpful real estate assistant. Provide accurate information about properties, market trends, and buying/selling advice. Be concise and factual.");
    ("hi", js "आप एक सहायक रियल एस्टेट सहायक हैं। संपत्तियों, बाजार रुझानों और खरीदने/बेचने की सलाह के बारे में सटीक जानकारी प्रदान करें। संक्षिप्त और तथ्यात्मक रहें।");
    ("mr", js "तुम्ही एक मदतगार रिअल इस्टेट सहाय्यक आहात. मालमत्ता, बाजारातील कल आणि खरेदी/विक्री सल्ला याबद्दल अचूक माहिती द्या. संक्षिप्त आणि वस्तुनिष्ठ रहा.");
    ("gu", js "તમે એક મદદગાર રીયલ એસ્ટેટ સહાયક છો. પ્રોપર્ટી, માર્કેટ ટ્રેન્ડ્સ અને ખરીદી/વેચાણની સલાહ વિશે સચોટ માહિતી આપો. સંક્ષિપ્ત અને તથ્યાત્મક રહો.");
    ("bn", js "আপনি একজন সহায়ক রিয়েল এস্টেট সহকারী। সম্পত্তি, বাজারের প্রবণতা এবং কেনা/বিক্রয় সম্পর্কে সঠিক তথ্য প্রদান করুন। সংক্ষিপ্ত এবং তথ্যপূর্ণ থাকুন।");
    ("ta", js "நீங்கள் உதவிகரமான ரியல் எஸ்டேட் உதவியாளர். சொத்துக்கள், சந்தை போக்குகள் மற்றும் வாங்குதல்/விற்பனை ஆலோசனை பற்றிய துல்லியமான தகவல்களை வழங்கவும். சுருக்கமாகவும் உண்மையாகவும் இருங்கள்.");
    ("te", js "మీరు సహాయకరమైన రియల్ ఎస్టేట్ సహాయకులు. ఆస్తుల గురించి, మార్కెట్ ధోరణుల గురించి మరియు కొనుగోలు/అమ్మకం సలహాల గురించి ఖచ్చితమైన సమాచారాన్ని అందించండి. సంక్షిప్తంగా మరియు వాస్తవికంగా ఉండండి.");
    ("kn", js "ನೀವು ಸಹಾಯಕ ರಿಯಲ್ ಎಸ್ಟೇಟ್ ಸಹಾಯಕರಾಗಿದ್ದೀರಿ. ಆಸ್ತಿಗಳು, ಮಾರುಕಟ್ಟೆ ಪ್ರವೃತ್ತಿಗಳು ಮತ್ತು ಖರೀದಿ/ಮಾರಾಟ ಸಲಹೆಗಳ ಬಗ್ಗೆ ನಿಖರವಾದ ಮಾಹಿತಿಯನ್ನು ಒದಗಿಸಿ. ಸಂಕ್ಷಿಪ್ತ ಮತ್ತು ವಾಸ್ತವಿಕವಾಗಿರಿ.");
    ("ml", js "നിങ്ങൾ ഒരു സഹായകരമായ റിയൽ എസ്റ്റേറ്റ് അസിസ്റ്റന്റാണ്. വസ്തുക്കൾ, വിപണി പ്രവണതകൾ, വാങ്ങൽ/വിൽക്കൽ ഉപദേശം എന്നിവയെക്കുറിച്ച് കൃത്യമായ വിവരങ്ങൾ നൽകുക. ചുരുക്കവും വസ്തുനിഷ്ഠവുമായിരിക്കുക.");
    ("pa", js "ਤੁਸੀਂ ਇੱਕ ਮਦਦਗਾਰ ਰੀਅਲ ਅਸਟੇਟ ਸਹਾਇਕ ਹੋ। ਜਾਇਦਾਦਾਂ, ਮਾਰਕੀਟ ਰੁਝਾਨਾਂ, ਅਤੇ ਖਰੀਦਣ/ਵੇਚਣ ਦੀ ਸਲਾਹ ਬਾਰੇ ਸਹੀ ਜਾਣਕਾਰੀ ਪ੍ਰਦਾਨ ਕਰੋ। ਸੰਖੇਪ ਅਤੇ ਤੱਥਾਤਮਕ ਰਹੋ।");
    ("ur", js "آپ ایک مددگار ریل اسٹیٹ اسسٹنٹ ہیں۔ پراپرٹیز، مارکیٹ رجحانات، اور خریدنے/بیچنے کے مشورے کے بارے میں درست معلومات فراہم کریں۔ مختصر اور حقیقی رہیں۔") ].

(** The second parameter, [context], is not read. *)
Definition createSystemMessageForLanguage (langCode : string) : jstring :=
  let message :=
    or_else (get systemMessages langCode)
            (or_else (get systemMessages "en") []) in
  if negb (String.eqb langCode "en") then
    let languageName := getLanguageName langCode in
    message ++ nl ++ nl ++ js "IMPORTANT: Always respond in "
            ++ languageName ++ js " language."
  else message.

End LanguageService.


(* ================================================================== *)
(** * webSearchService.js *)
(* ================================================================== *)

Module WebSearchService.

Local Open Scope string_scope.
Local Open Scope list_scope.

(** ** Tables *)

Definition premiumPortals : list jstring :=
  [ js "99acres.com"; js "magicbricks.com"; js "housing.com"; js "nobroker.in";
    js "commonfloor.com"; js "squareyards.com"; js "makaan.com"; js "proptiger.com" ].

Definition locationPatterns : list RegExp :=
  [ re "(?:in|at|near|around|within)\s+([\w\s,]+)" "i";
    re "([\w\s,]+)\s+(?:area|locality|region|district|neighborhood)" "i";
    re "properties?\s+(?:in|at|near|around|within)\s+([\w\s,]+)" "i";
    re "(mumbai|delhi|bangalore|hyderabad|chennai|kolkata|pune|ahmedabad|jaipur|surat|lucknow|kanpur|nagpur|indore|thane|bhopal|visakhapatnam|patna|vadodara|ghaziabad|ludhiana|agra|nashik|faridabad|meerut|rajkot|varanasi|srinagar|aurangabad|dhanbad|amritsar|navi mumbai|allahabad|ranchi|howrah|coimbatore|jabalpur|gwalior|vijayawada|jodhpur|madurai|raipur|kota|guwahati|chandigarh|solapur|hubli|dharwad|bareilly|moradabad|mysore|gurgaon|aligarh|jalandhar|tiruchirappalli|bhubaneswar|salem|mira-bhayandar|warangal|guntur|bhiwandi|saharanpur|gorakhpur|bikaner|amravati|noida|jamshedpur|bhilai|cuttack|firozabad|kochi|nellore|bhavnagar|dehradun|durgapur|asansol|rourkela|nanded|kolhapur|ajmer|akola|gulbarga|jamnagar|ujjain|loni|siliguri|jhansi|ulhasnagar|jammu|sangli-miraj|mangalore|erode|belgaum|ambattur|tirunelveli|malegaon|gaya|jalgaon|udaipur|maheshtala|tirupur|davanagere|kozhikode|akbarpur|korba|bhilwara|berhampur|muzaffarpur|ahmednagar|mathura|kollam|avadi|kadapa|kamarhati|sambalpur|bilaspur|shahjahanpur|satara|bijapur|rampur|shimoga|chandrapur|tumkur|muzaffarnagar|bhagalpur|bally|panihati|rohtak|sagar|bidar|brahmapur|baranagar|darbhanga|sonipat|srinagar|pondicherry|durg|imphal|ratlam|hapur|anantapur|arrah|karimnagar|etawah|ambarnath|north|dumdum|bharatpur|begusarai|new|delhi|gandhidham|barasat|guwahati|rae|bareli|khammam|bhilai|nagar|bhiwani|cuddalore|rajpur|sonarpur|rajahmundry|bokaro|south|dumdum|bellary|patiala|gopalpur|agartala|bhagalpur|bhatpara|hazaribagh|dhule|panvel|nellore|mango|malegaon|gaya|haldia|kurnool|ajmer|tiruppur|ambala|panipat|kottayam|gandhidham|tirupati|karnal|bathinda|rampur|shivamogga|raebareli|khammam|bhilai|nagar|bhiwani|cuddalore|rajpur|sonarpur|rajahmundry|bokaro|south|dumdum|bellary|patiala|gopalpur|agartala|bhagalpur|bhatpara|hazaribagh|dhule|panvel|nellore|mango|malegaon|gaya|haldia|kurnool|ajmer|tiruppur|ambala|panipat|kottayam|gandhidham|tirupati|karnal|bathinda|rampur|shivamogga|raebareli|khammam|bhilai|nagar|bhiwani|cuddalore|rajpur|sonarpur|rajahmundry|bokaro|south|dumdum|bellary|patiala|gopalpur|agartala|bhagalpur|bhatpara|hazaribagh|dhule|panvel|nellore|mango|malegaon|gaya|haldia|kurnool|ajmer|tiruppur|ambala|panipat|kottayam|gandhidham|tirupati|karnal|bathinda|rampur|shivamogga|raebareli)" "i" ].

Definition budgetPatterns : list RegExp :=
  [ re "(?:budget|price|cost|value|worth|range)\s+(?:of|is|around|about)?\s*(?:rs\.?|inr|₹)?\s*(\d[\d,.]*)" "i";
    re "(\d[\d,.]*)\s*(?:rs\.?|inr|₹|lakh|crore|k|l|cr)" "i";
    re "(?:budget|price|cost|value|worth|range)\s+(?:between|from)\s*(?:rs\.?|inr|₹)?\s*(\d[\d,.]*)\s*(?:to|-|and)\s*(?:rs\.?|inr|₹)?\s*(\d[\d,.]*)" "i";
    re "(?:under|below|less than|maximum|max)\s*(?:rs\.?|inr|₹)?\s*(\d[\d,.]*)" "i";
    re "(?:above|over|more than|minimum|min)\s*(?:rs\.?|inr|₹)?\s*(\d[\d,.]*)" "i" ].

Definition propertyTypes : list jstring :=
  [ js "apartment"; js "house"; js "villa"; js "flat";
    js "plot"; js "land"; js "penthouse"; js "studio";
    js "duplex"; js "bungalow"; js "cottage"; js "farmhouse";
    js "rowhouse"; js "townhouse"; js "1bhk"; js "2bhk";
    js "3bhk"; js "4bhk"; js "5bhk"; js "rk";
    js "single room"; js "commercial"; js "office"; js "shop";
    js "retail"; js "warehouse"; js "industrial"; js "pg";
    js "paying guest"; js "independent house"; js "independent floor"; js "builder floor";
    js "kothi"; js "haveli"; js "residential apartment"; js "residential plot";
    js "residential land"; js "residential house"; js "commercial property"; js "commercial space";
    js "commercial plot"; js "commercial land"; js "agricultural land"; js "farm land";
    js "farm house"; js "resort"; js "service apartment" ].

Definition buyTerms : list jstring :=
  [ js "buy"; js "purchase"; js "buying"; js "purchasing";
    js "own"; js "owning"; js "investment"; js "investing";
    js "kharidna"; js "kharid"; js "खरीदना"; js "खरीद";
    js "विकय"; js "खरेदी"; js "ખરીદવું" ].

Definition rentTerms : list jstring :=
  [ js "rent"; js "renting"; js "lease"; js "leasing";
    js "temporary"; js "short term"; js "kiraya"; js "किराया";
    js "भाड़े"; js "भाडे"; js "ભાડે" ].

Definition bedroomPatterns : list RegExp :=
  [ re "(\d+)\s*bhk" "i";
    re "(\d+)\s*bedroom" "i";
    re "(\d+)\s*bed" "i";
    re "(one|two|three|four|five|1|2|3|4|5)\s*(?:bedroom|bhk|bed)" "i";
    re "(?:single|double|triple)\s*(?:bedroom|bhk|bed)" "i" ].

(** ** Intent extraction ([searchRealEstateInfo], first half) *)

(** The lead record is a JavaScript object; a property the object does not
    carry reads as [undefined]. *)
Definition leadInfo : Type := list (string * jstring).

(** [leadInfo.key || '']. *)
Definition knownSlot (lead : leadInfo) (key : string) : jstring :=
  or_else (get lead key) [].

Record intent : Type := {
  location : jstring;
  budget : jstring;
  propertyType : jstring;
  transactionType : jstring;
  bedrooms : jstring
}.

(** [for (const pattern of patterns) { const match = query.match(pattern);
    if (match && match[1]) { ...; break; } }]: the first capture of the
    first pattern whose first capture is non-empty. *)
Fixpoint firstCapture (patterns : list RegExp) (query : jstring)
  : option jstring :=
  match patterns with
  | [] => None
  | p :: rest =>
      match match_group p 1 query with
      | Some v => Some v
      | None => firstCapture rest query
      end
  end.

(** [for (const x of xs) { if (text.includes(x)) { ...; break; } }]. *)
Fixpoint firstIncluded (xs : list jstring) (text : jstring)
  : option jstring :=
  match xs with
  | [] => None
  | x :: rest => if includes text x then Some x else firstIncluded rest text
  end.

Definition extractLocation (query : jstring) (lead : leadInfo) : jstring :=
  let location := knownSlot lead "preferredLocation" in
  if negb (truthy location) then
    match firstCapture locationPatterns query with
    | Some m1 => trim m1
    | None => location
    end
  else location.

Definition extractBudget (query : jstring) (lead : leadInfo) : jstring :=
  let budget := knownSlot lead "budget" in
  if negb (truthy budget) then
    match firstCapture budgetPatterns query with
    | Some m1 => replace (re "[,.]" "g") [] m1
    | None => budget
    end
  else budget.

Definition extractPropertyType (query : jstring) (lead : leadInfo)
  : jstring :=
  let propertyType := knownSlot lead "propertyType" in
  if negb (truthy propertyType) then
    match firstIncluded propertyTypes (toLowerCase query) with
    | Some type => type
    | None => propertyType
    end
  else propertyType.

Definition extractTransactionType (query : jstring) : jstring :=
  let transactionType :=
    match firstIncluded buyTerms (toLowerCase query) with
    | Some _ => js "buy"
    | None => []
    end in
  if negb (truthy transactionType) then
    match firstIncluded rentTerms (toLowerCase query) with
    | Some _ => js "rent"
    | None => transactionType
    end
  else transactionType.

(** The chain that turns number words into digits. *)
Definition wordToDigit (m1 : jstring) : jstring :=
  let w := toLowerCase m1 in
  if str_eqb w (js "one") then js "1"
  else if str_eqb w (js "two") then js "2"
  else if str_eqb w (js "three") then js "3"
  else if str_eqb w (js "four") then js "4"
  else if str_eqb w (js "five") then js "5"
  else if str_eqb w (js "single") then js "1"
  else if str_eqb w (js "double") then js "2"
  else if str_eqb w (js "triple") then js "3"
  else m1.

Definition extractBedrooms (query : jstring) : jstring :=
  match firstCapture bedroomPatterns query with
  | Some m1 => wordToDigit m1
  | None => []
  end.

Definition extractIntent (query : jstring) (lead : leadInfo) : intent :=
  {| location := extractLocation query lead;
     budget := extractBudget query lead;
     propertyType := extractPropertyType query lead;
     transactionType := extractTransactionType query;
     bedrooms := extractBedrooms query |}.

(** ** Query enhancement ([searchRealEstateInfo], lines 179-219) *)

Definition portalQueryPart : jstring := join (js " OR ") premiumPortals.

Definition buildEnhancedQuery (query : jstring) (i : intent) : jstring :=
  let enhancedQuery := query in
  let enhancedQuery :=
    if negb (includes (toLowerCase query) (js "real estate"))
       && negb (includes (toLowerCase query) (js "property"))
       && negb (includes (toLowerCase query) (js "flat"))
       && negb (includes (toLowerCase query) (js "house"))
       && negb (includes (toLowerCase query) (js "apartment"))
    then enhancedQuery ++ js " real estate property"
    else enhancedQuery in
  let enhancedQuery :=
    if truthy (location i)
       && negb (includes (toLowerCase enhancedQuery)
                         (toLowerCase (location i)))
    then enhancedQuery ++ js " in " ++ location i
    else enhancedQuery in
  let enhancedQuery :=
    if truthy (propertyType i)
       && negb (includes (toLowerCase enhancedQuery)
                         (toLowerCase (propertyType i)))
    then enhancedQuery ++ js " " ++ propertyType i
    else enhancedQuery in
  let enhancedQuery :=
    if truthy (transactionType i)
       && negb (includes (toLowerCase enhancedQuery) (transactionType i))
    then enhancedQuery ++ js " for " ++ transactionType i
    else enhancedQuery in
  let enhancedQuery :=
    if truthy (budget i) && negb (includes enhancedQuery (budget i))
    then enhancedQuery ++ js " " ++ budget i
    else enhancedQuery in
  let enhancedQuery :=
    if truthy (bedrooms i)
       && negb (includes (toLowerCase enhancedQuery)
                         (bedrooms i ++ js " bhk"))
       && negb (includes (toLowerCase enhancedQuery)
                         (bedrooms i ++ js " bedroom"))
    then enhancedQuery ++ js " " ++ bedrooms i ++ js " bhk"
    else enhancedQuery in
  enhancedQuery ++ js " (" ++ portalQueryPart ++ js ")".

(** ** Relevance score ([calculateRelevanceScore]) *)

Local Open Scope Z_scope.

Definition standardSites : list jstring :=
  [ js "commonfloor"; js "squareyards"; js "makaan"; js "proptiger"; js "propertywala"; js "indiaproperty" ].

Definition otherSites : list jstring :=
  [ js "olx"; js "quikr"; js "nestaway"; js "zolo"; js "stanza";
    js "colive"; js "facebook"; js "instagram"; js "linkedin" ].

Definition premiumSites : list jstring :=
  map (fun portal => replace_str (js ".in") [] (replace_str (js ".com") [] portal))
      premiumPortals.

Definition relatedTypes : list (jstring * list jstring) :=
  [ (js "apartment", [ js "flat"; js "condo"; js "condominium"; js "residential apartment" ]);
    (js "flat", [ js "apartment"; js "condo"; js "condominium"; js "residential flat" ]);
    (js "house", [ js "villa"; js "bungalow"; js "independent"; js "kothi"; js "residential house" ]);
    (js "villa", [ js "house"; js "bungalow"; js "independent"; js "kothi" ]);
    (js "plot", [ js "land"; js "residential plot"; js "residential land" ]);
    (js "land", [ js "plot"; js "residential land"; js "residential plot" ]);
    (js "1bhk", [ js "1 bhk"; js "one bedroom"; js "1 bedroom"; js "single bedroom" ]);
    (js "2bhk", [ js "2 bhk"; js "two bedroom"; js "2 bedroom"; js "double bedroom" ]);
    (js "3bhk", [ js "3 bhk"; js "three bedroom"; js "3 bedroom"; js "triple bedroom" ]);
    (js "4bhk", [ js "4 bhk"; js "four bedroom"; js "4 bedroom"; js "quadruple bedroom" ]);
    (js "commercial", [ js "office"; js "shop"; js "retail"; js "commercial property"; js "commercial space" ]) ].

(** [relatedTypes[propertyType]] for a property type that is none of the
    [inheritedNames]; under an inherited name the code reads a member that
    it cannot iterate and throws ([scoringThrows] in the search). *)
Fixpoint relatedTo (table : list (jstring * list jstring)) (key : jstring)
  : option (list jstring) :=
  match table with
  | [] => None
  | (k, v) :: rest => if str_eqb k key then Some v else relatedTo rest key
  end.

Definition pricePatterns : list RegExp :=
  [ re "₹\s*\d[\d,.]*\s*(lakh|crore|k|l|cr)?" "i";
    re "rs\.?\s*\d[\d,.]*\s*(lakh|crore|k|l|cr)?" "i";
    re "inr\s*\d[\d,.]*\s*(lakh|crore|k|l|cr)?" "i";
    re "\d[\d,.]*\s*(lakh|crore|k|l|cr)" "i";
    re "price\s*:\s*\d[\d,.]*" "i";
    re "cost\s*:\s*\d[\d,.]*" "i";
    re "budget\s*:\s*\d[\d,.]*" "i";
    re "\d+(\.\d+)?\s*cr" "i";
    re "\d+(\.\d+)?\s*l" "i";
    re "\d+(\.\d+)?\s*lacs" "i";
    re "\d+(\.\d+)?\s*lakhs" "i" ].

Definition propertyDetailPatterns : list RegExp :=
  [ re "\d+\s*bhk" "i";
    re "\d+\s*bedroom" "i";
    re "\d+\s*bath" "i";
    re "\d+\s*sq\.?\s*ft" "i";
    re "\d+\s*square\s*feet" "i";
    re "\d+\s*sq\.?\s*m" "i";
    re "\d+\s*acre" "i";
    re "\d+\s*yard" "i";
    re "amenities" "i";
    re "furnished" "i";
    re "semi-furnished" "i";
    re "unfurnished" "i";
    re "carpet\s*area" "i";
    re "built\s*up\s*area" "i";
    re "super\s*built\s*up" "i";
    re "floor\s*plan" "i";
    re "master\s*bedroom" "i";
    re "attached\s*bath" "i";
    re "modular\s*kitchen" "i";
    re "power\s*backup" "i";
    re "24x7\s*water" "i";
    re "security" "i";
    re "gym|swimming\s*pool|club\s*house|garden|park" "i" ].

Definition recencyPatterns : list RegExp :=
  [ re "new\s*launch" "i";
    re "just\s*launch" "i";
    re "recent" "i";
    re "latest" "i";
    re "new\s*project" "i";
    re "under\s*construction" "i";
    re "ready\s*to\s*move" "i";
    re "immediate\s*possession" "i";
    re "\d{1,2}\s*days?\s*ago" "i";
    re "\d{1,2}\s*hours?\s*ago" "i";
    re "possession\s*in\s*\d{4}" "i";
    re "completion\s*in\s*\d{4}" "i";
    re "ready\s*to\s*move\s*in" "i";
    re "newly\s*built" "i";
    re "fresh\s*listing" "i" ].

Definition buyPatterns : list RegExp :=
  [ re "buy" "i";
    re "sale" "i";
    re "selling" "i";
    re "purchase" "i";
    re "invest" "i";
    re "ownership" "i";
    re "खरीदना" "i";
    re "खरीद" "i";
    re "विकय" "i";
    re "खरेदी" "i";
    re "ખરીદવું" "i" ].

Definition rentPatterns : list RegExp :=
  [ re "rent" "i";
    re "lease" "i";
    re "renting" "i";
    re "leasing" "i";
    re "to let" "i";
    re "for let" "i";
    re "किराया" "i";
    re "भाड़े" "i";
    re "भाडे" "i";
    re "ભાડે" "i" ].

Definition realEstateVocabulary : RegExp :=
  re "property|estate|home|house|apartment|flat|villa|plot|land|bhk|residential|commercial|rent|sale|broker|agent|realty|builder|construction|project|township|society|floor|bedroom|bathroom|kitchen|hall|balcony|terrace|parking|amenities|possession|ownership|lease" "i".

Definition detailTerms : list jstring :=
  [ js "bhk"; js "bedroom"; js "bathroom"; js "sq ft";
    js "square feet"; js "carpet area"; js "built up"; js "super built up";
    js "floor"; js "storey"; js "parking"; js "garden";
    js "balcony"; js "terrace"; js "kitchen"; js "hall";
    js "living room"; js "dining room"; js "study room"; js "servant room";
    js "pooja room"; js "store room"; js "lobby"; js "entrance";
    js "lift"; js "elevator"; js "power backup"; js "water supply";
    js "security"; js "gym"; js "swimming pool"; js "club house";
    js "park"; js "playground"; js "jogging track"; js "tennis court";
    js "basketball court"; js "badminton court"; js "squash court"; js "amphitheatre";
    js "banquet hall"; js "party hall"; js "community hall"; js "shopping center";
    js "school"; js "hospital"; js "market"; js "mall";
    js "metro"; js "bus stop"; js "railway station"; js "airport" ].

(** [text.match(pattern)] used as a condition. *)
Definition matches (text : jstring) (p : RegExp) : bool := test p text.

(** [new RegExp(`${bedrooms}\\s*bhk`, 'i')] and its three siblings.  The
    bedroom count reaches the scorer as a string of decimal digits
    ([IntentFacts.bedrooms_are_digits]); for such a string the pattern
    below is the one the constructor parses from the source text
    ([IntentFacts.bedroomPattern_is_constructor]). *)
Definition literally (s : jstring) (tail : regex) : regex :=
  fold_right (fun c r => seq (RChar c) r) tail s.

Definition bedroomPattern (bedrooms : jstring) (unit : string) : RegExp :=
  {| pattern := option_map (literally bedrooms) (parse (js "\s*" ++ js unit));
     ignoreCase := true;
     global := false |}.

(** The three site tiers, in the order of the source. *)
Definition premiumBonus (score : Z) (link : jstring) : Z :=
  if existsb (includes link) premiumSites then score + 20 else score.

Definition standardBonus (score : Z) (link : jstring) : Z :=
  if score =? 0 then
    if existsb (includes link) standardSites then score + 15 else score
  else score.

Definition otherBonus (score : Z) (link : jstring) : Z :=
  if score =? 0 then
    if existsb (includes link) otherSites then score + 5 else score
  else score.

Definition siteScore (link : jstring) : Z :=
  otherBonus (standardBonus (premiumBonus 0 link) link) link.

Definition propertyTypeScore (title snippet propertyType : jstring) : Z :=
  if truthy propertyType then
    if includes title propertyType then 12
    else if includes snippet propertyType then 8
    else
      match relatedTo relatedTypes propertyType with
      | Some related =>
          if existsb (fun r => includes title r || includes snippet r) related
          then 6 else 0
      | None => 0
      end
  else 0.

Definition locationScore (title snippet location : jstring) : Z :=
  if truthy location then
    let locationLower := toLowerCase location in
    if includes title locationLower then 15
    else if includes snippet locationLower then 10
    else
      let locationParts := split (re "\s+" "") locationLower in
      if existsb (fun part =>
                    Nat.ltb 3 (List.length part)
                    && (includes title part || includes snippet part))
                 locationParts
      then 5 else 0
  else 0.

Definition anyMatch (patterns : list RegExp) (title snippet : jstring)
  : bool :=
  existsb (fun p => matches title p || matches snippet p) patterns.

Definition priceScore (title snippet : jstring) : Z :=
  if anyMatch pricePatterns title snippet then 8 else 0.

Definition bedroomScore (title snippet bedrooms : jstring) : Z :=
  if truthy bedrooms then
    let bedroomPatterns :=
      [ bedroomPattern bedrooms "bhk"; bedroomPattern bedrooms "bedroom";
        bedroomPattern bedrooms "bed"; bedroomPattern bedrooms "rk" ] in
    let hasBedroomMatch := anyMatch bedroomPatterns title snippet in
    if hasBedroomMatch then 15
    else
      if match parseInt bedrooms with Some n => 3 <=? n | None => false end
         && (includes title (js "spacious") || includes title (js "large")
             || includes snippet (js "spacious")
             || includes snippet (js "large"))
      then 3 else 0
  else 0.

Definition countWhere {X : Type} (f : X -> bool) (xs : list X) : Z :=
  Z.of_nat (List.length (filter f xs)).

Definition detailScore (title snippet : jstring) : Z :=
  let detailMatchCount :=
    countWhere (fun p => matches title p || matches snippet p)
               propertyDetailPatterns in
  if 5 <=? detailMatchCount then 12
  else if 3 <=? detailMatchCount then 8
  else if 1 <=? detailMatchCount then 4
  else 0.

Definition recencyScore (title snippet : jstring) : Z :=
  if anyMatch recencyPatterns title snippet then 5 else 0.

Definition transactionScore (title snippet transactionType : jstring) : Z :=
  if truthy transactionType then
    if str_eqb transactionType (js "buy") then
      (if anyMatch buyPatterns title snippet then 10 else 0)
      + (if anyMatch rentPatterns title snippet then -15 else 0)
    else if str_eqb transactionType (js "rent") then
      (if anyMatch rentPatterns title snippet then 10 else 0)
      + (if anyMatch buyPatterns title snippet then -15 else 0)
    else 0
  else 0.

Definition unrelatedPenalty (title snippet : jstring) : Z :=
  if negb (matches title realEstateVocabulary)
     && negb (matches snippet realEstateVocabulary)
  then -20 else 0.

Definition detailTermScore (title snippet : jstring) : Z :=
  let detailCount :=
    countWhere (fun term => includes title term || includes snippet term)
               detailTerms in
  if 5 <=? detailCount then 10
  else if 3 <=? detailCount then 6
  else if 1 <=? detailCount then 3
  else 0.

Definition pagemapScore (pm : option pagemapObj) : Z :=
  match pm with
  | Some p =>
      (match metatags p with Some _ => 5 | None => 0 end)
      + (match product p with Some _ => 8 | None => 0 end)
      + (if offer p then 5 else 0)
      + (if image p || cse_image p then 5 else 0)
  | None => 0
  end.

Definition completenessScore (title snippet link : jstring) : Z :=
  if Nat.ltb 20 (List.length title) && Nat.ltb 50 (List.length snippet)
     && Nat.ltb 15 (List.length link)
  then 5 else 0.

Definition calculateRelevanceScore (it : item) (query location propertyType
    transactionType bedrooms : jstring) : Z :=
  let title := toLowerCase (Data.title it) in
  let snippet := toLowerCase (Data.snippet it) in
  let link := toLowerCase (Data.link it) in
  let score := siteScore link in
  let score := score + propertyTypeScore title snippet propertyType in
  let score := score + locationScore title snippet location in
  let score := score + priceScore title snippet in
  let score := score + bedroomScore title snippet bedrooms in
  let score := score + detailScore title snippet in
  let score := score + recencyScore title snippet in
  let score := score + transactionScore title snippet transactionType in
  let score := score + unrelatedPenalty title snippet in
  let score := score + detailTermScore title snippet in
  let score := score + pagemapScore (pagemap it) in
  let score := score + completenessScore title snippet link in
  score.

(** ** Ranking ([searchRealEstateInfo], lines 264-308) *)

Record scored : Type := {
  s_item : item;
  relevanceScore : Z
}.

(** [results.sort((a, b) => b.relevanceScore - a.relevanceScore)].
    [Array.prototype.sort] is stable; with a consistent comparator its
    result is the one a stable insertion sort produces. *)
Fixpoint insertByScore (x : scored) (l : list scored) : list scored :=
  match l with
  | [] => [x]
  | y :: l' =>
      if 0 <? relevanceScore y - relevanceScore x
      then y :: insertByScore x l'
      else x :: y :: l'
  end.

Definition sortByScore (l : list scored) : list scored :=
  fold_right insertByScore [] l.

Definition nonEmpty (s : jstring) : option jstring :=
  if truthy s then Some s else None.

Definition enhanceItem (s : scored) : result :=
  let it := s_item s in
  let mt := match pagemap it with Some p => metatags p | None => None end in
  let pr := match pagemap it with Some p => product p | None => None end in
  {| r_title := title it;
     r_link := link it;
     r_snippet := snippet it;
     r_description :=
       match mt with Some t => nonEmpty (og_description t) | None => None end;
     r_image :=
       match mt with Some t => nonEmpty (og_image t) | None => None end;
     r_price :=
       match pr with Some p => nonEmpty (product_price p) | None => None end;
     r_name :=
       match pr with Some p => nonEmpty (product_name p) | None => None end |}.

Definition scoreItems (items : list item) (query : jstring) (i : intent)
  : list scored :=
  map (fun it =>
         {| s_item := it;
            relevanceScore :=
              calculateRelevanceScore it query (location i) (propertyType i)
                                      (transactionType i) (bedrooms i) |})
      items.

Definition rankResults (items : list item) (query : jstring) (i : intent)
  : list result :=
  let results := scoreItems items query i in
  let results := sortByScore results in
  let results := map enhanceItem results in
  firstn 5 results.

Local Close Scope Z_scope.

(** ** Configuration ([constructor]) *)

(** The service object: the two credentials read from the environment.
    [baseURL] and [premiumPortals] are constants. *)
Record webSearchService : Type := {
  googleApiKey : option jstring;
  googleSearchEngineId : option jstring
}.

Definition baseURL : jstring :=
  js "https://www.googleapis.com/customsearch/v1".

(** The search engine ID may be configured as the URL of the engine; the
    value of its [cx] parameter is then taken. *)
Definition searchEngineIdOf (configured : option jstring) : option jstring :=
  match configured with
  | Some searchEngineId =>
      if truthy searchEngineId && includes searchEngineId (js "cx=") then
        match match_group (re "cx=([^&]+)" "") 1 searchEngineId with
        | Some m1 => Some m1
        | None => Some searchEngineId
        end
      else Some searchEngineId
  | None => None
  end.

Definition newWebSearchService (env : environment) : webSearchService :=
  {| googleApiKey := GOOGLE_API_KEY env;
     googleSearchEngineId := searchEngineIdOf (GOOGLE_SEARCH_ENGINE_ID env) |}.

(** ** The search ([searchRealEstateInfo]) *)

(** A request to the Custom Search API: [axios.get(url, { params,
    timeout })].  [restrictions] are the parameters besides [key], [cx],
    [q] and [num]. *)
Record searchRequest : Type := {
  url : jstring;
  key : option jstring;
  cx : option jstring;
  q : jstring;
  num : nat;
  restrictions : list (string * jstring);
  timeout : N
}.

(** What the request comes to.  The promise is rejected (no answer, a
    timeout, a status outside 2xx); or it resolves to a response without
    [data], or to one whose [data.items] is missing or not an array, or to
    one with an array of hits.  The hits follow the schema of the API: each
    carries its [title], [link] and [snippet] as texts. *)
Inductive searchReply : Type :=
| Rejected
| NoData
| NoItems
| Items (items : list item).

Definition primaryRestrictions : list (string * jstring) :=
  [ ("cr", js "countryIN"); ("gl", js "in"); ("safe", js "active");
    ("sort", js "date"); ("filter", js "1"); ("dateRestrict", js "y1") ].

(** The property type is the name of an inherited member. *)
Definition inheritedText (propertyType : jstring) : bool :=
  existsb (fun name => str_eqb propertyType (js name)) inheritedNames.

(** Scoring the hit throws.  When neither the title nor the snippet has
    the property type, [relatedTypes[propertyType]] is read and, when it is
    truthy, iterated; under an inherited name it is a function or an object
    that [for ... of] cannot iterate, and a [TypeError] is thrown.  The
    bedroom patterns are compiled from the bedroom count of the intent,
    which extraction makes of digits, so that [new RegExp] accepts them. *)
Definition scoringThrows (it : item) (i : intent) : bool :=
  let title := toLowerCase (title it) in
  let snippet := toLowerCase (snippet it) in
  truthy (propertyType i)
  && negb (includes title (propertyType i))
  && negb (includes snippet (propertyType i))
  && inheritedText (propertyType i).

(** The body of the [try] block.  The requests sent, in order, and the
    value returned; [None] when the block is left by an exception (the
    configuration check throws, the request is rejected, or scoring one of
    the hits throws). *)
Definition primarySearch (this : webSearchService)
    (axiosGet : searchRequest -> searchReply)
    (query : jstring) (lead : leadInfo)
  : list searchRequest * option (list result) :=
  if negb (present (googleApiKey this))
     || negb (present (googleSearchEngineId this))
  then ([], None)
  else
    let i := extractIntent query lead in
    let enhancedQuery := buildEnhancedQuery query i in
    let request :=
      {| url := baseURL;
         key := googleApiKey this;
         cx := googleSearchEngineId this;
         q := enhancedQuery;
         num := 10;
         restrictions := primaryRestrictions;
         timeout := 15000%N |} in
    match axiosGet request with
    | Rejected => ([request], None)
    | NoData => ([request], Some [])
    | NoItems => ([request], Some [])
    | Items [] => ([request], Some [])
    | Items items =>
        if existsb (fun it => scoringThrows it i) items
        then ([request], None)
        else ([request], Some (rankResults items query i))
    end.

(** [query.split(' ').slice(0, 3).join(' ') + ' real estate']. *)
Definition simplifiedQuery (query : jstring) : jstring :=
  join (js " ") (firstn 3 (split_str (js " ") query)) ++ js " real estate".

(** A hit of the fallback search: the three texts only. *)
Definition bareResult (it : item) : result :=
  {| r_title := title it;
     r_link := link it;
     r_snippet := snippet it;
     r_description := None;
     r_image := None;
     r_price := None;
     r_name := None |}.

(** The body of the [catch] block: one more request, with a shortened
    query; whatever goes wrong there gives the empty list. *)
Definition fallbackSearch (this : webSearchService)
    (axiosGet : searchRequest -> searchReply) (query : jstring)
  : list searchRequest * list result :=
  let request :=
    {| url := baseURL;
       key := googleApiKey this;
       cx := googleSearchEngineId this;
       q := simplifiedQuery query;
       num := 5;
       restrictions := [];
       timeout := 10000%N |} in
  match axiosGet request with
  | Items (it :: items) => ([request], map bareResult (it :: items))
  | _ => ([request], [])
  end.

(** The requests sent, in order, and the hits returned. *)
Definition searchRealEstateInfo (this : webSearchService)
    (axiosGet : searchRequest -> searchReply)
    (query : jstring) (lead : leadInfo)
  : list searchRequest * list result :=
  match primarySearch this axiosGet query lead with
  | (sent, Some results) => (sent, results)
  | (sent, None) =>
      let (sent', results) := fallbackSearch this axiosGet query in
      (sent ++ sent', results)
  end.

(** ** Formatting and the need for a search *)

(** [query] defaults to the empty text. *)
Definition formatSearchResults (searchResults : option (list result))
    (query : jsval) : jstring :=
  let query := match query with VUndefined => VString [] | _ => query end in
  let detectedLangCode := LanguageService.detectLanguage query in
  LanguageService.formatSearchResultsInLanguage searchResults
                                                detectedLangCode.

Definition webSearchKeywords : list jstring :=
  [ js "market"; js "price"; js "trend"; js "current"; js "latest"; js "recent";
    js "statistics"; js "data"; js "report"; js "news"; js "development"; js "investment";
    js "return"; js "appreciation"; js "depreciation"; js "mortgage"; js "interest rate"; js "loan";
    js "financing"; js "neighborhood"; js "school"; js "crime"; js "safety"; js "amenities";
    js "tax"; js "property tax"; js "insurance"; js "regulation"; js "law"; js "forecast";
    js "prediction"; js "future"; js "growth"; js "बाजार"; js "कीमत"; js "मूल्य";
    js "वर्तमान"; js "नवीनतम"; js "हालिया"; js "आंकड़े"; js "डेटा"; js "रिपोर्ट";
    js "समाचार"; js "विकास"; js "निवेश"; js "रिटर्न"; js "मूल्यवृद्धि"; js "मूल्यह्रास";
    js "बंधक"; js "ब्याज दर"; js "ऋण"; js "वित्तपोषण"; js "पड़ोस"; js "स्कूल";
    js "अपराध"; js "सुरक्षा"; js "सुविधाएं"; js "कर"; js "संपत्ति कर"; js "बीमा";
    js "नियमन"; js "कानून"; js "पूर्वानुमान"; js "भविष्यवाणी"; js "भविष्य"; js "विकास";
    js "बाजारपेठ"; js "किंमत"; js "ट्रेंड"; js "सध्याचे"; js "नवीनतम"; js "अलीकडील";
    js "आकडेवारी"; js "डेटा"; js "अहवाल"; js "बातम्या"; js "विकास"; js "गुंतवणूक";
    js "परतावा"; js "मूल्यवाढ"; js "मूल्यघट"; js "गहाण"; js "व्याजदर"; js "कर्ज";
    js "वित्तपुरवठा"; js "परिसर"; js "शाळा"; js "गुन्हेगारी"; js "सुरक्षा"; js "सुविधा";
    js "कर"; js "मालमत्ता कर"; js "विमा"; js "नियमन"; js "कायदा"; js "भाकीत";
    js "अंदाज"; js "भविष्य"; js "वाढ"; js "બજાર"; js "કિંમત"; js "વલણ";
    js "વર્તમાન"; js "નવીનતમ"; js "તાજેતરની"; js "આંકડા"; js "ડેટા"; js "અહેવાલ";
    js "સમાચાર"; js "વિકાસ"; js "રોકાણ"; js "વળતર"; js "મૂલ્ય વૃદ્ધિ"; js "મૂલ્ય ઘટાડો";
    js "ગીરો"; js "વ્યાજ દર"; js "લોન"; js "ફાઇનાન્સિંગ"; js "પડોશ"; js "શાળા";
    js "ગુના"; js "સલામતી"; js "સુવિધાઓ"; js "કર"; js "મિલકત કર"; js "વીમો";
    js "નિયમન"; js "કાયદો"; js "આગાહી"; js "અનુમાન"; js "ભવિષ્ય"; js "વૃદ્ધિ" ].

Definition needsWebSearch (query : jstring) : bool :=
  existsb (fun keyword =>
             includes (toLowerCase query) (toLowerCase keyword))
          webSearchKeywords.

End WebSearchService.


(* ================================================================== *)
(** * mistralService.js *)
(* ================================================================== *)

Module MistralService.

Local Open Scope string_scope.
Local Open Scope list_scope.

(** ** Conversation history *)

Inductive role : Type := User | Assistant.

Record turn : Type := {
  t_role : role;
  content : jstring
}.

(** A stored message of the lead record. *)
Record storedMessage : Type := {
  sender : jstring;
  message : jstring
}.

(** [messageHistory.slice(-10)]. *)
Definition lastTen {X : Type} (l : list X) : list X :=
  skipn (List.length l - 10) l.

Definition formatMessageHistory (messageHistory : list storedMessage)
  : list turn :=
  map (fun msg =>
         {| t_role := if str_eqb (sender msg) (js "user") then User
                      else Assistant;
            content := message msg |})
      (lastTen messageHistory).

Record providedInfo : Type := {
  p_name : option jstring;
  p_budget : option jstring;
  p_propertyType : option jstring;
  p_preferredLocation : option jstring
}.

Record extractedInfo : Type := {
  askedAboutName : bool;
  askedAboutBudget : bool;
  askedAboutLocation : bool;
  askedAboutPropertyType : bool;
  provided : providedInfo
}.

Definition nameQuestionPatterns : list RegExp :=
  [ re "what(?:'s| is) your name" "i";
    re "may I know your name" "i";
    re "could you tell me your name" "i";
    re "who am I speaking with" "i";
    re "आपका नाम क्या है" "i";
    re "आपका नाम बताएं" "i";
    re "तुमचे नाव काय आहे" "i";
    re "તમારું નામ શું છે" "i" ].

Definition budgetQuestionPatterns : list RegExp :=
  [ re "what(?:'s| is) your budget" "i";
    re "budget.*range" "i";
    re "how much.*spend" "i";
    re "price range" "i";
    re "आपका बजट क्या है" "i";
    re "कितना खर्च कर सकते हैं" "i";
    re "तुमचे बजेट किती आहे" "i";
    re "તમારું બજેટ શું છે" "i" ].

Definition locationQuestionPatterns : list RegExp :=
  [ re "preferred location" "i";
    re "which area" "i";
    re "where.*looking" "i";
    re "location preference" "i";
    re "कौन सा इलाका" "i";
    re "कहां पर चाहते हैं" "i";
    re "कोणत्या भागात" "i";
    re "ક્યાં શોધી રહ્યા છો" "i" ].

Definition propertyTypeQuestionPatterns : list RegExp :=
  [ re "what type of property" "i";
    re "looking for a (house|apartment|flat|condo)" "i";
    re "property type" "i";
    re "किस प्रकार की संपत्ति" "i";
    re "कौन सा प्रॉपर्टी टाइप" "i";
    re "कोणत्या प्रकारची मालमत्ता" "i";
    re "કયા પ્રકારની સંપત્તિ" "i" ].

Definition nameResponsePatterns : list RegExp :=
  [ re "my name is ([\w\s]+)" "i";
    re "I am ([\w\s]+)" "i";
    re "I'm ([\w\s]+)" "i";
    re "मेरा नाम ([\w\s]+) है" "i";
    re "माझे नाव ([\w\s]+) आहे" "i";
    re "મારું નામ ([\w\s]+) છે" "i" ].

Definition budgetResponsePatterns : list RegExp :=
  [ re "budget is ([\d,]+)" "i";
    re "looking.*around ([\d,]+)" "i";
    re "([\d,]+).*budget" "i";
    re "मेरा बजट ([\d,]+)" "i";
    re "माझे बजेट ([\d,]+)" "i";
    re "મારું બજેટ ([\d,]+)" "i" ].

Definition historyPropertyTypes : list jstring :=
  [ js "apartment"; js "house"; js "condo"; js "villa"; js "flat"; js "studio"; js "penthouse"; js "duplex" ].

Definition locationResponsePattern : RegExp :=
  re "(?:location|area|place|interested in) ([a-z\s,]+)" "i".

(** [patterns.forEach(pattern => { if (pattern.test(text)) flag = true })],
    starting from the current value of the flag. *)
Definition markAsked (patterns : list RegExp) (text : jstring) (flag : bool)
  : bool :=
  fold_left (fun f pattern => if test pattern text then true else f)
            patterns flag.

(** [patterns.forEach(pattern => { const match = text.match(pattern);
    if (match && match[1]) slot = match[1].trim() })]. *)
Definition lastCapture (patterns : list RegExp) (text : jstring)
    (slot : option jstring) : option jstring :=
  fold_left (fun v pattern =>
               match match_group pattern 1 text with
               | Some m1 => Some (trim m1)
               | None => v
               end)
            patterns slot.

Definition lastIncluded (types : list jstring) (text : jstring)
    (slot : option jstring) : option jstring :=
  fold_left (fun v type => if includes text type then Some type else v)
            types slot.

(** One step of the [forEach] over the turns. *)
Definition scanTurn (info : extractedInfo) (msg : turn) : extractedInfo :=
  match t_role msg with
  | Assistant =>
      {| askedAboutName :=
           markAsked nameQuestionPatterns (content msg) (askedAboutName info);
         askedAboutBudget :=
           markAsked budgetQuestionPatterns (content msg)
                     (askedAboutBudget info);
         askedAboutLocation :=
           markAsked locationQuestionPatterns (content msg)
                     (askedAboutLocation info);
         askedAboutPropertyType :=
           markAsked propertyTypeQuestionPatterns (content msg)
                     (askedAboutPropertyType info);
         provided := provided info |}
  | User =>
      let p := provided info in
      {| askedAboutName := askedAboutName info;
         askedAboutBudget := askedAboutBudget info;
         askedAboutLocation := askedAboutLocation info;
         askedAboutPropertyType := askedAboutPropertyType info;
         provided :=
           {| p_name := lastCapture nameResponsePatterns (content msg)
                                    (p_name p);
              p_budget := lastCapture budgetResponsePatterns (content msg)
                                      (p_budget p);
              p_propertyType :=
                lastIncluded historyPropertyTypes
                             (toLowerCase (content msg)) (p_propertyType p);
              p_preferredLocation :=
                match match_group locationResponsePattern 1 (content msg) with
                | Some m1 => Some (trim m1)
                | None => p_preferredLocation p
                end |} |}
  end.

Definition initialInfo : extractedInfo :=
  {| askedAboutName := false;
     askedAboutBudget := false;
     askedAboutLocation := false;
     askedAboutPropertyType := false;
     provided := {| p_name := None; p_budget := None;
                    p_propertyType := None; p_preferredLocation := None |} |}.

Definition extractInfoFromHistory (formattedHistory : list turn)
  : extractedInfo :=
  fold_left scanTurn formattedHistory initialInfo.

(** ** Closing messages *)

Definition shortEndingPhrases : list jstring :=
  [ js "thanks"; js "thank you"; js "ok"; js "okay"; js "bye"; js "goodbye"; js "got it";
    js "धन्यवाद"; js "शुक्रिया"; js "ठीक है"; js "अच्छा"; js "बाय"; js "धन्यवाद"; js "आभार";
    js "ठीक आहे"; js "बरं"; js "આભાર"; js "ધન્યવાદ"; js "ઠીક છે"; js "સારું" ].

Definition endingPhrases : list RegExp :=
  [ re "thank you|thanks|thank u" "i";
    re "goodbye|bye|see you|farewell" "i";
    re "that's all|that is all|no more|finished" "i";
    re "no more questions" "i";
    re "got it|understood|i understand" "i";
    re "ok|okay|fine|great" "i";
    re "that's helpful|that helps|clear now" "i";
    re "appreciate|appreciate it|appreciate your" "i";
    re "धन्यवाद|शुक्रिया|थैंक्स|आभार" "i";
    re "अलविदा|बाय|गुड बाय|फिर मिलेंगे" "i";
    re "बस इतना ही|यही सब है|हो गया" "i";
    re "कोई और सवाल नहीं|और कुछ नहीं" "i";
    re "समझ गया|ठीक है|समझ में आया" "i";
    re "ओके|अच्छा|ठीक|बहुत अच्छा" "i";
    re "मदद मिली|स्पष्ट है|समझ में आ गया" "i";
    re "धन्यवाद|आभार|थँक्यू" "i";
    re "निरोप|बाय|पुन्हा भेटू" "i";
    re "बस एवढेच|इतकेच|झाले" "i";
    re "आणखी प्रश्न नाहीत" "i";
    re "समजले|बरोबर|ठीक आहे" "i";
    re "ओके|छान|बरं" "i";
    re "मदत झाली|स्पष्ट आहे" "i";
    re "આભાર|ધન્યવાદ|થેંક્યુ" "i";
    re "આવજો|બાય|ફરી મળીશું" "i";
    re "બસ આટલું જ|પૂરું થયું" "i";
    re "વધુ પ્રશ્નો નથી" "i";
    re "સમજાયું|બરાબર|ઠીક છે" "i";
    re "ઓકે|સારું|ઠીક" "i";
    re "મદદ મળી|સ્પષ્ટ છે" "i";
    re "ধন্যবাদ|আপনাকে ধন্যবাদ" "i";
    re "বিদায়|ফিরে দেখা হবে" "i";
    re "এটাই সব|শেষ" "i";
    re "আর কোন প্রশ্ন নেই" "i";
    re "বুঝেছি|ঠিক আছে" "i";
    re "ওকে|ভালো" "i";
    re "সাহায্য পেয়েছি|পরিষ্কার" "i" ].

Definition isConversationEnding (message : jstring) : bool :=
  if negb (truthy message) then false
  else
    let normalizedMessage := toLowerCase (trim message) in
    if Nat.leb (List.length (split (re "\s+" "") normalizedMessage)) 2
       && existsb (fun phrase => str_eqb normalizedMessage phrase
                                 || includes normalizedMessage phrase)
                  shortEndingPhrases
    then true
    else
      let isEnding :=
        existsb (fun phrase => test phrase normalizedMessage) endingPhrases in
      let isShortNonQuestion :=
        Nat.ltb (List.length normalizedMessage) 15
        && negb (includes normalizedMessage (js "?")) in
      isEnding || isShortNonQuestion.

(** ** Response post-processing ([appendSearchResults]) *)

Definition questionPatterns : list RegExp :=
  [ re "would you like (to|me to) [^.?!]+\??" "gi";
    re "do you want (to|me to) [^.?!]+\??" "gi";
    re "can I help you [^.?!]+\??" "gi";
    re "are you interested in [^.?!]+\??" "gi";
    re "shall we [^.?!]+\??" "gi";
    re "how about [^.?!]+\??" "gi";
    re "what (else|other|more) [^.?!]+\??" "gi";
    re "is there anything else [^.?!]+\??" "gi";
    re "क्या आप .+ बताना चाहेंगे\??" "g";
    re "आप .+ के बारे में क्या सोचते हैं\??" "g";
    re "क्या आपको .+ चाहिए\??" "g";
    re "क्या मैं आपकी और सहायता कर सकता हूँ\??" "g";
    re "क्या आप .+ जानना चाहते हैं\??" "g";
    re "क्या आपके पास .+ है\??" "g";
    re "मैं आपकी कैसे सहायता कर सकता हूँ\??" "g";
    re "आपको और क्या जानकारी चाहिए\??" "g";
    re "क्या आप .+ खोज रहे हैं\??" "g";
    re "क्या आप .+ पसंद करेंगे\??" "g";
    re "तुम्हाला .+ आवडेल का\??" "g";
    re "मी तुम्हाला .+ मदत करू शकतो का\??" "g";
    re "तुम्हाला .+ हवे आहे का\??" "g";
    re "શું તમે .+ કરવા માંગો છો\??" "g";
    re "હું તમને .+ મદદ કરી શકું\??" "g";
    re "તમને .+ જોઈએ છે\??" "g" ].

Definition cleanText (s : jstring) : jstring :=
  trim (replace (re "\s+" "g") (js " ") s).

(** One entry of the digest; [label] is the text of the source link. *)
Definition summaryEntry (label : jstring) (i : nat) (r : result) : jstring :=
  let cleanTitle := cleanText (r_title r) in
  let cleanSnippet := cleanText (r_snippet r) in
  (nl ++ js "**" ++ of_nat (i + 1) ++ js ". " ++ cleanTitle ++ js "**" ++ nl
      ++ cleanSnippet ++ nl)
  ++ (js "[" ++ label ++ js "](" ++ r_link r ++ js ")" ++ nl).

Fixpoint summaryEntries (label : jstring) (i : nat) (rs : list result)
  : jstring :=
  match rs with
  | [] => []
  | r :: rest => summaryEntry label i r ++ summaryEntries label (S i) rest
  end.

Definition summaryOf (searchResults : list result) : jstring :=
  let summary :=
    nl ++ nl ++ js "### 📊 Latest Real Estate Information ###" ++ nl in
  if Nat.leb 3 (List.length searchResults) then
    summary ++ summaryEntries (js "View Source") 0 (firstn 3 searchResults)
  else
    summary ++ summaryEntries (js "स्रोत देखें") 0 searchResults.

(** [questionPatterns.forEach(pattern => { cleanedResponse =
    cleanedResponse.replace(pattern, '') })]. *)
Definition removeQuestionPatterns (s : jstring) : jstring :=
  fold_left (fun acc pattern => replace pattern [] acc) questionPatterns s.

Definition closingLine : jstring :=
  nl ++ nl ++ js "I am pleased to assist you. If you have any other questions in the future, please feel free to ask.".

Definition cleanResponse (aiResponse userMessage : jstring) : jstring :=
  let isEndingConversation := isConversationEnding userMessage in
  let cleanedResponse := aiResponse in
  let cleanedResponse :=
    replace (re "\s*([^.!?]\s*\?\s*)+$" "") (js ".") cleanedResponse in
  let cleanedResponse :=
    replace (re "([0-9]\.|•|\*|-)\s*([^\n.]+\?)\s*" "g") [] cleanedResponse in
  let cleanedResponse :=
    replace (re "\s+([A-Z][^.!?]+\?)\s+" "g") (js ". ") cleanedResponse in
  let cleanedResponse := removeQuestionPatterns cleanedResponse in
  let cleanedResponse := replace (re "\?" "g") (js ".") cleanedResponse in
  let cleanedResponse :=
    if isEndingConversation then
      let cleanedResponse := removeQuestionPatterns cleanedResponse in
      if negb (test (re "thank you|thanks|pleasure|happy to help|see you" "i")
                    cleanedResponse)
      then cleanedResponse ++ closingLine
      else cleanedResponse
    else cleanedResponse in
  let cleanedResponse := replace (re "\n{3,}" "g") (nl ++ nl) cleanedResponse in
  let cleanedResponse := replace (re "\s{2,}" "g") (js " ") cleanedResponse in
  let cleanedResponse := trim cleanedResponse in
  let cleanedResponse :=
    replace (re "\s*\.[^.]{1,20}\." "g") (js ".") cleanedResponse in
  cleanedResponse.

(** [searchResults] is [None] when the argument is [null] or not an array;
    an omitted argument defaults to the empty array. *)
Definition appendSearchResults (aiResponse : jstring)
    (searchResults : option (list result)) (userMessage : jstring)
  : jstring :=
  match searchResults with
  | None | Some [] => aiResponse
  | Some rs => cleanResponse aiResponse userMessage ++ summaryOf rs
  end.

(** ** The prompt: the user message ([enhanceUserMessage]) *)

(** The lead object the prompt builders read: the four texts of the lead
    record (the empty text when absent) and the members that
    [generateResponse] adds.  [l_oneQuestionAtATime] is [None] when the
    member is undefined. *)
Record leadContext : Type := {
  l_name : jstring;
  l_budget : jstring;
  l_preferredLocation : jstring;
  l_propertyType : jstring;
  l_searchResults : option (list result);
  l_currentMessage : jstring;
  l_oneQuestionAtATime : option bool;
  l_isEndingConversation : bool;
  l_conversationHistory : option extractedInfo
}.

(** Truth of an optional flag. *)
Definition flagged (flag : option bool) : bool :=
  match flag with
  | Some true => true
  | _ => false
  end.

(** [Object.keys(providedInfo).length > 0]. *)
Definition hasKeys (p : providedInfo) : bool :=
  match p_name p, p_budget p, p_propertyType p, p_preferredLocation p with
  | None, None, None, None => false
  | _, _, _, _ => true
  end.

(** [if (value) message += line(value)] for a possibly missing text. *)
Definition addWhen (value : option jstring) (line : jstring -> jstring)
    (message : jstring) : jstring :=
  match value with
  | Some (c :: v) => message ++ line (c :: v)
  | _ => message
  end.

Definition enhancements : list (RegExp * jstring) :=
  [ (re "price|budget|कीमत|मूल्य|cost|rate|रेट" "i",
     js "### Price Related Instructions ###" ++ nl ++ js "Provide accurate information based on real property valuation, budget analysis, current market trends, and price per square foot comparisons. Explain how location, amenities, and property age affect pricing.");
    (re "location|स्थान|area|neighborhood|इलाका|क्षेत्र" "i",
     js "### Location Related Instructions ###" ++ nl ++ js "Provide detailed information about location amenities, connectivity, surrounding development, quality of living, proximity to schools/hospitals/markets, future development plans, and property appreciation potential.");
    (re "invest|निवेश|roi|return|profit|लाभ" "i",
     js "### Investment Related Instructions ###" ++ nl ++ js "Provide comprehensive information about investment returns, risk analysis, future appreciation prospects, rental yield potential, tax benefits, and comparison with other investment options.");
    (re "loan|finance|ऋण|EMI|mortgage|बंधक" "i",
     js "### Finance Related Instructions ###" ++ nl ++ js "Provide accurate information about current home loan options, interest rates, EMI calculations, down payment requirements, processing fees, pre-payment options, and tax benefits on home loans.");
    (re "feature|amenity|सुविधा|facility|फैसिलिटी" "i",
     js "### Amenity Related Instructions ###" ++ nl ++ js "Provide detailed information about property features, amenities, construction quality, specifications, smart home features, security systems, and their impact on lifestyle and property value.");
    (re "legal|document|कानूनी|दस्तावेज़" "i",
     js "### Legal Documentation Instructions ###" ++ nl ++ js "Provide accurate information about required legal documents, verification processes, registration procedures, stamp duty, and other legal aspects of property transactions.");
    (re "rent|किराया|lease|पट्टा" "i",
     js "### Rental Property Instructions ###" ++ nl ++ js "Provide detailed information about rental yields, tenant profiles, lease terms, maintenance responsibilities, and rental market trends in the specified location.") ].

(** The [forEach] that lists the hits. *)
Fixpoint promptEntries (i : nat) (rs : list result) (message : jstring)
  : jstring :=
  match rs with
  | [] => message
  | res :: rest =>
      let cleanTitle := cleanText (r_title res) in
      let cleanSnippet := cleanText (r_snippet res) in
      let message := message ++ (nl ++ of_nat (i + 1) ++ js ". " ++ cleanTitle) in
      let message := message ++ (nl ++ js "   " ++ cleanSnippet) in
      let message := message ++ (nl ++ js "   Source: " ++ r_link res) in
      promptEntries (S i) rest message
  end.

Definition enhanceUserMessage (userMessage : jstring)
    (leadInfo : leadContext) : jstring :=
  let message := (userMessage ++ nl ++ nl ++ js "### Response Instructions ###" ++ nl ++ js "Respond as a professional real estate agent with expertise in the property market. Provide accurate, factual, and clear answers based on the search results and your knowledge. Maintain a consultative, helpful tone throughout.") in
  let message :=
    if flagged (l_oneQuestionAtATime leadInfo) then
      let message := message ++ (nl ++ nl ++ js "### Conversation Instructions ###"
      ++ nl ++ js "1. Ask only one question at a time to maintain a natural conversation flow."
      ++ nl ++ js "2. Do not provide a list of multiple questions at once."
      ++ nl ++ js "3. Do not ask again about information that already exists in the conversation history."
      ++ nl ++ js "4. Adapt your language to match the user's preferred language (Hindi, English, Gujarati, Marathi, or Hinglish).") in
      let message :=
        match l_conversationHistory leadInfo with
        | Some conversationHistory =>
            let message := message ++ (nl ++ nl ++ js "### Conversation History Information ###") in
            let message :=
              if askedAboutName conversationHistory
              then message ++ (nl ++ js "• You have already asked for the user's name. Do not ask for it again.")
              else message in
            let message :=
              if askedAboutBudget conversationHistory
              then message ++ (nl ++ js "• You have already asked about the user's budget. Do not ask about it again.")
              else message in
            let message :=
              if askedAboutLocation conversationHistory
              then message ++ (nl ++ js "• You have already asked about the user's preferred location. Do not ask about it again.")
              else message in
            let message :=
              if askedAboutPropertyType conversationHistory
              then message ++ (nl ++ js "• You have already asked about the property type. Do not ask about it again.")
              else message in
            let providedInfo := provided conversationHistory in
            if hasKeys providedInfo then
              let message := message ++ (nl ++ nl ++ js "### User-Provided Information ###") in
              let message :=
                addWhen (p_name providedInfo)
                        (fun name => (nl ++ js "• User has provided their name: " ++ name)) message in
              let message :=
                addWhen (p_budget providedInfo)
                        (fun budget => (nl ++ js "• User has provided their budget: ₹" ++ budget)) message in
              let message :=
                addWhen (p_preferredLocation providedInfo)
                        (fun preferredLocation => (nl ++ js "• User has provided their preferred location: " ++ preferredLocation))
                        message in
              let message :=
                addWhen (p_propertyType providedInfo)
                        (fun propertyType => (nl ++ js "• User has provided their preferred property type: " ++ propertyType))
                        message in
              message
            else message
        | None => message
        end in
      message ++ (nl ++ nl ++ js "### IMPORTANT: Question Control ###"
      ++ nl ++ js "• NEVER ask the same question twice in a conversation."
      ++ nl ++ js "• NEVER ask multiple questions at once."
      ++ nl ++ js "• NEVER ask for information that the user has already provided."
      ++ nl ++ js "• If you're unsure whether to ask a question, DO NOT ask it.")
    else message in
  let message :=
    fold_left (fun message e =>
                 if test (fst e) userMessage
                 then message ++ nl ++ nl ++ snd e
                 else message)
              enhancements message in
  let message := message ++ (nl ++ nl ++ js "### User Information ###") in
  let message :=
    addWhen (Some (l_name leadInfo)) (fun name => (nl ++ js "• Name: " ++ name)) message in
  let message :=
    addWhen (Some (l_budget leadInfo)) (fun budget => (nl ++ js "• Budget: ₹" ++ budget))
            message in
  let message :=
    addWhen (Some (l_preferredLocation leadInfo))
            (fun preferredLocation => (nl ++ js "• Preferred Location: " ++ preferredLocation)) message in
  let message :=
    addWhen (Some (l_propertyType leadInfo))
            (fun propertyType => (nl ++ js "• Property Type: " ++ propertyType)) message in
  let message :=
    match l_searchResults leadInfo with
    | Some (res :: rest) =>
        let message := message ++ (nl ++ nl ++ js "### Latest Real Estate Information ###"
      ++ nl ++ js "Answer using the following information. This information is factual and up-to-date:") in
        let message := promptEntries 0 (firstn 5 (res :: rest)) message in
        message ++ (nl ++ nl ++ js "Answer using the above information. If the information is insufficient, clearly state that you do not have complete information.")
    | _ => message
    end in
  message ++ (nl ++ nl ++ js "### Final Instructions ###" ++ nl ++ js "Provide a direct and clear answer to the user's question. Avoid unnecessary information.").

(** ** The prompt: the system message ([createSystemMessage]) *)

(** A message of the chat request. *)
Record chatMessage : Type := {
  cm_role : jstring;
  cm_content : jstring
}.

(** [detectedLangCode === 'hi' || detectedLangCode === 'mr' ||
    detectedLangCode === 'gu']. *)
Definition hindiHeadings (detectedLangCode : string) : bool :=
  String.eqb detectedLangCode "hi" || String.eqb detectedLangCode "mr"
  || String.eqb detectedLangCode "gu".

Definition agentInstructions : jstring :=
  (nl ++ nl ++ js "### Professional Real Estate Agent Persona ###"
      ++ nl ++ js "You are an experienced, professional real estate agent with deep knowledge of the property market. You simulate a real agent with:"
      ++ nl ++ js "- Extensive expertise in buying, selling, and renting properties across diverse markets"
      ++ nl ++ js "- Deep understanding of property valuation, market trends, and investment opportunities"
      ++ nl ++ js "- Ability to handle multi-intent conversations and adapt to changing client needs"
      ++ nl ++ js "- Strong consultative approach that prioritizes understanding client requirements"
      ++ nl ++ js "- Expertise in property financing, legal processes, and documentation requirements"
      ++ nl ++ js "- Skill in providing personalized recommendations based on client preferences"
      ++ nl ++ js "- Professional yet warm communication style that builds trust and rapport"
      ++ nl ++ nl ++ js "### Multilingual Capabilities ###"
      ++ nl ++ js "You can communicate fluently in multiple languages including:"
      ++ nl ++ js "- Hindi"
      ++ nl ++ js "- English"
      ++ nl ++ js "- Gujarati"
      ++ nl ++ js "- Marathi"
      ++ nl ++ js "- Hinglish (Hindi-English mixed)"
      ++ nl ++ js "You can detect the user's preferred language and respond accordingly with real-time language switching."
      ++ nl ++ nl ++ js "### Conversational Flow Instructions ###"
      ++ nl ++ js "1. Follow a structured approach to gather user information:"
      ++ nl ++ js "   - Name"
      ++ nl ++ js "   - Location preferences"
      ++ nl ++ js "   - Budget constraints"
      ++ nl ++ js "   - Buy/Rent preference"
      ++ nl ++ js "   - Property type requirements"
      ++ nl ++ js "   - Number of bedrooms needed"
      ++ nl ++ js "2. Maintain a step-by-step flow with memory of user responses to avoid repetitive questions."
      ++ nl ++ js "3. Apply intelligent branching based on user answers:"
      ++ nl ++ js "   - If budget is too low for desired location, explain options and suggest alternatives"
      ++ nl ++ js "   - If property type is unavailable in preferred location, suggest similar areas"
      ++ nl ++ js "   - If user requirements are unclear, ask clarifying questions before proceeding"
      ++ nl ++ js "4. Maintain a human-like, conversational tone that simulates a real estate agent."
      ++ nl ++ js "5. Ask only one question at a time to keep the conversation focused and natural."
      ++ nl ++ js "6. Adapt your language context based on user responses and detected language."
      ++ nl ++ nl ++ js "### Property Recommendation Instructions ###"
      ++ nl ++ js "1. Query user filters (location, price, type, etc.) to provide relevant property recommendations."
      ++ nl ++ js "2. Use the provided search results from MongoDB or Google Custom Search API to recommend properties."
      ++ nl ++ js "3. Present property listings with complete details including:"
      ++ nl ++ js "   - Property title and description"
      ++ nl ++ js "   - Location details and neighborhood information"
      ++ nl ++ js "   - Price and payment options"
      ++ nl ++ js "   - Property features and amenities"
      ++ nl ++ js "   - Available images (reference links when available)"
      ++ nl ++ js "4. Offer persuasive upsell suggestions when appropriate (e.g., slightly higher budget for better options)."
      ++ nl ++ js "5. Provide alternative suggestions when exact matches arent available."
      ++ nl ++ js "6. Format information in a clear, structured way that highlights property benefits."
      ++ nl ++ nl ++ js "### Lead Capture Instructions ###"
      ++ nl ++ js "1. Collect and store user information including:"
      ++ nl ++ js "   - Name (required)"
      ++ nl ++ js "   - Phone number (important for follow-up)"
      ++ nl ++ js "   - Email address (alternative contact method)"
      ++ nl ++ js "   - Property preferences (location, type, budget, etc.)"
      ++ nl ++ js "2. Ask for explicit permission to follow up with additional property options."
      ++ nl ++ js "3. Ensure all interactions comply with data protection regulations (GDPR-compliant)."
      ++ nl ++ js "4. Act as a lead generation and qualification assistant to help convert inquiries.").

(** The [forEach] that lists the hits; a snippet is cut to its first 200
    code units. *)
Fixpoint contextEntries (i : nat) (rs : list result) (context : jstring)
  : jstring :=
  match rs with
  | [] => context
  | r :: rest =>
      let cleanTitle := cleanText (r_title r) in
      let cleanSnippet := cleanText (r_snippet r) in
      let context := context ++ (nl ++ of_nat (i + 1) ++ js ". " ++ cleanTitle) in
      let context := context ++ (nl ++ js "   " ++ firstn 200 cleanSnippet ++ js "...") in
      let context := context ++ (nl ++ js "   Source: " ++ r_link r) in
      contextEntries (S i) rest context
  end.

(** The chain that picks the instruction of the turn, in its two
    renderings.  [name], [propertyType], [budget] and [preferredLocation]
    are the texts of the lead, [historyInfo] the flags of the
    conversation. *)
Definition currentInstructionsHindi (isEnding hasAllBasicInfo : bool)
    (leadInfo : leadContext) (historyInfo : extractedInfo) : jstring :=
  if isEnding then
    (nl ++ js "उपयोगकर्ता संवाद समाप्त करना चाहता है। केवल उनके संदेश का उत्तर दें और कोई अतिरिक्त प्रश्न न पूछें।")
  else if hasAllBasicInfo then
    (nl ++ js "उपयोगकर्ता के सभी बुनियादी विवरण पहले से ही एकत्र किए गए हैं। अब उनकी वर्तमान प्रश्न का सटीक उत्तर दें।"
      ++ nl ++ js "कोई अतिरिक्त प्रश्न न पूछें जो पहले पूछे जा चुके हैं। केवल उनके वर्तमान प्रश्न का उत्तर दें।")
  else if negb (truthy (l_name leadInfo))
          && negb (askedAboutName historyInfo) then
    (nl ++ js "सबसे पहले, उपयोगकर्ता का नाम पूछें। अन्य विवरण अभी न पूछें।")
  else if negb (truthy (l_propertyType leadInfo))
          && negb (askedAboutPropertyType historyInfo)
          && (truthy (l_name leadInfo) || askedAboutName historyInfo) then
    (nl ++ js "अब केवल संपत्ति के प्रकार के बारे में पूछें (जैसे अपार्टमेंट, मकान, विला, आदि)। अन्य विवरण अभी न पूछें।")
  else if negb (truthy (l_budget leadInfo))
          && negb (askedAboutBudget historyInfo)
          && (truthy (l_propertyType leadInfo)
              || askedAboutPropertyType historyInfo) then
    (nl ++ js "अब केवल उनके बजट के बारे में पूछें। अन्य विवरण अभी न पूछें।")
  else if negb (truthy (l_preferredLocation leadInfo))
          && negb (askedAboutLocation historyInfo)
          && (truthy (l_budget leadInfo) || askedAboutBudget historyInfo) then
    (nl ++ js "अब केवल उनके पसंदीदा स्थान के बारे में पूछें। अन्य विवरण अभी न पूछें।")
  else
    (nl ++ js "उपयोगकर्ता के वर्तमान प्रश्न का उत्तर दें। पहले पूछे गए प्रश्नों को दोहराएं नहीं।").

Definition currentInstructionsEnglish (isEnding hasAllBasicInfo : bool)
    (leadInfo : leadContext) (historyInfo : extractedInfo) : jstring :=
  if isEnding then
    (nl ++ js "The user is ending the conversation. Only respond to their message and do not ask additional questions.")
  else if hasAllBasicInfo then
    (nl ++ js "All basic user details have already been collected. Now provide an accurate answer to their current question."
      ++ nl ++ js "Do not ask any additional questions that have already been asked. Only respond to their current query.")
  else if negb (truthy (l_name leadInfo))
          && negb (askedAboutName historyInfo) then
    (nl ++ js "First, ask for the user's name. Do not ask for other details yet.")
  else if negb (truthy (l_propertyType leadInfo))
          && negb (askedAboutPropertyType historyInfo)
          && (truthy (l_name leadInfo) || askedAboutName historyInfo) then
    (nl ++ js "Now only ask about the property type (such as apartment, house, villa, etc.). Do not ask for other details yet.")
  else if negb (truthy (l_budget leadInfo))
          && negb (askedAboutBudget historyInfo)
          && (truthy (l_propertyType leadInfo)
              || askedAboutPropertyType historyInfo) then
    (nl ++ js "Now only ask about their budget. Do not ask for other details yet.")
  else if negb (truthy (l_preferredLocation leadInfo))
          && negb (askedAboutLocation historyInfo)
          && (truthy (l_budget leadInfo) || askedAboutBudget historyInfo) then
    (nl ++ js "Now only ask about their preferred location. Do not ask for other details yet.")
  else
    (nl ++ js "Respond to the user's current question. Do not repeat questions that have already been asked.").

(** [leadInfo.isEndingConversation || (leadInfo.currentMessage &&
    this.isConversationEnding(leadInfo.currentMessage))]. *)
Definition endingNow (leadInfo : leadContext) : bool :=
  l_isEndingConversation leadInfo
  || (truthy (l_currentMessage leadInfo)
      && isConversationEnding (l_currentMessage leadInfo)).

(** [leadInfo.name && leadInfo.propertyType && leadInfo.budget &&
    leadInfo.preferredLocation]. *)
Definition allBasicInfo (leadInfo : leadContext) : bool :=
  truthy (l_name leadInfo) && truthy (l_propertyType leadInfo)
  && truthy (l_budget leadInfo) && truthy (l_preferredLocation leadInfo).

(** The text of the system message. *)
Definition systemContext (leadInfo : leadContext) : jstring :=
  let detectedLangCode :=
    if truthy (l_currentMessage leadInfo)
    then LanguageService.detectLanguage (VString (l_currentMessage leadInfo))
    else "en" in
  let context :=
    LanguageService.createSystemMessageForLanguage detectedLangCode in
  let context := context ++ agentInstructions in
  let context :=
    if hindiHeadings detectedLangCode then
      let context := context ++ (nl ++ nl ++ js "### उपयोगकर्ता की जानकारी ###") in
      let context :=
        addWhen (Some (l_name leadInfo)) (fun name => (nl ++ js "ग्राहक का नाम: " ++ name))
                context in
      let context :=
        addWhen (Some (l_budget leadInfo)) (fun budget => (nl ++ js "बजट: ₹" ++ budget))
                context in
      let context :=
        addWhen (Some (l_preferredLocation leadInfo))
                (fun preferredLocation => (nl ++ js "पसंदीदा स्थान: " ++ preferredLocation))
                context in
      addWhen (Some (l_propertyType leadInfo))
              (fun propertyType => (nl ++ js "संपत्ति प्रकार: " ++ propertyType)) context
    else
      let context := context ++ (nl ++ nl ++ js "### User Information ###") in
      let context :=
        addWhen (Some (l_name leadInfo)) (fun name => (nl ++ js "Client Name: " ++ name))
                context in
      let context :=
        addWhen (Some (l_budget leadInfo)) (fun budget => (nl ++ js "Budget: ₹" ++ budget))
                context in
      let context :=
        addWhen (Some (l_preferredLocation leadInfo))
                (fun preferredLocation => (nl ++ js "Preferred Location: " ++ preferredLocation))
                context in
      addWhen (Some (l_propertyType leadInfo))
              (fun propertyType => (nl ++ js "Property Type: " ++ propertyType)) context in
  let context :=
    match l_searchResults leadInfo with
    | Some (r :: rest) =>
        let context :=
          if hindiHeadings detectedLangCode
          then context ++ (nl ++ nl ++ js "### ताज़ा रियल एस्टेट जानकारी ###")
          else context ++ (nl ++ nl ++ js "### Latest Real Estate Information ###") in
        let context := contextEntries 0 (firstn 5 (r :: rest)) context in
        context ++ (nl ++ nl ++ js "Use the above information to provide accurate and relevant property recommendations.")
    | _ => context
    end in
  let context :=
    if flagged (l_oneQuestionAtATime leadInfo) then
      let hasAllBasicInfo := allBasicInfo leadInfo in
      let isEnding := endingNow leadInfo in
      (* the default object has the four flags, all false *)
      let historyInfo :=
        match l_conversationHistory leadInfo with
        | Some conversationHistory => conversationHistory
        | None => initialInfo
        end in
      let context :=
        if hindiHeadings detectedLangCode then
          context ++ (nl ++ nl ++ js "### वर्तमान संवाद निर्देश ###")
                  ++ currentInstructionsHindi isEnding hasAllBasicInfo
                                              leadInfo historyInfo
        else
          context ++ (nl ++ nl ++ js "### Current Conversation Instructions ###")
                  ++ currentInstructionsEnglish isEnding hasAllBasicInfo
                                                leadInfo historyInfo in
      context ++ (nl ++ nl ++ js "### IMPORTANT: Question Control ###"
      ++ nl ++ js "NEVER ask the same question twice in a conversation."
      ++ nl ++ js "NEVER ask multiple questions at once."
      ++ nl ++ js "NEVER ask for information that the user has already provided."
      ++ nl ++ js "If you're unsure whether to ask a question, DO NOT ask it.")
    else context in
  let context := context ++ (nl ++ nl ++ js "### Fallback & Escalation Instructions ###"
      ++ nl ++ js "1. Use NLP fallback when intent is unclear to maintain conversation flow."
      ++ nl ++ js "2. When no property data is available in MongoDB, use Google Search fallback to fetch relevant listings."
      ++ nl ++ js "3. Filter search results to focus on known real estate portals (e.g., 99acres, MagicBricks)."
      ++ nl ++ js "4. If the user requests to speak with a human agent, acknowledge the request and inform them that a human agent will contact them soon."
      ++ nl ++ js "5. Provide clear escalation paths for complex queries beyond the chatbots capabilities.") in
  let context :=
    if hindiHeadings detectedLangCode then
      context ++ (nl ++ nl ++ js "### अंतिम निर्देश ###"
      ++ nl ++ js "हमेशा सटीक, स्पष्ट और उपयोगी उत्तर दें। कभी भी बेतुकी या अप्रासंगिक जानकारी न दें।"
      ++ nl ++ js "उपयोगकर्ता के प्रश्न का सीधा उत्तर दें और अनावश्यक जानकारी से बचें।")
    else
      context ++ (nl ++ nl ++ js "### Final Instructions ###"
      ++ nl ++ js "Always provide accurate, clear, and helpful responses. Never provide nonsensical or irrelevant information."
      ++ nl ++ js "Answer the user's question directly and avoid unnecessary information."
      ++ nl ++ js "Maintain a professional, knowledgeable, and helpful tone throughout the conversation.") in
  context.

Definition createSystemMessage (leadInfo : leadContext) : chatMessage :=
  let context := systemContext leadInfo in
  {| cm_role := js "system"; cm_content := context |}.

(** ** The conversation turn ([generateResponse]) *)

(** The service object: the key read from the environment. *)
Record mistralService : Type := {
  apiKey : option jstring
}.

Definition newMistralService (env : environment) : mistralService :=
  {| apiKey := MISTRAL_API_KEY env |}.

Definition chatURL : jstring := js "https://api.mistral.ai/v1/chat/completions".

(** The request to the chat API: [axios.post(url, body, { headers,
    timeout })].  [settings] are the numeric members of the body, as
    written. *)
Record chatRequest : Type := {
  chat_url : jstring;
  model : jstring;
  messages : list chatMessage;
  settings : list (string * string);
  authorization : jstring;
  contentType : jstring;
  chat_timeout : N
}.

(** What the request comes to: the promise is rejected, or it resolves and
    [response?.data?.choices?.[0]?.message?.content] is a text, the empty
    one standing for a missing link of the chain. *)
Inductive chatReply : Type :=
| ChatRejected
| ChatContent (aiContent : jstring).

(** How the call ends: the promise is rejected with an error, or it
    resolves to a text. *)
Inductive outcome : Type :=
| Thrown (error : jstring)
| Returned (text : jstring).

Record run : Type := {
  searches : list WebSearchService.searchRequest;
  chats : list chatRequest;
  result_of : outcome
}.

(** A turn of the history as a message of the request. *)
Definition chatTurn (msg : turn) : chatMessage :=
  {| cm_role := match t_role msg with
                | User => js "user"
                | Assistant => js "assistant"
                end;
     cm_content := content msg |}.

(** [if (fromHistory && !known) known = fromHistory]. *)
Definition merged (fromHistory : option jstring) (known : jstring) : jstring :=
  match fromHistory with
  | Some (c :: v) => if negb (truthy known) then c :: v else known
  | _ => known
  end.

(** The lead object after the search and the scan of the history. *)
Definition enhancedLeadInfo (leadInfo : leadContext)
    (searchResults : list result) (cleanedUserMessage : jstring)
    (historyInfo : extractedInfo) : leadContext :=
  {| l_name := merged (p_name (provided historyInfo)) (l_name leadInfo);
     l_budget := merged (p_budget (provided historyInfo)) (l_budget leadInfo);
     l_preferredLocation :=
       merged (p_preferredLocation (provided historyInfo))
              (l_preferredLocation leadInfo);
     l_propertyType :=
       merged (p_propertyType (provided historyInfo))
              (l_propertyType leadInfo);
     l_searchResults := Some searchResults;
     l_currentMessage := cleanedUserMessage;
     l_oneQuestionAtATime :=
       match l_oneQuestionAtATime leadInfo with
       | None => Some true
       | Some flag => Some flag
       end;
     l_isEndingConversation :=
       if isConversationEnding cleanedUserMessage then true
       else l_isEndingConversation leadInfo;
     l_conversationHistory := Some historyInfo |}.

Definition chatSettings : list (string * string) :=
  [ ("temperature", "0.3"); ("max_tokens", "1200"); ("top_p", "0.92");
    ("presence_penalty", "0.1"); ("frequency_penalty", "0.2") ].

(** The members [searchResults], [currentMessage] and
    [conversationHistory] of the caller's lead object are overwritten
    before they are read.  The language of the message is detected first,
    for the log only. *)
Definition generateResponse (this : mistralService)
    (webSearchService : WebSearchService.webSearchService)
    (axiosGet : WebSearchService.searchRequest -> WebSearchService.searchReply)
    (axiosPost : chatRequest -> chatReply)
    (userMessage : jsval) (leadInfo : leadContext)
    (messageHistory : list storedMessage) : run :=
  if negb (present (apiKey this)) then
    {| searches := []; chats := [];
       result_of := Thrown (js "Mistral API key not set") |}
  else
    match userMessage with
    | VString (c :: rest) =>
        let cleanedUserMessage := trim (c :: rest) in
        if Nat.eqb (List.length cleanedUserMessage) 0 then
          {| searches := []; chats := [];
             result_of :=
               Returned (js "Please provide your question in detail so I can assist you better.") |}
        else
          let (sent, searchResults) :=
            WebSearchService.searchRealEstateInfo
              webSearchService axiosGet cleanedUserMessage [] in
          let formattedHistory := formatMessageHistory messageHistory in
          let historyInfo := extractInfoFromHistory formattedHistory in
          let enhancedLeadInfo :=
            enhancedLeadInfo leadInfo searchResults cleanedUserMessage
                             historyInfo in
          let systemMessage := createSystemMessage enhancedLeadInfo in
          let enhancedUserMessage :=
            enhanceUserMessage cleanedUserMessage enhancedLeadInfo in
          let formattedHistory :=
            map chatTurn formattedHistory
            ++ [ {| cm_role := js "user";
                    cm_content := enhancedUserMessage |} ] in
          let request :=
            {| chat_url := chatURL;
               model := js "mistral-medium";
               messages := systemMessage :: formattedHistory;
               settings := chatSettings;
               authorization := js "Bearer " ++ or_else (apiKey this) [];
               contentType := js "application/json";
               chat_timeout := 25000%N |} in
          match axiosPost request with
          | ChatRejected =>
              {| searches := sent; chats := [request];
                 result_of :=
                   Returned (js "AI response is temporarily unavailable. Please try again later.") |}
          | ChatContent content =>
              let aiContent :=
                or_else (Some content) (js "AI response unavailable.") in
              let finalResponse :=
                appendSearchResults aiContent (Some searchResults)
                                    cleanedUserMessage in
              {| searches := sent; chats := [request];
                 result_of := Returned finalResponse |}
          end
    | _ =>
        {| searches := []; chats := [];
           result_of := Returned (js "Please ask a valid question.") |}
    end.

End MistralService.


(* ================================================================== *)
(** * Vocabulary of the properties *)
(* ================================================================== *)

Module Vocabulary.

Import LanguageService WebSearchService MistralService.

Local Open Scope string_scope.
Local Open Scope list_scope.

(** ** Matching *)

Definition isSome {X : Type} (o : option X) : bool :=
  match o with Some _ => true | None => false end.

(** [f] holds of some suffix of [s], the empty one included. *)
Fixpoint anySuffix (f : jstring -> bool) (s : jstring) : bool :=
  f s || match s with
         | [] => false
         | _ :: s' => anySuffix f s'
         end.

(** A step of the matcher consults its continuation only on texts that are
    not longer than the one it was given. *)
Definition local {A : Type}
    (step : jstring -> caps -> (jstring -> caps -> option A) -> option A)
  : Prop :=
  forall s cs k1 k2,
    (forall s' cs', (List.length s' <= List.length s)%nat ->
                    k1 s' cs' = k2 s' cs') ->
    step s cs k1 = step s cs k2.

(** A step fails when its continuation always fails. *)
Definition strict {A : Type}
    (step : jstring -> caps -> (jstring -> caps -> option A) -> option A)
  : Prop :=
  forall s cs k,
    (forall s' cs', (List.length s' <= List.length s)%nat -> k s' cs' = None) ->
    step s cs k = None.

(** A step binds group [i] only if its continuation does. *)
Definition keepsUnbound {A : Type} (i : nat)
    (step : jstring -> caps -> (jstring -> caps -> option A) -> option A)
  : Prop :=
  forall s cs k x,
    capture i cs = None -> step s cs k = Some x ->
    exists s' cs', capture i cs' = None /\ k s' cs' = Some x.

(** The texts a pattern can consume. *)
Fixpoint matched (ci : bool) (r : regex) (w : jstring) : Prop :=
  match r with
  | REmpty | REnd => w = []
  | RChar p => exists c, w = [c] /\ char_match ci p c = true
  | RAny => exists c, w = [c] /\ is_line_terminator c = false
  | RClass neg items => exists c, w = [c] /\ class_match ci neg items c = true
  | RSeq r1 r2 =>
      exists w1 w2, w = w1 ++ w2 /\ matched ci r1 w1 /\ matched ci r2 w2
  | RAlt r1 r2 => matched ci r1 w \/ matched ci r2 w
  | RRepeat r1 _ _ _ =>
      exists ws, w = List.concat ws /\ Forall (matched ci r1) ws
  | RGroup _ r1 => matched ci r1 w
  end.

(** The capturing groups of a pattern with their bodies. *)
Fixpoint groupBodies (r : regex) : list (nat * regex) :=
  match r with
  | RSeq a b | RAlt a b => groupBodies a ++ groupBodies b
  | RRepeat a _ _ _ => groupBodies a
  | RGroup i a => (i, a) :: groupBodies a
  | _ => []
  end.

(** Every bound capture is a text that the body of its group can consume. *)
Definition goodCaps (ci : bool) (T : list (nat * regex)) (cs : caps) : Prop :=
  forall i v, capture i cs = Some v ->
              exists body, In (i, body) T /\ matched ci body v.

(** A step consumes a text of [lang] and keeps the captures good. *)
Definition sound {A : Type} (ci : bool) (T : list (nat * regex))
    (lang : jstring -> Prop)
    (step : jstring -> caps -> (jstring -> caps -> option A) -> option A)
  : Prop :=
  forall s cs k x,
    goodCaps ci T cs -> step s cs k = Some x ->
    exists w s' cs',
      s = w ++ s' /\ lang w /\ goodCaps ci T cs' /\ k s' cs' = Some x.

(** The pattern of a literal word, and of a list of alternatives. *)
Definition word (w : jstring) : regex :=
  fold_right (fun c r => seq (RChar c) r) REmpty w.

Fixpoint alts (rs : list regex) : regex :=
  match rs with
  | [] => REmpty
  | [r] => r
  | r :: rest => RAlt r (alts rest)
  end.

(** Characters outside ASCII are matched exactly, also under the i flag. *)
Definition caseless (w : jstring) : bool := forallb (N.leb 128) w.

(** The object behind [/(w1|w2|...)/i]. *)
Definition keywordPattern (ws : list jstring) : RegExp :=
  {| pattern := Some (RGroup 1 (alts (map word ws))); ignoreCase := true;
     global := false |}.

(** The words and digits that the fourth bedroom pattern captures, and the
    body [\d+] of the group of the first three. *)
Definition numberWords : list jstring :=
  [ js "one"; js "two"; js "three"; js "four"; js "five";
    js "1"; js "2"; js "3"; js "4"; js "5" ].

Definition digitsRegex : regex := RRepeat (RClass false [CDigit]) 1 None true.

(** ** Script blocks *)

Definition inBlock (block : N * N) (c : N) : bool :=
  N.leb (fst block) c && N.leb c (snd block).

(** The text starts with three characters of the block. *)
Definition startsRun (block : N * N) (s : jstring) : bool :=
  match s with
  | a :: b :: c :: _ => inBlock block a && inBlock block b && inBlock block c
  | _ => false
  end.

Definition hasRun (block : N * N) (s : jstring) : bool :=
  anySuffix (startsRun block) s.

(** Three contiguous characters of the block occur in the text. *)
Definition containsRun (block : N * N) (s : jstring) : Prop :=
  exists pre a b c post,
    s = pre ++ a :: b :: c :: post /\
    inBlock block a = true /\ inBlock block b = true /\
    inBlock block c = true.

(** The pattern [[lo-hi]{3,}] and the object behind [/[lo-hi]{3,}/]. *)
Definition blockRegex (block : N * N) : regex :=
  RRepeat (RClass false [CRange (fst block) (snd block)]) 3 None true.

Definition blockPattern (block : N * N) : RegExp :=
  {| pattern := Some (blockRegex block); ignoreCase := false;
     global := false |}.

Definition devanagari : N * N := (0x0900, 0x097F)%N.
Definition gujarati : N * N := (0x0A80, 0x0AFF)%N.
Definition bengali : N * N := (0x0980, 0x09FF)%N.
Definition tamil : N * N := (0x0B80, 0x0BFF)%N.
Definition telugu : N * N := (0x0C00, 0x0C7F)%N.
Definition kannada : N * N := (0x0C80, 0x0CFF)%N.
Definition malayalam : N * N := (0x0D00, 0x0D7F)%N.
Definition gurmukhi : N * N := (0x0A00, 0x0A7F)%N.
Definition arabic : N * N := (0x0600, 0x06FF)%N.

(** The script blocks with their tags, in the priority order of the
    detection table. *)
Definition scriptBlocks : list (string * (N * N)) :=
  [ ("hi", devanagari); ("gu", gujarati); ("bn", bengali); ("ta", tamil);
    ("te", telugu); ("kn", kannada); ("ml", malayalam); ("pa", gurmukhi);
    ("ur", arabic) ].

(** The keywords of the second Hindi pattern and of the Marathi pattern. *)
Definition hindiKeywords : list jstring :=
  [ js "कैसे"; js "क्या"; js "कौन"; js "कहाँ"; js "क्यों"; js "मैं"; js "हम";
    js "तुम"; js "आप"; js "वह"; js "यह"; js "मेरा"; js "हमारा"; js "मुझे";
    js "हमें" ].

Definition marathiKeywords : list jstring :=
  [ js "आहे"; js "नाही"; js "काय"; js "कसे"; js "कोण"; js "कुठे"; js "का";
    js "मी"; js "आम्ही"; js "तू"; js "तुम्ही"; js "तो"; js "ती"; js "ते";
    js "माझा"; js "आमचा"; js "मला"; js "आम्हाला" ].

Definition marathiRegex : regex :=
  RSeq (blockRegex devanagari)
       (RSeq (RRepeat RAny 0 None false)
             (RGroup 1 (alts (map word marathiKeywords)))).

Definition marathiPattern : RegExp :=
  {| pattern := Some marathiRegex; ignoreCase := true; global := false |}.

Definition hasHindiKeyword (s : jstring) : bool :=
  existsb (includes s) hindiKeywords.

(** The first block of the list that has a run in the text. *)
Fixpoint firstRun (blocks : list (string * (N * N))) (s : jstring)
  : option string :=
  match blocks with
  | [] => None
  | (tag, block) :: rest =>
      if hasRun block s then Some tag else firstRun rest s
  end.

(** ** Query enhancement *)

Definition portalSuffix : jstring := js " (" ++ portalQueryPart ++ js ")".

(** The presence checks of the six conditional steps. *)
Definition hasContext (e : jstring) : bool :=
  includes (toLowerCase e) (js "real estate")
  || includes (toLowerCase e) (js "property")
  || includes (toLowerCase e) (js "flat")
  || includes (toLowerCase e) (js "house")
  || includes (toLowerCase e) (js "apartment").

Definition hasLocation (i : intent) (e : jstring) : bool :=
  negb (truthy (location i))
  || includes (toLowerCase e) (toLowerCase (location i)).

Definition hasPropertyType (i : intent) (e : jstring) : bool :=
  negb (truthy (propertyType i))
  || includes (toLowerCase e) (toLowerCase (propertyType i)).

Definition hasTransactionType (i : intent) (e : jstring) : bool :=
  negb (truthy (transactionType i))
  || includes (toLowerCase e) (transactionType i).

Definition hasBudget (i : intent) (e : jstring) : bool :=
  negb (truthy (budget i)) || includes e (budget i).

Definition hasBedrooms (i : intent) (e : jstring) : bool :=
  negb (truthy (bedrooms i))
  || includes (toLowerCase e) (bedrooms i ++ js " bhk")
  || includes (toLowerCase e) (bedrooms i ++ js " bedroom").

(** One conditional step: append [extra] unless [present]. *)
Definition addUnless (present : jstring -> bool) (extra e : jstring)
  : jstring :=
  if present e then e else e ++ extra.

(** Every presence check succeeds. *)
Definition saturated (i : intent) (e : jstring) : bool :=
  hasContext e && hasLocation i e && hasPropertyType i e
  && hasTransactionType i e && hasBudget i e && hasBedrooms i e.

(** A presence check that text appended later cannot undo. *)
Definition monotone (present : jstring -> bool) : Prop :=
  forall e x, present e = true -> present (e ++ x) = true.

(** ** Ranking *)

(** [a] is ranked no lower than [b]. *)
Definition outranks (a b : scored) : Prop :=
  (relevanceScore b <= relevanceScore a)%Z.

Definition hasScore (v : Z) (s : scored) : bool :=
  Z.eqb (relevanceScore s) v.

(** ** History *)

(** The four asked-about flags, read through one selector. *)
Inductive topic : Type := Name | Budget | Location | PropertyType.

Definition asked (t : topic) (info : extractedInfo) : bool :=
  match t with
  | Name => askedAboutName info
  | Budget => askedAboutBudget info
  | Location => askedAboutLocation info
  | PropertyType => askedAboutPropertyType info
  end.

Definition questionPatternsOf (t : topic) : list RegExp :=
  match t with
  | Name => nameQuestionPatterns
  | Budget => budgetQuestionPatterns
  | Location => locationQuestionPatterns
  | PropertyType => propertyTypeQuestionPatterns
  end.

(** The assistant turn [msg] asks about [t]. *)
Definition asks (t : topic) (msg : turn) : bool :=
  match t_role msg with
  | Assistant => existsb (fun p => test p (content msg)) (questionPatternsOf t)
  | User => false
  end.

(** ** Responses *)

(** The question mark. *)
Definition qmark : N := 63%N.

Definition noQuestionMark (s : jstring) : Prop := ~ In qmark s.

Definition hitWithoutQuestionMark (r : result) : Prop :=
  noQuestionMark (r_title r) /\ noQuestionMark (r_snippet r)
  /\ noQuestionMark (r_link r).

(** ** Detected languages *)

(** The codes that detection can return. *)
Definition detectedCodes : list string :=
  [ "en"; "hi"; "gu"; "bn"; "ta"; "te"; "kn"; "ml"; "pa"; "ur" ].

(** The character belongs to one of the nine script blocks. *)
Definition inSomeBlock (c : N) : bool :=
  existsb (fun entry => inBlock (snd entry) c) scriptBlocks.

(** A text without any character of the script blocks. *)
Definition plain (s : jstring) : bool :=
  forallb (fun c => negb (inSomeBlock c)) s.

(** ** Texts of ASCII characters *)

(** The three texts that the search reads from the lead are of ASCII
    characters. *)
Definition asciiLead (lead : leadInfo) : bool :=
  asciiText (knownSlot lead "preferredLocation")
  && asciiText (knownSlot lead "budget")
  && asciiText (knownSlot lead "propertyType").


(** The query and the lead of a search are of ASCII characters: the
    lower-casing of the texts that the search derives from them is then the
    one of [String.prototype.toLowerCase]. *)
Definition asciiSearch (query : jstring) (lead : leadInfo) : bool :=
  asciiText query && asciiLead lead.

(** ** The texts of a language *)

(** The table has [text], which is not empty, under [code]: the lookup
    [table[code] || other] gives [text]. *)
Definition own (table : list (string * jstring)) (code : string)
    (text : jstring) : Prop :=
  get table code = Some text /\ text <> [].

(** ** The formatted hits *)

(** The three lines that present one hit under its number. *)
Definition entryOf (number : nat) (r : result) : jstring :=
  of_nat number ++ js ". **" ++ r_title r ++ js "**" ++ nl
    ++ r_snippet r ++ nl
    ++ js "[Learn more](" ++ r_link r ++ js ")" ++ nl ++ nl.

(** The hits one after the other, numbered upwards from [number]. *)
Fixpoint numbered (number : nat) (rs : list result) : jstring :=
  match rs with
  | [] => []
  | r :: rest => entryOf number r ++ numbered (S number) rest
  end.

(** The sentence that closes the system message of another language than
    English. *)
Definition languageReminder (name : jstring) : jstring :=
  nl ++ nl ++ js "IMPORTANT: Always respond in " ++ name ++ js " language.".

(** ** The search engine ID *)

Definition ampersand : N := 38%N.

(** The pattern [cx=([^&]+)] as the parser reads it. *)
Definition engineId : regex :=
  RSeq (RChar 99)
    (RSeq (RChar 120)
       (RSeq (RChar 61)
          (RGroup 1 (RRepeat (RClass true [CRange 38 38]) 1 None true)))).

(** The characters before the first ampersand, and the rest. *)
Fixpoint upToAmpersand (s : jstring) : jstring :=
  match s with
  | [] => []
  | c :: s' => if N.eqb c ampersand then [] else c :: upToAmpersand s'
  end.

Fixpoint fromAmpersand (s : jstring) : jstring :=
  match s with
  | [] => []
  | c :: s' => if N.eqb c ampersand then c :: s' else fromAmpersand s'
  end.

(** The value of a [cx=] parameter that begins the text, unless it is
    empty. *)
Definition valueHere (s : jstring) : option jstring :=
  if starts_with (js "cx=") s then
    match upToAmpersand (skipn 3 s) with
    | [] => None
    | c :: v => Some (c :: v)
    end
  else None.

(** The first value of a [cx=] parameter in the text that is not empty. *)
Fixpoint cxValue (s : jstring) : option jstring :=
  match valueHere s with
  | Some v => Some v
  | None =>
      match s with
      | [] => None
      | _ :: s' => cxValue s'
      end
  end.

(** ** The search *)

(** Both credentials are set. *)
Definition configured (this : webSearchService) : bool :=
  present (googleApiKey this) && present (googleSearchEngineId this).

(** The request of the [try] block and the one of the [catch] block. *)
Definition primaryRequest (this : webSearchService) (query : jstring)
    (lead : leadInfo) : searchRequest :=
  {| url := baseURL;
     key := googleApiKey this;
     cx := googleSearchEngineId this;
     q := buildEnhancedQuery query (extractIntent query lead);
     num := 10;
     restrictions := primaryRestrictions;
     timeout := 15000%N |}.

Definition fallbackRequest (this : webSearchService) (query : jstring)
  : searchRequest :=
  {| url := baseURL;
     key := googleApiKey this;
     cx := googleSearchEngineId this;
     q := simplifiedQuery query;
     num := 5;
     restrictions := [];
     timeout := 10000%N |}.

(** The hits of a reply. *)
Definition hitsOf (reply : searchReply) : list item :=
  match reply with
  | Items items => items
  | _ => []
  end.

(** The result shows the three texts of the hit. *)
Definition shows (r : result) (it : item) : Prop :=
  r_title r = title it /\ r_link r = link it /\ r_snippet r = snippet it.

(** The number of occurrences of a character. *)
Definition countOf (c : N) (s : jstring) : nat :=
  List.length (filter (N.eqb c) s).

Definition space : N := 32%N.

(** ** The conversation turn *)

(** The message as the turn uses it: trimmed, when it is a text that is
    not blank. *)
Definition cleanedMessage (userMessage : jsval) : option jstring :=
  match userMessage with
  | VString s =>
      if Nat.eqb (List.length (trim s)) 0 then None else Some (trim s)
  | _ => None
  end.

(** The chat request of a turn, given the hits of the search. *)
Definition turnRequest (this : mistralService) (hits : list result)
    (cleaned : jstring) (leadInfo : leadContext)
    (messageHistory : list storedMessage) : chatRequest :=
  let formattedHistory := formatMessageHistory messageHistory in
  let lead := enhancedLeadInfo leadInfo hits cleaned
                               (extractInfoFromHistory formattedHistory) in
  {| chat_url := chatURL;
     model := js "mistral-medium";
     messages :=
       createSystemMessage lead
       :: map chatTurn formattedHistory
          ++ [ {| cm_role := js "user";
                  cm_content := enhanceUserMessage cleaned lead |} ];
     settings := chatSettings;
     authorization := js "Bearer " ++ or_else (apiKey this) [];
     contentType := js "application/json";
     chat_timeout := 25000%N |}.

Definition apology : jstring :=
  js "AI response is temporarily unavailable. Please try again later.".

Definition unavailable : jstring := js "AI response unavailable.".

(** [b] is [a] with something appended. *)
Definition extends (a b : jstring) : Prop := exists t, b = a ++ t.

(** ** The instruction of the turn *)

(** The text of the lead on a topic. *)
Definition known (t : topic) (leadInfo : leadContext) : jstring :=
  match t with
  | Name => l_name leadInfo
  | Budget => l_budget leadInfo
  | Location => l_preferredLocation leadInfo
  | PropertyType => l_propertyType leadInfo
  end.

(** A topic is open when the lead has no text on it and the assistant has
    not asked about it. *)
Definition isOpen (t : topic) (leadInfo : leadContext)
    (historyInfo : extractedInfo) : bool :=
  negb (truthy (known t leadInfo)) && negb (asked t historyInfo).

Definition askingOrder : list topic := [ Name; PropertyType; Budget; Location ].

Definition nextTopic (leadInfo : leadContext) (historyInfo : extractedInfo)
  : option topic :=
  find (fun t => isOpen t leadInfo historyInfo) askingOrder.

(** What the assistant is told to do in the turn. *)
Inductive step : Type :=
| Closing
| Answering
| Asking (t : topic)
| Responding.

Definition nextStep (isEnding hasAllBasicInfo : bool)
    (leadInfo : leadContext) (historyInfo : extractedInfo) : step :=
  if isEnding then Closing
  else if hasAllBasicInfo then Answering
  else match nextTopic leadInfo historyInfo with
       | Some t => Asking t
       | None => Responding
       end.

Definition steps : list step :=
  [ Closing; Answering; Asking Name; Asking PropertyType; Asking Budget;
    Asking Location; Responding ].

(** The instruction for each step, in the two renderings. *)
Definition instructionEnglish (s : step) : jstring :=
  match s with
  | Closing => (nl ++ js "The user is ending the conversation. Only respond to their message and do not ask additional questions.")
  | Answering => (nl ++ js "All basic user details have already been collected. Now provide an accurate answer to their current question."
        ++ nl ++ js "Do not ask any additional questions that have already been asked. Only respond to their current query.")
  | Asking Name => (nl ++ js "First, ask for the user's name. Do not ask for other details yet.")
  | Asking PropertyType => (nl ++ js "Now only ask about the property type (such as apartment, house, villa, etc.). Do not ask for other details yet.")
  | Asking Budget => (nl ++ js "Now only ask about their budget. Do not ask for other details yet.")
  | Asking Location => (nl ++ js "Now only ask about their preferred location. Do not ask for other details yet.")
  | Responding => (nl ++ js "Respond to the user's current question. Do not repeat questions that have already been asked.")
  end.

Definition instructionHindi (s : step) : jstring :=
  match s with
  | Closing => (nl ++ js "उपयोगकर्ता संवाद समाप्त करना चाहता है। केवल उनके संदेश का उत्तर दें और कोई अतिरिक्त प्रश्न न पूछें।")
  | Answering => (nl ++ js "उपयोगकर्ता के सभी बुनियादी विवरण पहले से ही एकत्र किए गए हैं। अब उनकी वर्तमान प्रश्न का सटीक उत्तर दें।"
        ++ nl ++ js "कोई अतिरिक्त प्रश्न न पूछें जो पहले पूछे जा चुके हैं। केवल उनके वर्तमान प्रश्न का उत्तर दें।")
  | Asking Name => (nl ++ js "सबसे पहले, उपयोगकर्ता का नाम पूछें। अन्य विवरण अभी न पूछें।")
  | Asking PropertyType => (nl ++ js "अब केवल संपत्ति के प्रकार के बारे में पूछें (जैसे अपार्टमेंट, मकान, विला, आदि)। अन्य विवरण अभी न पूछें।")
  | Asking Budget => (nl ++ js "अब केवल उनके बजट के बारे में पूछें। अन्य विवरण अभी न पूछें।")
  | Asking Location => (nl ++ js "अब केवल उनके पसंदीदा स्थान के बारे में पूछें। अन्य विवरण अभी न पूछें।")
  | Responding => (nl ++ js "उपयोगकर्ता के वर्तमान प्रश्न का उत्तर दें। पहले पूछे गए प्रश्नों को दोहराएं नहीं।")
  end.

(** The flags of the conversation that the system message reads. *)
Definition historyOf (leadInfo : leadContext) : extractedInfo :=
  match l_conversationHistory leadInfo with
  | Some conversationHistory => conversationHistory
  | None => initialInfo
  end.

(** The language of the system message. *)
Definition promptLanguage (leadInfo : leadContext) : string :=
  if truthy (l_currentMessage leadInfo)
  then detectLanguage (VString (l_currentMessage leadInfo))
  else "en".

(** ** Extracted texts *)

(** The body [\d[\d,.]*] of the groups of the budget patterns. *)
Definition amountRegex : regex :=
  RSeq (RClass false [CDigit])
       (RRepeat (RClass false [CDigit; CRange 44 44; CRange 46 46])
                0 None true).

Definition comma : N := 44%N.
Definition dot : N := 46%N.

(** A text without white space at either end. *)
Definition trimmed (s : jstring) : Prop := trim s = s.

(** ** What the user provided *)

(** The text that the digest of the history holds on a topic. *)
Definition providedOn (t : topic) (info : extractedInfo) : option jstring :=
  match t with
  | Name => p_name (provided info)
  | Budget => p_budget (provided info)
  | Location => p_preferredLocation (provided info)
  | PropertyType => p_propertyType (provided info)
  end.

(** The user turn [msg] provides a text on [t]. *)
Definition provides (t : topic) (msg : turn) : bool :=
  match t_role msg with
  | User =>
      match t with
      | Name =>
          existsb (fun p => isSome (match_group p 1 (content msg)))
                  nameResponsePatterns
      | Budget =>
          existsb (fun p => isSome (match_group p 1 (content msg)))
                  budgetResponsePatterns
      | Location => isSome (match_group locationResponsePattern 1 (content msg))
      | PropertyType =>
          existsb (includes (toLowerCase (content msg))) historyPropertyTypes
      end
  | Assistant => false
  end.

Definition fromUser (msg : turn) : bool :=
  match t_role msg with User => true | Assistant => false end.

Definition fromAssistant (msg : turn) : bool :=
  match t_role msg with User => false | Assistant => true end.

(** ** Closing messages *)

(** The object behind [/w1|w2|.../i]. *)
Definition keywordAlternation (ws : list jstring) : RegExp :=
  {| pattern := Some (alts (map word ws)); ignoreCase := true;
     global := false |}.

(** The alternatives of the closing patterns, pattern by pattern. *)
Definition endingWords : list (list jstring) :=
  [ [ js "thank you"; js "thanks"; js "thank u" ];
    [ js "goodbye"; js "bye"; js "see you"; js "farewell" ];
    [ js "that's all"; js "that is all"; js "no more"; js "finished" ];
    [ js "no more questions" ];
    [ js "got it"; js "understood"; js "i understand" ];
    [ js "ok"; js "okay"; js "fine"; js "great" ];
    [ js "that's helpful"; js "that helps"; js "clear now" ];
    [ js "appreciate"; js "appreciate it"; js "appreciate your" ];
    [ js "धन्यवाद"; js "शुक्रिया"; js "थैंक्स"; js "आभार" ];
    [ js "अलविदा"; js "बाय"; js "गुड बाय"; js "फिर मिलेंगे" ];
    [ js "बस इतना ही"; js "यही सब है"; js "हो गया" ];
    [ js "कोई और सवाल नहीं"; js "और कुछ नहीं" ];
    [ js "समझ गया"; js "ठीक है"; js "समझ में आया" ];
    [ js "ओके"; js "अच्छा"; js "ठीक"; js "बहुत अच्छा" ];
    [ js "मदद मिली"; js "स्पष्ट है"; js "समझ में आ गया" ];
    [ js "धन्यवाद"; js "आभार"; js "थँक्यू" ];
    [ js "निरोप"; js "बाय"; js "पुन्हा भेटू" ];
    [ js "बस एवढेच"; js "इतकेच"; js "झाले" ];
    [ js "आणखी प्रश्न नाहीत" ];
    [ js "समजले"; js "बरोबर"; js "ठीक आहे" ];
    [ js "ओके"; js "छान"; js "बरं" ];
    [ js "मदत झाली"; js "स्पष्ट आहे" ];
    [ js "આભાર"; js "ધન્યવાદ"; js "થેંક્યુ" ];
    [ js "આવજો"; js "બાય"; js "ફરી મળીશું" ];
    [ js "બસ આટલું જ"; js "પૂરું થયું" ];
    [ js "વધુ પ્રશ્નો નથી" ];
    [ js "સમજાયું"; js "બરાબર"; js "ઠીક છે" ];
    [ js "ઓકે"; js "સારું"; js "ઠીક" ];
    [ js "મદદ મળી"; js "સ્પષ્ટ છે" ];
    [ js "ধন্যবাদ"; js "আপনাকে ধন্যবাদ" ];
    [ js "বিদায়"; js "ফিরে দেখা হবে" ];
    [ js "এটাই সব"; js "শেষ" ];
    [ js "আর কোন প্রশ্ন নেই" ];
    [ js "বুঝেছি"; js "ঠিক আছে" ];
    [ js "ওকে"; js "ভালো" ];
    [ js "সাহায্য পেয়েছি"; js "পরিষ্কার" ] ].

(** The message as the closing test reads it. *)
Definition normalized (message : jstring) : jstring :=
  toLowerCase (trim message).

(** Shorter than fifteen characters and without a question mark. *)
Definition shortNonQuestion (normalizedMessage : jstring) : bool :=
  Nat.ltb (List.length normalizedMessage) 15
  && negb (includes normalizedMessage (js "?")).

(** Upper case, letter by letter. *)
Definition toUpperCase (s : jstring) : jstring := map upper_cu s.

(** No capital ASCII letter occurs in the text. *)
Definition noCapital (s : jstring) : bool :=
  forallb (fun c => negb (N.leb 65 c && N.leb c 90)) s.

(** The text begins with [w], where the i flag makes the case of the
    ASCII letters irrelevant. *)
Fixpoint startsLike (ci : bool) (w s : jstring) : bool :=
  match w, s with
  | [], _ => true
  | _ :: _, [] => false
  | p :: w', c :: s' => char_match ci p c && startsLike ci w' s'
  end.

End Vocabulary.


(* ================================================================== *)
(** * Facts about strings *)
(* ================================================================== *)

Unset Implicit Arguments.

Module StringFacts.

Local Open Scope list_scope.

Lemma starts_with_refl_app (t s : jstring) : starts_with t (t ++ s) = true.
Proof.
  induction t as [|a t IH]; simpl; [reflexivity|].
  now rewrite N.eqb_refl.
Qed.

Lemma starts_with_app_l (t s u : jstring) :
  starts_with t s = true -> starts_with t (s ++ u) = true.
Proof.
  revert s; induction t as [|a t IH]; intros s H; [reflexivity|].
  destruct s as [|b s]; simpl in *; [discriminate|].
  apply andb_true_iff in H as [Hab Hts].
  now rewrite Hab, IH.
Qed.

Lemma starts_with_split (t s : jstring) :
  starts_with t s = true -> exists post, s = t ++ post.
Proof.
  revert s; induction t as [|a t IH]; intros s H.
  - now exists s.
  - destruct s as [|b s]; simpl in H; [discriminate|].
    apply andb_true_iff in H as [Hab Hts].
    apply N.eqb_eq in Hab; subst b.
    destruct (IH _ Hts) as [post ->].
    now exists post.
Qed.

Lemma includes_app_l (s t u : jstring) :
  includes s t = true -> includes (s ++ u) t = true.
Proof.
  induction s as [|c s IH]; simpl; intros H.
  - rewrite orb_false_r in H. destruct t; [|discriminate].
    now destruct u.
  - apply orb_true_iff in H as [H|H].
    + apply (starts_with_app_l _ (c :: s) u) in H. simpl in H.
      now rewrite H.
    + rewrite (IH H). apply orb_true_r.
Qed.

Lemma includes_app_r (s t u : jstring) :
  includes u t = true -> includes (s ++ u) t = true.
Proof.
  induction s as [|c s IH]; simpl; intros H; [exact H|].
  rewrite (IH H). apply orb_true_r.
Qed.

Lemma includes_prefix (t u : jstring) : includes (t ++ u) t = true.
Proof.
  destruct t as [|a t]; simpl.
  - now destruct u.
  - rewrite N.eqb_refl, starts_with_refl_app. reflexivity.
Qed.

Lemma includes_middle (a t b : jstring) : includes (a ++ t ++ b) t = true.
Proof. apply includes_app_r, includes_prefix. Qed.

Lemma includes_suffix (a t : jstring) : includes (a ++ t) t = true.
Proof.
  pose proof (includes_middle a t []) as H. now rewrite app_nil_r in H.
Qed.

Lemma includes_split (s t : jstring) :
  includes s t = true -> exists pre post, s = pre ++ t ++ post.
Proof.
  induction s as [|c s IH]; simpl; intros H.
  - rewrite orb_false_r in H. destruct t; [|discriminate].
    now exists [], [].
  - apply orb_true_iff in H as [H|H].
    + destruct (starts_with_split t (c :: s) H) as [post E].
      exists [], post. exact E.
    + destruct (IH H) as (pre & post & ->).
      now exists (c :: pre), post.
Qed.

Lemma toLowerCase_app (a b : jstring) :
  toLowerCase (a ++ b) = toLowerCase a ++ toLowerCase b.
Proof. apply map_app. Qed.

Lemma truthy_false (s : jstring) : truthy s = false -> s = [].
Proof. now destruct s. Qed.

Lemma In_trimStart (c : N) (s : jstring) : In c (trimStart s) -> In c s.
Proof.
  induction s as [|d s IH]; simpl; [intros []|].
  destruct (is_space d); simpl; auto.
Qed.

Lemma In_trim (c : N) (s : jstring) : In c (trim s) -> In c s.
Proof.
  unfold trim, trimEnd. intros H.
  apply In_trimStart. apply in_rev in H. apply In_trimStart in H.
  now apply in_rev.
Qed.

(** A text with a character that is not white space does not trim to the
    empty string. *)
Lemma trimStart_keeps (s : jstring) (c : N) :
  In c s -> is_space c = false -> In c (trimStart s).
Proof.
  induction s as [|d s IH]; simpl; [intros []|].
  intros [->|H] Hc.
  - rewrite Hc. now left.
  - destruct (is_space d); [auto|]. now right.
Qed.

Lemma trim_keeps (s : jstring) (c : N) :
  In c s -> is_space c = false -> In c (trim s).
Proof.
  intros H Hc. unfold trim, trimEnd.
  apply in_rev. rewrite rev_involutive.
  apply trimStart_keeps; [|exact Hc].
  apply -> in_rev. now apply trimStart_keeps.
Qed.

(** A text made of white space only trims to the empty string. *)
Lemma trimStart_spaces (s : jstring) :
  forallb is_space s = true -> trimStart s = [].
Proof.
  induction s as [|d s IH]; simpl; [reflexivity|].
  intros H. apply andb_true_iff in H as [Hd Hs].
  now rewrite Hd, IH.
Qed.

Lemma trim_spaces (s : jstring) : forallb is_space s = true -> trim s = [].
Proof.
  intros H. unfold trim. now rewrite (trimStart_spaces s H).
Qed.

(** ** Trimming twice *)

Lemma trimStart_head (s : jstring) :
  match trimStart s with
  | c :: _ => is_space c = false
  | [] => True
  end.
Proof.
  induction s as [|c s IH]; [exact I|].
  cbn [trimStart]. destruct (is_space c) eqn:E; [exact IH | exact E].
Qed.

Lemma trimStart_fixed (s : jstring) :
  match s with c :: _ => is_space c = false | [] => True end ->
  trimStart s = s.
Proof.
  destruct s as [|c s]; [reflexivity|]. cbn [trimStart]. now intros ->.
Qed.

Lemma trimStart_suffix (s : jstring) :
  exists pre, s = pre ++ trimStart s.
Proof.
  induction s as [|c s (pre & IH)]; [now exists []|].
  cbn [trimStart]. destruct (is_space c).
  - exists (c :: pre). cbn [app]. now f_equal.
  - now exists [].
Qed.

Lemma trim_trim (s : jstring) : trim (trim s) = trim s.
Proof.
  unfold trim, trimEnd.
  set (t := trimStart s).
  set (u := trimStart (rev t)).
  assert (Hu : match u with c :: _ => is_space c = false | [] => True end)
    by apply trimStart_head.
  assert (Hrev : match rev u with
                 | c :: _ => is_space c = false
                 | [] => True
                 end).
  { destruct (rev u) as [|c r] eqn:E; [exact I|].
    destruct (trimStart_suffix (rev t)) as (pre & Hpre). fold u in Hpre.
    assert (Hne : u <> []).
    { intros ->. discriminate. }
    pose proof (trimStart_head s) as Ht. fold t in Ht.
    assert (Ht' : rev (rev t) = t) by apply rev_involutive.
    rewrite Hpre, rev_app_distr, E in Ht'. cbn [app] in Ht'.
    rewrite <- Ht' in Ht. exact Ht. }
  rewrite (trimStart_fixed (rev u) Hrev), rev_involutive.
  now rewrite (trimStart_fixed u Hu).
Qed.

End StringFacts.

(* ================================================================== *)
(** * Facts about splitting and joining *)
(* ================================================================== *)

Module SplitFacts.

Import Vocabulary StringFacts.

Local Open Scope list_scope.

Lemma join_cons (sep p : jstring) (q : jstring) (rest : list jstring) :
  join sep (p :: q :: rest) = p ++ sep ++ join sep (q :: rest).
Proof. reflexivity. Qed.

Lemma split_str_go_nonempty (sep : jstring) (skip : nat) (cur s : jstring) :
  split_str_go sep skip cur s <> [].
Proof.
  revert skip cur. induction s as [|c s IH]; intros skip cur.
  - destruct skip; discriminate.
  - destruct skip as [|n]; cbn [split_str_go].
    + destruct (starts_with sep (c :: s)); [discriminate | apply IH].
    + apply IH.
Qed.

Lemma join_first (sep p : jstring) (l : list jstring) :
  l <> [] -> join sep (p :: l) = p ++ sep ++ join sep l.
Proof. destruct l; [congruence | reflexivity]. Qed.

Lemma starts_with_skipn (t s : jstring) :
  starts_with t s = true -> s = t ++ skipn (List.length t) s.
Proof.
  revert s. induction t as [|a t IH]; intros s H; [reflexivity|].
  destruct s as [|b s]; [discriminate|].
  cbn [starts_with] in H. apply andb_true_iff in H as [Hab H].
  apply N.eqb_eq in Hab. subst b.
  cbn [List.length skipn app]. f_equal. now apply IH.
Qed.

(** Joining the pieces gives the text back. *)
Lemma join_split_str_go (sep : jstring) (skip : nat) (cur s : jstring) :
  sep <> [] -> (skip <= List.length s)%nat ->
  join sep (split_str_go sep skip cur s) = rev cur ++ skipn skip s.
Proof.
  intros Hsep. revert skip cur.
  induction s as [|c s IH]; intros skip cur Hk.
  - destruct skip; [|cbn in Hk; lia]. cbn. now rewrite app_nil_r.
  - destruct skip as [|n]; cbn [split_str_go].
    + destruct (starts_with sep (c :: s)) eqn:E.
      * rewrite join_first by apply split_str_go_nonempty.
        pose proof (starts_with_skipn sep (c :: s) E) as Hs.
        destruct sep as [|a sep]; [congruence|].
        cbn [List.length Nat.sub] in *. rewrite Nat.sub_0_r.
        cbn [skipn app] in Hs. injection Hs as Ha Hs.
        assert (Hlen : (List.length sep <= List.length s)%nat).
        { rewrite Hs. rewrite length_app. lia. }
        rewrite IH by exact Hlen. cbn [rev app skipn].
        subst a. rewrite Hs at 2. reflexivity.
      * rewrite IH by lia. cbn [rev skipn]. now rewrite <- app_assoc.
    + cbn [skipn]. apply IH. cbn in Hk. lia.
Qed.

Lemma join_split_str (sep s : jstring) :
  sep <> [] -> join sep (split_str sep s) = s.
Proof.
  intros Hsep. unfold split_str. rewrite join_split_str_go by (auto; lia).
  reflexivity.
Qed.

(** The first pieces, joined, are a prefix of the text; what is left starts
    with the separator. *)
Lemma join_firstn (sep : jstring) (n : nat) (l : list jstring) :
  (0 < n < List.length l)%nat ->
  join sep l = join sep (firstn n l) ++ sep ++ join sep (skipn n l).
Proof.
  revert l. induction n as [|n IH]; intros l Hn; [lia|].
  destruct l as [|p l]; [cbn in Hn; lia|].
  destruct l as [|p2 l]; [cbn in Hn; lia|].
  destruct n as [|n].
  - cbn [firstn skipn]. reflexivity.
  - rewrite join_cons.
    change (firstn (S (S n)) (p :: p2 :: l))
      with (p :: firstn (S n) (p2 :: l)).
    change (skipn (S (S n)) (p :: p2 :: l)) with (skipn (S n) (p2 :: l)).
    rewrite (IH (p2 :: l)) by (cbn [List.length] in *; lia).
    rewrite join_first.
    + now rewrite <- !app_assoc.
    + cbn [firstn]. discriminate.
Qed.

(** ** A separator of one character *)

Lemma countOf_app (c : N) (a b : jstring) :
  countOf c (a ++ b) = (countOf c a + countOf c b)%nat.
Proof. unfold countOf. now rewrite filter_app, length_app. Qed.

Lemma countOf_rev (c : N) (a : jstring) : countOf c (rev a) = countOf c a.
Proof.
  induction a as [|x a IH]; [reflexivity|].
  cbn [rev]. rewrite countOf_app, IH. unfold countOf. cbn [filter].
  destruct (N.eqb c x); cbn [List.length]; lia.
Qed.

Lemma split_char_pieces (c : N) (cur s : jstring) :
  countOf c cur = 0%nat ->
  Forall (fun piece => countOf c piece = 0%nat)
         (split_str_go [c] 0 cur s).
Proof.
  revert cur. induction s as [|d s IH]; intros cur Hcur.
  - constructor; [|constructor]. now rewrite countOf_rev.
  - cbn [split_str_go starts_with List.length Nat.sub].
    rewrite andb_true_r.
    destruct (N.eqb c d) eqn:E.
    + constructor; [now rewrite countOf_rev|]. now apply IH.
    + apply IH. unfold countOf in *. cbn [filter]. now rewrite E.
Qed.

Lemma countOf_join (c : N) (l : list jstring) :
  Forall (fun piece => countOf c piece = 0%nat) l ->
  countOf c (join [c] l) = pred (List.length l).
Proof.
  induction 1 as [|p l Hp Hl IH]; [reflexivity|].
  destruct l as [|p2 l]; [exact Hp|].
  rewrite join_cons, !countOf_app, Hp, IH.
  unfold countOf at 1. cbn [filter]. rewrite N.eqb_refl. reflexivity.
Qed.

End SplitFacts.

(* ================================================================== *)
(** * Facts about the matcher: quantifier loops and captures *)
(* ================================================================== *)

Module EngineFacts.

Import Vocabulary.

Local Open Scope list_scope.


Lemma repeat_loop_local (ci : bool) (A : Type)
    (step : jstring -> caps -> (jstring -> caps -> option A) -> option A)
    (greedy : bool) :
  local step ->
  forall fuel lo hi s cs k1 k2,
    (forall s' cs', (List.length s' <= List.length s)%nat ->
                    k1 s' cs' = k2 s' cs') ->
    repeat_loop step k1 greedy fuel lo hi s cs
    = repeat_loop step k2 greedy fuel lo hi s cs.
Proof.
  intros Hstep. induction fuel as [|fuel IH]; intros lo hi s cs k1 k2 Hk.
  - cbn [repeat_loop]. now apply Hk.
  - cbn [repeat_loop].
    rewrite (Hk s cs (le_n _)).
    assert (Hiter :
      step s cs (fun s' cs' =>
        if Nat.eqb lo 0 && Nat.eqb (List.length s') (List.length s) then None
        else repeat_loop step k1 greedy fuel (pred lo) (option_map pred hi)
                         s' cs')
      = step s cs (fun s' cs' =>
        if Nat.eqb lo 0 && Nat.eqb (List.length s') (List.length s) then None
        else repeat_loop step k2 greedy fuel (pred lo) (option_map pred hi)
                         s' cs')).
    { apply Hstep. intros s' cs' Hlen.
      destruct (Nat.eqb lo 0 && Nat.eqb (List.length s') (List.length s));
        [reflexivity|].
      apply IH. intros s'' cs'' Hlen'. apply Hk. lia. }
    rewrite Hiter. reflexivity.
Qed.

Lemma m_local (ci : bool) (A : Type) (r : regex) :
  local (fun s cs (k : jstring -> caps -> option A) => m ci r s cs k).
Proof.
  induction r as [|p| |neg items|r1 IH1 r2 IH2|r1 IH1 r2 IH2
                 |r1 IH1 lo hi greedy|i r1 IH1|];
    intros s cs k1 k2 Hk; cbn [m].
  - now apply Hk.
  - destruct s as [|c s]; [reflexivity|].
    destruct (char_match ci p c); [|reflexivity].
    apply Hk. cbn [List.length]. lia.
  - destruct s as [|c s]; [reflexivity|].
    destruct (is_line_terminator c); [reflexivity|].
    apply Hk. cbn [List.length]. lia.
  - destruct s as [|c s]; [reflexivity|].
    destruct (class_match ci neg items c); [|reflexivity].
    apply Hk. cbn [List.length]. lia.
  - apply IH1. intros s' cs' Hlen. apply IH2.
    intros s'' cs'' Hlen'. apply Hk. lia.
  - rewrite (IH1 s cs k1 k2 Hk), (IH2 s cs k1 k2 Hk). reflexivity.
  - apply (repeat_loop_local ci); [|exact Hk].
    intros s0 cs0 k0 k0' Hk0. now apply IH1.
  - apply IH1. intros s' cs' Hlen. now apply Hk.
  - destruct s; [now apply Hk | reflexivity].
Qed.

Lemma repeat_loop_strict (A : Type)
    (step : jstring -> caps -> (jstring -> caps -> option A) -> option A)
    (greedy : bool) :
  strict step ->
  forall fuel lo hi s cs k,
    (forall s' cs', (List.length s' <= List.length s)%nat -> k s' cs' = None) ->
    repeat_loop step k greedy fuel lo hi s cs = None.
Proof.
  intros Hstep. induction fuel as [|fuel IH]; intros lo hi s cs k Hk.
  - cbn [repeat_loop]. now apply Hk.
  - cbn [repeat_loop]. rewrite (Hk s cs (le_n _)).
    rewrite Hstep.
    + destruct hi as [[|h]|], lo, greedy; reflexivity.
    + intros s' cs' Hlen.
      destruct (Nat.eqb lo 0 && Nat.eqb (List.length s') (List.length s));
        [reflexivity|].
      apply IH. intros s'' cs'' Hlen'. apply Hk. lia.
Qed.

Lemma m_strict (ci : bool) (A : Type) (r : regex) :
  strict (fun s cs (k : jstring -> caps -> option A) => m ci r s cs k).
Proof.
  induction r as [|p| |neg items|r1 IH1 r2 IH2|r1 IH1 r2 IH2
                 |r1 IH1 lo hi greedy|i r1 IH1|];
    intros s cs k Hk; cbn [m].
  - now apply Hk.
  - destruct s as [|c s]; [reflexivity|].
    destruct (char_match ci p c); [|reflexivity].
    apply Hk. cbn [List.length]. lia.
  - destruct s as [|c s]; [reflexivity|].
    destruct (is_line_terminator c); [reflexivity|].
    apply Hk. cbn [List.length]. lia.
  - destruct s as [|c s]; [reflexivity|].
    destruct (class_match ci neg items c); [|reflexivity].
    apply Hk. cbn [List.length]. lia.
  - apply IH1. intros s' cs' Hlen. apply IH2.
    intros s'' cs'' Hlen'. apply Hk. lia.
  - rewrite (IH1 s cs k Hk). now apply IH2.
  - apply repeat_loop_strict; [|exact Hk].
    intros s0 cs0 k0 Hk0. now apply IH1.
  - apply IH1. intros s' cs' Hlen. now apply Hk.
  - destruct s; [now apply Hk | reflexivity].
Qed.

(** The fuel of a quantifier loop, [lo + length s], is never used up before
    the loop stops by itself: any larger amount gives the same result. *)
Lemma repeat_loop_fuel (A : Type)
    (step : jstring -> caps -> (jstring -> caps -> option A) -> option A)
    (k : jstring -> caps -> option A) (greedy : bool) :
  local step -> strict step ->
  forall fuel1 fuel2 lo hi s cs,
    (lo + List.length s <= fuel1)%nat ->
    (lo + List.length s <= fuel2)%nat ->
    repeat_loop step k greedy fuel1 lo hi s cs
    = repeat_loop step k greedy fuel2 lo hi s cs.
Proof.
  intros Hlocal Hstrict.
  assert (Hzero : forall fuel hi s cs,
            List.length s = 0%nat ->
            repeat_loop step k greedy fuel 0 hi s cs = k s cs).
  { intros fuel hi s cs Hs.
    destruct fuel as [|fuel]; cbn [repeat_loop]; [reflexivity|].
    destruct hi as [[|h]|]; [reflexivity| |];
      (match goal with
       | |- context [step s cs ?K] =>
           assert (Hiter : step s cs K = None);
           [ apply Hstrict; intros s' cs' Hlen; cbn [Nat.eqb andb];
             replace (Nat.eqb (List.length s') (List.length s)) with true
               by (symmetry; apply Nat.eqb_eq; lia); reflexivity
           | rewrite Hiter; destruct greedy;
             [reflexivity | now destruct (k s cs)] ]
       end). }
  induction fuel1 as [|f1 IH]; intros fuel2 lo hi s cs H1 H2.
  - assert (lo = 0%nat) by lia. assert (List.length s = 0%nat) by lia.
    subst lo. cbn [repeat_loop]. now rewrite Hzero.
  - destruct fuel2 as [|f2].
    + assert (lo = 0%nat) by lia. assert (List.length s = 0%nat) by lia.
      subst lo. rewrite Hzero by assumption. reflexivity.
    + cbn [repeat_loop].
      assert (Hiter :
        step s cs (fun s' cs' =>
          if Nat.eqb lo 0 && Nat.eqb (List.length s') (List.length s)
          then None
          else repeat_loop step k greedy f1 (pred lo) (option_map pred hi)
                           s' cs')
        = step s cs (fun s' cs' =>
          if Nat.eqb lo 0 && Nat.eqb (List.length s') (List.length s)
          then None
          else repeat_loop step k greedy f2 (pred lo) (option_map pred hi)
                           s' cs')).
      { apply Hlocal. intros s' cs' Hlen.
        destruct (Nat.eqb lo 0) eqn:Elo;
          destruct (Nat.eqb (List.length s') (List.length s)) eqn:Es;
          cbn [andb]; try reflexivity.
        - apply Nat.eqb_eq in Elo. apply Nat.eqb_neq in Es. subst lo.
          apply IH; cbn [pred]; lia.
        - apply Nat.eqb_neq in Elo. apply IH; lia.
        - apply Nat.eqb_neq in Elo. apply IH; lia. }
      rewrite Hiter. reflexivity.
Qed.

(** In particular a quantifier behaves the same with any larger fuel. *)
Lemma quantifier_fuel (ci : bool) (A : Type) (r : regex) (lo : nat)
    (hi : option nat) (greedy : bool) (s : jstring) (cs : caps)
    (k : jstring -> caps -> option A) (extra : nat) :
  m ci (RRepeat r lo hi greedy) s cs k
  = repeat_loop
      (fun s0 cs0 (k0 : jstring -> caps -> option A) =>
         m ci r s0 (clear_groups (groups_of r) cs0) k0)
      k greedy (lo + List.length s + extra) lo hi s cs.
Proof.
  cbn [m]. apply repeat_loop_fuel; try lia.
  - intros s0 cs0 k1 k2 Hk. now apply (m_local ci A r).
  - intros s0 cs0 k0 Hk. now apply (m_strict ci A r).
Qed.


Lemma capture_clear_groups (i : nat) (gs : list nat) (cs : caps) :
  capture i cs = None -> capture i (clear_groups gs cs) = None.
Proof.
  unfold clear_groups. induction cs as [|[j v] cs IH]; [reflexivity|].
  cbn [capture filter fst]. destruct (Nat.eqb i j) eqn:E; [discriminate|].
  intros H. destruct (negb (existsb (Nat.eqb j) gs)); [|now apply IH].
  cbn [capture]. rewrite E. now apply IH.
Qed.

Lemma repeat_loop_keepsUnbound (A : Type) (i : nat)
    (step : jstring -> caps -> (jstring -> caps -> option A) -> option A)
    (k : jstring -> caps -> option A) (greedy : bool) :
  keepsUnbound i step ->
  forall fuel lo hi s cs x,
    capture i cs = None ->
    repeat_loop step k greedy fuel lo hi s cs = Some x ->
    exists s' cs', capture i cs' = None /\ k s' cs' = Some x.
Proof.
  intros Hstep. induction fuel as [|fuel IH]; intros lo hi s cs x Hcs H.
  - cbn [repeat_loop] in H. now exists s, cs.
  - cbn [repeat_loop] in H.
    assert (Hiter : forall y,
      step s cs (fun s' cs' =>
        if Nat.eqb lo 0 && Nat.eqb (List.length s') (List.length s) then None
        else repeat_loop step k greedy fuel (pred lo) (option_map pred hi)
                         s' cs') = Some y ->
      exists s' cs', capture i cs' = None /\ k s' cs' = Some y).
    { intros y Hy. apply (Hstep _ _ _ _ Hcs) in Hy
        as (s1 & cs1 & Hcs1 & Hy).
      destruct (Nat.eqb lo 0 && Nat.eqb (List.length s1) (List.length s));
        [discriminate|].
      now apply (IH _ _ _ _ _ Hcs1 Hy). }
    destruct hi as [[|h]|]; [now exists s, cs| |].
    all: destruct lo as [|lo]; [|now apply Hiter].
    all: destruct greedy.
    all: match type of H with
         | match ?o with _ => _ end = _ => destruct o as [y|] eqn:E
         end.
    all: try (injection H as <-).
    all: try (now apply Hiter).
    all: try (now exists s, cs).
Qed.

Lemma m_keepsUnbound (ci : bool) (A : Type) (i : nat) (r : regex) :
  ~ In i (groups_of r) ->
  keepsUnbound i (fun s cs (k : jstring -> caps -> option A) => m ci r s cs k).
Proof.
  induction r as [|p| |neg items|r1 IH1 r2 IH2|r1 IH1 r2 IH2
                 |r1 IH1 lo hi greedy|j r1 IH1|];
    intros Hi s cs k x Hcs H; cbn [m] in H; cbn [groups_of] in Hi.
  - now exists s, cs.
  - destruct s as [|c s]; [discriminate|].
    destruct (char_match ci p c); [now exists s, cs | discriminate].
  - destruct s as [|c s]; [discriminate|].
    destruct (is_line_terminator c); [discriminate | now exists s, cs].
  - destruct s as [|c s]; [discriminate|].
    destruct (class_match ci neg items c); [now exists s, cs | discriminate].
  - assert (H1 : ~ In i (groups_of r1)) by (intros F; apply Hi, in_or_app; auto).
    assert (H2 : ~ In i (groups_of r2)) by (intros F; apply Hi, in_or_app; auto).
    apply (IH1 H1 _ _ _ _ Hcs) in H as (s1 & cs1 & Hcs1 & H).
    now apply (IH2 H2 _ _ _ _ Hcs1) in H.
  - assert (H1 : ~ In i (groups_of r1)) by (intros F; apply Hi, in_or_app; auto).
    assert (H2 : ~ In i (groups_of r2)) by (intros F; apply Hi, in_or_app; auto).
    destruct (m ci r1 s cs k) as [y|] eqn:E.
    + injection H as <-. now apply (IH1 H1 _ _ _ _ Hcs) in E.
    + now apply (IH2 H2 _ _ _ _ Hcs) in H.
  - apply (repeat_loop_keepsUnbound A i _ k greedy) in H; [exact H| |exact Hcs].
    intros s0 cs0 k0 y Hcs0 Hy.
    apply (IH1 Hi _ _ _ _ (capture_clear_groups i _ cs0 Hcs0)) in Hy.
    exact Hy.
  - assert (Hij : Nat.eqb i j = false).
    { apply Nat.eqb_neq. intros ->. apply Hi. now left. }
    assert (H1 : ~ In i (groups_of r1)) by (intros F; apply Hi; now right).
    apply (IH1 H1 _ _ _ _ Hcs) in H as (s1 & cs1 & Hcs1 & H).
    eexists _, _. split; [|exact H]. cbn [capture]. now rewrite Hij.
  - destruct s; [now exists [], cs | discriminate].
Qed.

(** A pattern without a group of index [i] leaves [match[i]] undefined. *)
Lemma match_group_absent (rx : RegExp) (r : regex) (i : nat) (s : jstring) :
  pattern rx = Some r -> ~ In i (groups_of r) -> match_group rx i s = None.
Proof.
  intros Hr Hi. unfold match_group, exec. rewrite Hr.
  generalize 0%nat. induction s as [|c s IH]; intros n; cbn [search].
  - destruct (match_here (ignoreCase rx) r []) as [[len cs]|] eqn:E;
      [|reflexivity].
    unfold match_here in E.
    apply (m_keepsUnbound _ _ i r Hi _ [] _ _ eq_refl) in E
      as (s1 & cs1 & Hcs1 & E).
    injection E as _ <-. now rewrite Hcs1.
  - destruct (match_here (ignoreCase rx) r (c :: s)) as [[len cs]|] eqn:E;
      [|apply IH].
    unfold match_here in E.
    apply (m_keepsUnbound _ _ i r Hi _ [] _ _ eq_refl) in E
      as (s1 & cs1 & Hcs1 & E).
    injection E as _ <-. now rewrite Hcs1.
Qed.

(** ** Soundness *)


Lemma capture_clear_groups_some (i : nat) (gs : list nat) (cs : caps)
    (v : jstring) :
  capture i (clear_groups gs cs) = Some v -> capture i cs = Some v.
Proof.
  unfold clear_groups. induction cs as [|[j u] cs IH]; [discriminate|].
  cbn [filter fst capture].
  destruct (negb (existsb (Nat.eqb j) gs)) eqn:E; cbn [capture].
  - destruct (Nat.eqb i j); auto.
  - intros H. destruct (Nat.eqb i j) eqn:Eij; [|now apply IH].
    apply Nat.eqb_eq in Eij. subst j.
    exfalso. clear IH. apply negb_false_iff in E.
    induction cs as [|[j u'] cs IH]; [discriminate|].
    cbn [filter fst] in H.
    destruct (negb (existsb (Nat.eqb j) gs)) eqn:F.
    + cbn [capture] in H. destruct (Nat.eqb i j) eqn:Eij; [|now apply IH].
      apply Nat.eqb_eq in Eij. subst j. rewrite E in F. discriminate.
    + now apply IH.
Qed.

Lemma goodCaps_clear (ci : bool) (T : list (nat * regex)) (gs : list nat)
    (cs : caps) :
  goodCaps ci T cs -> goodCaps ci T (clear_groups gs cs).
Proof.
  intros H i v Hv. apply H. now apply capture_clear_groups_some in Hv.
Qed.

Lemma repeat_loop_sound (A : Type) (ci : bool) (T : list (nat * regex))
    (lang : jstring -> Prop)
    (step : jstring -> caps -> (jstring -> caps -> option A) -> option A)
    (k : jstring -> caps -> option A) (greedy : bool) :
  sound ci T lang step ->
  forall fuel lo hi s cs x,
    goodCaps ci T cs ->
    repeat_loop step k greedy fuel lo hi s cs = Some x ->
    exists ws s' cs',
      s = List.concat ws ++ s' /\ Forall lang ws /\ goodCaps ci T cs'
      /\ k s' cs' = Some x.
Proof.
  intros Hstep. induction fuel as [|fuel IH]; intros lo hi s cs x Hcs H.
  - cbn [repeat_loop] in H. now exists [], s, cs.
  - cbn [repeat_loop] in H.
    assert (Hstop : k s cs = Some x ->
              exists ws s' cs',
                s = List.concat ws ++ s' /\ Forall lang ws
                /\ goodCaps ci T cs' /\ k s' cs' = Some x)
      by (intros E; now exists [], s, cs).
    assert (Hiter : forall y,
      step s cs (fun s' cs' =>
        if Nat.eqb lo 0 && Nat.eqb (List.length s') (List.length s) then None
        else repeat_loop step k greedy fuel (pred lo) (option_map pred hi)
                         s' cs') = Some y ->
      exists ws s' cs',
        s = List.concat ws ++ s' /\ Forall lang ws /\ goodCaps ci T cs'
        /\ k s' cs' = Some y).
    { intros y Hy. apply (Hstep _ _ _ _ Hcs) in Hy
        as (w & s1 & cs1 & -> & Hw & Hcs1 & Hy).
      destruct (Nat.eqb lo 0
                && Nat.eqb (List.length s1) (List.length (w ++ s1)));
        [discriminate|].
      apply (IH _ _ _ _ _ Hcs1) in Hy as (ws & s2 & cs2 & -> & Hws & Hcs2 & Hy).
      exists (w :: ws), s2, cs2. cbn [List.concat].
      rewrite <- app_assoc. repeat split; auto. }
    destruct hi as [[|h]|]; [now apply Hstop| |].
    all: destruct lo as [|lo]; [|now apply Hiter].
    all: destruct greedy.
    all: match type of H with
         | match ?o with _ => _ end = _ => destruct o as [y|] eqn:E
         end.
    all: try (injection H as <-).
    all: try (now apply Hiter).
    all: try (now apply Hstop).
Qed.

Lemma m_sound (ci : bool) (A : Type) (T : list (nat * regex)) (r : regex) :
  incl (groupBodies r) T ->
  sound ci T (matched ci r)
        (fun s cs (k : jstring -> caps -> option A) => m ci r s cs k).
Proof.
  induction r as [|p| |neg items|r1 IH1 r2 IH2|r1 IH1 r2 IH2
                 |r1 IH1 lo hi greedy|j r1 IH1|];
    intros HT s cs k x Hcs H; cbn [m] in H; cbn [groupBodies] in HT;
    cbn [matched].
  - now exists [], s, cs.
  - destruct s as [|c s]; [discriminate|].
    destruct (char_match ci p c) eqn:E; [|discriminate].
    exists [c], s, cs. repeat split; eauto.
  - destruct s as [|c s]; [discriminate|].
    destruct (is_line_terminator c) eqn:E; [discriminate|].
    exists [c], s, cs. repeat split; eauto.
  - destruct s as [|c s]; [discriminate|].
    destruct (class_match ci neg items c) eqn:E; [|discriminate].
    exists [c], s, cs. repeat split; eauto.
  - assert (H1 : incl (groupBodies r1) T)
      by (intros z Hz; apply HT, in_or_app; auto).
    assert (H2 : incl (groupBodies r2) T)
      by (intros z Hz; apply HT, in_or_app; auto).
    apply (IH1 H1 _ _ _ _ Hcs) in H as (w1 & s1 & cs1 & -> & Hw1 & Hcs1 & H).
    apply (IH2 H2 _ _ _ _ Hcs1) in H as (w2 & s2 & cs2 & -> & Hw2 & Hcs2 & H).
    exists (w1 ++ w2), s2, cs2. rewrite <- app_assoc.
    repeat split; eauto.
  - assert (H1 : incl (groupBodies r1) T)
      by (intros z Hz; apply HT, in_or_app; auto).
    assert (H2 : incl (groupBodies r2) T)
      by (intros z Hz; apply HT, in_or_app; auto).
    destruct (m ci r1 s cs k) as [y|] eqn:E.
    + injection H as <-.
      apply (IH1 H1 _ _ _ _ Hcs) in E as (w & s1 & cs1 & -> & Hw & Hcs1 & E).
      exists w, s1, cs1. repeat split; auto.
    + apply (IH2 H2 _ _ _ _ Hcs) in H as (w & s1 & cs1 & -> & Hw & Hcs1 & H).
      exists w, s1, cs1. repeat split; auto.
  - apply (repeat_loop_sound A ci T (matched ci r1) _ k greedy) in H;
      [|clear H|exact Hcs].
    + destruct H as (ws & s1 & cs1 & -> & Hws & Hcs1 & H).
      exists (List.concat ws), s1, cs1. repeat split; eauto.
    + intros s0 cs0 k0 y Hcs0 Hy.
      apply (IH1 HT _ _ _ _ (goodCaps_clear ci T _ cs0 Hcs0)) in Hy.
      exact Hy.
  - assert (H1 : incl (groupBodies r1) T)
      by (intros z Hz; apply HT; now right).
    apply (IH1 H1 _ _ _ _ Hcs) in H as (w & s1 & cs1 & -> & Hw & Hcs1 & H).
    exists w, s1,
      ((j, firstn (List.length (w ++ s1) - List.length s1) (w ++ s1)) :: cs1).
    repeat split; [exact Hw| |exact H].
    intros i v Hv. cbn [capture] in Hv.
    destruct (Nat.eqb i j) eqn:Eij; [|now apply Hcs1].
    apply Nat.eqb_eq in Eij. subst j. injection Hv as <-.
    exists r1. split; [apply HT; now left|].
    rewrite length_app.
    replace (List.length w + List.length s1 - List.length s1)%nat
      with (List.length w + 0)%nat by lia.
    rewrite firstn_app_2, firstn_O, app_nil_r. exact Hw.
  - destruct s; [|discriminate]. now exists [], [], cs.
Qed.

(** [match[i]] is a text that the body of a group of index [i] can
    consume. *)
Lemma match_group_sound (rx : RegExp) (r : regex) (i : nat) (s v : jstring) :
  pattern rx = Some r -> match_group rx i s = Some v ->
  exists body, In (i, body) (groupBodies r)
               /\ matched (ignoreCase rx) body v.
Proof.
  intros Hr. unfold match_group, exec. rewrite Hr.
  generalize 0%nat. induction s as [|c s IH]; intros n; cbn [search].
  - destruct (match_here (ignoreCase rx) r []) as [[len cs]|] eqn:E;
      [|discriminate].
    unfold match_here in E.
    apply (m_sound _ _ (groupBodies r) r (incl_refl _) _ []) in E
      as (w & s1 & cs1 & _ & _ & Hcs1 & E); [|intros j u; discriminate].
    injection E as _ <-.
    destruct (capture i cs1) as [[|d u]|] eqn:Ev; try discriminate.
    intros Hv. injection Hv as <-. now apply Hcs1.
  - destruct (match_here (ignoreCase rx) r (c :: s)) as [[len cs]|] eqn:E;
      [|apply IH].
    unfold match_here in E.
    apply (m_sound _ _ (groupBodies r) r (incl_refl _) _ []) in E
      as (w & s1 & cs1 & _ & _ & Hcs1 & E); [|intros j u; discriminate].
    injection E as _ <-.
    destruct (capture i cs1) as [[|d u]|] eqn:Ev; try discriminate.
    intros Hv. injection Hv as <-. now apply Hcs1.
Qed.

End EngineFacts.

(* ================================================================== *)
(** * Facts about the matcher *)
(* ================================================================== *)

Module RegexFacts.

Import Vocabulary StringFacts.

Local Open Scope list_scope.

Lemma anySuffix_ext (f g : jstring -> bool) (s : jstring) :
  (forall t, f t = g t) -> anySuffix f s = anySuffix g s.
Proof.
  intros H. induction s as [|c s IH]; simpl; rewrite H; [reflexivity|].
  now rewrite IH.
Qed.

Lemma anySuffix_impl (f g : jstring -> bool) (s : jstring) :
  (forall t, f t = true -> g t = true) ->
  anySuffix f s = true -> anySuffix g s = true.
Proof.
  intros H. induction s as [|c s IH]; simpl; intros E.
  - rewrite orb_false_r in *. auto.
  - apply orb_true_iff in E as [E|E]; apply orb_true_iff; auto.
Qed.

Lemma anySuffix_split (f : jstring -> bool) (s : jstring) :
  anySuffix f s = true <-> exists pre post, s = pre ++ post /\ f post = true.
Proof.
  split.
  - induction s as [|c s IH]; simpl; intros E.
    + rewrite orb_false_r in E. now exists [], [].
    + apply orb_true_iff in E as [E|E].
      * now exists [], (c :: s).
      * destruct (IH E) as (pre & post & -> & Hf).
        now exists (c :: pre), post.
  - intros (pre & post & -> & Hf).
    induction pre as [|c pre IH]; simpl.
    + destruct post; simpl; rewrite Hf; reflexivity.
    + rewrite IH. apply orb_true_r.
Qed.

Lemma includes_anySuffix (s t : jstring) :
  includes s t = anySuffix (starts_with t) s.
Proof.
  induction s as [|c s IH]; simpl; [reflexivity|]. now rewrite IH.
Qed.

Lemma anySuffix_orb (f g : jstring -> bool) (s : jstring) :
  anySuffix (fun t => f t || g t) s = anySuffix f s || anySuffix g s.
Proof.
  induction s as [|c s IH]; simpl.
  - now rewrite !orb_false_r.
  - rewrite IH.
    destruct (f (c :: s)), (g (c :: s)), (anySuffix f s), (anySuffix g s);
      reflexivity.
Qed.

Lemma anySuffix_never (s : jstring) : anySuffix (fun _ => false) s = false.
Proof. induction s as [|c s IH]; simpl; auto. Qed.

Lemma anySuffix_existsb {X : Type} (f : X -> jstring -> bool) (xs : list X)
    (s : jstring) :
  anySuffix (fun t => existsb (fun x => f x t) xs) s
  = existsb (fun x => anySuffix (f x) s) xs.
Proof.
  induction xs as [|x xs IH]; cbn [existsb].
  - apply anySuffix_never.
  - now rewrite anySuffix_orb, IH.
Qed.

(** ** Searching *)

Lemma search_anySuffix (ci : bool) (r : regex) (i : nat) (s : jstring) :
  isSome (search ci r i s) = anySuffix (fun t => isSome (match_here ci r t)) s.
Proof.
  revert i. induction s as [|c s IH]; intros i; simpl.
  - destruct (match_here ci r []) as [[len cs]|]; reflexivity.
  - destruct (match_here ci r (c :: s)) as [[len cs]|]; simpl;
      [reflexivity|]. apply IH.
Qed.

Lemma test_anySuffix (rx : RegExp) (r : regex) (s : jstring) :
  pattern rx = Some r ->
  test rx s = anySuffix (fun t => isSome (match_here (ignoreCase rx) r t)) s.
Proof.
  intros H. unfold test, exec. rewrite H.
  rewrite <- (search_anySuffix (ignoreCase rx) r 0 s).
  now destruct (search (ignoreCase rx) r 0 s).
Qed.

(** ** Replacing *)

(** A replacement brings in no character from outside the text and the
    replacement text. *)
Lemma In_replace_go (ci g : bool) (r : regex) (rep : jstring) (c : N)
    (s : jstring) :
  forall (live : bool) (skip : nat),
    In c (replace_go ci g r rep live skip s) -> In c s \/ In c rep.
Proof.
  induction s as [|d s IH]; intros live skip.
  - destruct skip as [|n]; simpl; [|intros []].
    destruct (if live then match_here ci r [] else None) as [[[|n] cs]|];
      rewrite ?app_nil_r; simpl; auto.
  - destruct skip as [|n]; simpl.
    + destruct (if live then match_here ci r (d :: s) else None)
        as [[[|n] cs]|]; simpl.
      * intros H. apply in_app_or in H as [H|[H|H]]; auto.
        destruct (IH _ _ H); auto.
      * intros H. apply in_app_or in H as [H|H]; auto.
        destruct (IH _ _ H); auto.
      * intros [H|H]; auto. destruct (IH _ _ H); auto.
    + intros H. destruct (IH _ _ H); auto.
Qed.

Lemma In_replace (rx : RegExp) (rep : jstring) (c : N) (s : jstring) :
  In c (replace rx rep s) -> In c s \/ In c rep.
Proof.
  unfold replace. destruct (pattern rx); [apply In_replace_go | auto].
Qed.

Lemma In_replace_nothing (rx : RegExp) (c : N) (s : jstring) :
  In c (replace rx [] s) -> In c s.
Proof.
  intros H. apply In_replace in H as [H|[]]. exact H.
Qed.

(** Replacing a single character everywhere leaves none behind. *)
(** Replacing a single character everywhere leaves none behind. *)
Lemma match_here_char (p : N) (s : jstring) :
  match_here false (RChar p) s
  = match s with
    | c :: _ => if N.eqb p c then Some (1%nat, []) else None
    | [] => None
    end.
Proof.
  destruct s as [|c s]; [reflexivity|].
  unfold match_here. cbn [m]. unfold char_match.
  destruct (N.eqb p c); [|reflexivity].
  cbn [List.length].
  now replace (S (List.length s) - List.length s)%nat with 1%nat by lia.
Qed.

Lemma replace_char_everywhere (p q : N) (s : jstring) :
  replace_go false true (RChar p) [q] true O s
  = map (fun c => if N.eqb p c then q else c) s.
Proof.
  induction s as [|c s IH]; [reflexivity|].
  cbn [replace_go]. rewrite match_here_char.
  destruct (N.eqb p c) eqn:E; cbn [map app]; rewrite E.
  - now rewrite IH.
  - now rewrite IH.
Qed.

Lemma not_In_replace_char (p q : N) (s : jstring) :
  p <> q -> ~ In p (map (fun c => if N.eqb p c then q else c) s).
Proof.
  intros Hpq H. apply in_map_iff in H as (c & Hc & _).
  destruct (N.eqb p c) eqn:E; [congruence|].
  apply N.eqb_neq in E. congruence.
Qed.

End RegexFacts.

(* ================================================================== *)
(** * Facts about the history scan *)
(* ================================================================== *)

Module HistoryFacts.

Import MistralService Vocabulary.

(** A flag marked by a pattern list is the old flag or a match. *)
Lemma markAsked_orb (patterns : list RegExp) (text : jstring) (flag : bool) :
  markAsked patterns text flag
  = flag || existsb (fun p => test p text) patterns.
Proof.
  unfold markAsked. revert flag.
  induction patterns as [|p ps IH]; intros flag; simpl.
  - now rewrite orb_false_r.
  - rewrite IH. destruct (test p text), flag; reflexivity.
Qed.

Lemma markAsked_keeps (patterns : list RegExp) (text : jstring) :
  markAsked patterns text true = true.
Proof. now rewrite markAsked_orb. Qed.

Lemma asked_scanTurn (t : topic) (info : extractedInfo) (msg : turn) :
  asked t (scanTurn info msg) = asked t info || asks t msg.
Proof.
  unfold scanTurn, asks.
  destruct (t_role msg), t;
    cbn [asked askedAboutName askedAboutBudget askedAboutLocation
         askedAboutPropertyType questionPatternsOf];
    rewrite ?markAsked_orb, ?orb_false_r; reflexivity.
Qed.

Lemma asked_fold (t : topic) (w : list turn) (info : extractedInfo) :
  asked t (fold_left scanTurn w info) = asked t info || existsb (asks t) w.
Proof.
  revert info. induction w as [|msg w IH]; intros info;
    cbn [fold_left existsb].
  - now rewrite orb_false_r.
  - rewrite IH, asked_scanTurn. now rewrite orb_assoc.
Qed.

Lemma asked_extract (t : topic) (w : list turn) :
  asked t (extractInfoFromHistory w) = existsb (asks t) w.
Proof.
  unfold extractInfoFromHistory. rewrite asked_fold. now destruct t.
Qed.

(** ** The window *)

Lemma lastTen_app {X : Type} (old recent : list X) :
  (10 <= List.length recent)%nat ->
  lastTen (old ++ recent) = lastTen recent.
Proof.
  intros H. unfold lastTen. rewrite length_app, skipn_app.
  rewrite skipn_all2 by lia. cbn [app]. f_equal. lia.
Qed.

(** ** What the user provided *)

Lemma lastCapture_isSome (patterns : list RegExp) (text : jstring)
    (slot : option jstring) :
  isSome (lastCapture patterns text slot)
  = isSome slot || existsb (fun p => isSome (match_group p 1 text)) patterns.
Proof.
  unfold lastCapture. revert slot.
  induction patterns as [|p ps IH]; intros slot; cbn [fold_left existsb].
  - now rewrite orb_false_r.
  - rewrite IH. destruct (match_group p 1 text); cbn [isSome].
    + now rewrite orb_true_r.
    + reflexivity.
Qed.

Lemma lastIncluded_isSome (types : list jstring) (text : jstring)
    (slot : option jstring) :
  isSome (lastIncluded types text slot)
  = isSome slot || existsb (includes text) types.
Proof.
  unfold lastIncluded. revert slot.
  induction types as [|x xs IH]; intros slot; cbn [fold_left existsb].
  - now rewrite orb_false_r.
  - rewrite IH. destruct (includes text x); cbn [isSome].
    + now rewrite orb_true_r.
    + reflexivity.
Qed.

Lemma provided_scanTurn (t : topic) (info : extractedInfo) (msg : turn) :
  isSome (providedOn t (scanTurn info msg))
  = isSome (providedOn t info) || provides t msg.
Proof.
  unfold scanTurn, provides.
  destruct (t_role msg), t;
    cbn [providedOn provided p_name p_budget p_propertyType
         p_preferredLocation];
    rewrite ?lastCapture_isSome, ?lastIncluded_isSome, ?orb_false_r;
    try reflexivity.
  destruct (match_group locationResponsePattern 1 (content msg));
    cbn [isSome]; now rewrite ?orb_true_r, ?orb_false_r.
Qed.

Lemma provided_fold (t : topic) (w : list turn) (info : extractedInfo) :
  isSome (providedOn t (fold_left scanTurn w info))
  = isSome (providedOn t info) || existsb (provides t) w.
Proof.
  revert info. induction w as [|msg w IH]; intros info;
    cbn [fold_left existsb].
  - now rewrite orb_false_r.
  - rewrite IH, provided_scanTurn. now rewrite orb_assoc.
Qed.

Lemma provided_extract (t : topic) (w : list turn) :
  isSome (providedOn t (extractInfoFromHistory w)) = existsb (provides t) w.
Proof.
  unfold extractInfoFromHistory. rewrite provided_fold. now destruct t.
Qed.

(** ** The two roles *)

Lemma provided_by_users (w : list turn) (info1 info2 : extractedInfo) :
  provided info1 = provided info2 ->
  provided (fold_left scanTurn w info1)
  = provided (fold_left scanTurn (filter fromUser w) info2).
Proof.
  revert info1 info2. induction w as [|msg w IH]; intros info1 info2 H;
    [exact H|].
  cbn [fold_left filter]. unfold fromUser at 1.
  destruct (t_role msg) eqn:E.
  - cbn [fold_left]. apply IH. unfold scanTurn. rewrite E.
    cbn [provided]. now rewrite H.
  - apply IH. unfold scanTurn. rewrite E. exact H.
Qed.

Lemma asked_by_assistant (t : topic) (w : list turn) :
  existsb (asks t) w = existsb (asks t) (filter fromAssistant w).
Proof.
  induction w as [|msg w IH]; [reflexivity|].
  cbn [existsb filter]. unfold fromAssistant at 1, asks at 1.
  destruct (t_role msg) eqn:E; cbn [orb existsb]; [exact IH|].
  unfold asks at 2. rewrite E. now rewrite IH.
Qed.

End HistoryFacts.

(* ================================================================== *)
(** * Facts about the ranking *)
(* ================================================================== *)

Module RankingFacts.

Import WebSearchService Vocabulary.

Local Open Scope Z_scope.

Lemma insertByScore_perm (x : scored) (l : list scored) :
  Permutation (x :: l) (insertByScore x l).
Proof.
  induction l as [|y l IH]; simpl; [apply Permutation_refl|].
  destruct (0 <? relevanceScore y - relevanceScore x).
  - eapply perm_trans; [apply perm_swap|]. now apply perm_skip.
  - apply Permutation_refl.
Qed.

Lemma sortByScore_perm (l : list scored) : Permutation l (sortByScore l).
Proof.
  induction l as [|x l IH]; simpl; [constructor|].
  eapply perm_trans; [apply perm_skip, IH|]. apply insertByScore_perm.
Qed.

Lemma insertByScore_sorted (x : scored) (l : list scored) :
  StronglySorted outranks l -> StronglySorted outranks (insertByScore x l).
Proof.
  induction l as [|y l IH]; intros Hs; simpl.
  - constructor; constructor.
  - inversion Hs as [|? ? Hl Hy]; subst.
    destruct (0 <? relevanceScore y - relevanceScore x) eqn:E.
    + apply Z.ltb_lt in E. constructor; [now apply IH|].
      apply Forall_forall. intros z Hz.
      apply (Permutation_in _ (Permutation_sym (insertByScore_perm x l))) in Hz.
      destruct Hz as [<-|Hz].
      * unfold outranks. lia.
      * rewrite Forall_forall in Hy. now apply Hy.
    + apply Z.ltb_ge in E. constructor; [exact Hs|].
      constructor; [unfold outranks; lia|].
      rewrite Forall_forall in Hy |- *. intros z Hz.
      specialize (Hy z Hz). unfold outranks in *. lia.
Qed.

Lemma sortByScore_sorted (l : list scored) :
  StronglySorted outranks (sortByScore l).
Proof.
  induction l as [|x l IH]; simpl; [constructor|].
  now apply insertByScore_sorted.
Qed.

(** Stability: the hits of any one score keep their order. *)
Lemma insertByScore_stable (v : Z) (x : scored) (l : list scored) :
  filter (hasScore v) (insertByScore x l) = filter (hasScore v) (x :: l).
Proof.
  induction l as [|y l IH]; [reflexivity|].
  cbn [insertByScore].
  destruct (0 <? relevanceScore y - relevanceScore x) eqn:E; [|reflexivity].
  apply Z.ltb_lt in E.
  cbn [filter] in *. rewrite IH.
  unfold hasScore.
  destruct (relevanceScore y =? v) eqn:Ey, (relevanceScore x =? v) eqn:Ex;
    try reflexivity.
  apply Z.eqb_eq in Ey, Ex. lia.
Qed.

Lemma sortByScore_stable (v : Z) (l : list scored) :
  filter (hasScore v) (sortByScore l) = filter (hasScore v) l.
Proof.
  induction l as [|x l IH]; [reflexivity|].
  cbn [sortByScore fold_right]. fold (sortByScore l).
  rewrite insertByScore_stable. cbn [filter]. now rewrite IH.
Qed.

Lemma StronglySorted_app_inv {X : Type} (R : X -> X -> Prop) (a b : list X) :
  StronglySorted R (a ++ b) ->
  StronglySorted R a /\ StronglySorted R b /\
  Forall (fun x => Forall (R x) b) a.
Proof.
  induction a as [|x a IH]; simpl; intros H.
  - repeat split; [constructor | exact H | constructor].
  - inversion H as [|? ? Hs Hx]; subst.
    destruct (IH Hs) as (Ha & Hb & Hab).
    apply Forall_app in Hx as [Hxa Hxb].
    repeat split; [now constructor | exact Hb | now constructor].
Qed.

End RankingFacts.

(* ================================================================== *)
(** * Facts about the query enhancement *)
(* ================================================================== *)

Module EnhanceFacts.

Import WebSearchService Vocabulary StringFacts.

Local Open Scope string_scope.
Local Open Scope list_scope.

Lemma if_negb5 {X : Type} (a b c d e : bool) (x y : X) :
  (if negb a && negb b && negb c && negb d && negb e then x else y)
  = (if a || b || c || d || e then y else x).
Proof. now destruct a, b, c, d, e. Qed.

Lemma if_and_negb {X : Type} (c p : bool) (x y : X) :
  (if c && negb p then x else y) = (if negb c || p then y else x).
Proof. now destruct c, p. Qed.

Lemma if_and_negb2 {X : Type} (c p q : bool) (x y : X) :
  (if c && negb p && negb q then x else y)
  = (if negb c || p || q then y else x).
Proof. now destruct c, p, q. Qed.

Section Enhance.
Variable i : intent.

Lemma buildEnhancedQuery_steps (query : jstring) :
  buildEnhancedQuery query i
  = addUnless (hasBedrooms i) (js " " ++ bedrooms i ++ js " bhk")
      (addUnless (hasBudget i) (js " " ++ budget i)
        (addUnless (hasTransactionType i) (js " for " ++ transactionType i)
          (addUnless (hasPropertyType i) (js " " ++ propertyType i)
            (addUnless (hasLocation i) (js " in " ++ location i)
              (addUnless hasContext (js " real estate property") query)))))
    ++ portalSuffix.
Proof.
  unfold buildEnhancedQuery, addUnless, hasBedrooms, hasBudget,
    hasTransactionType, hasPropertyType, hasLocation, hasContext,
    portalSuffix.
  cbv zeta.
  rewrite if_negb5, if_and_negb2, !if_and_negb.
  reflexivity.
Qed.



Lemma orb_mono (a b a' b' : bool) :
  (a = true -> a' = true) -> (b = true -> b' = true) ->
  a || b = true -> a' || b' = true.
Proof. destruct a, b, a', b'; intuition. Qed.

Lemma lower_includes_mono (e x t : jstring) :
  includes (toLowerCase e) t = true ->
  includes (toLowerCase (e ++ x)) t = true.
Proof. rewrite toLowerCase_app. apply includes_app_l. Qed.

Lemma hasContext_mono : monotone hasContext.
Proof.
  intros e x. unfold hasContext.
  repeat apply orb_mono; apply lower_includes_mono.
Qed.

Lemma hasLocation_mono : monotone (hasLocation i).
Proof.
  intros e x. unfold hasLocation.
  apply orb_mono; [auto | apply lower_includes_mono].
Qed.

Lemma hasPropertyType_mono : monotone (hasPropertyType i).
Proof.
  intros e x. unfold hasPropertyType.
  apply orb_mono; [auto | apply lower_includes_mono].
Qed.

Lemma hasTransactionType_mono : monotone (hasTransactionType i).
Proof.
  intros e x. unfold hasTransactionType.
  apply orb_mono; [auto | apply lower_includes_mono].
Qed.

Lemma hasBudget_mono : monotone (hasBudget i).
Proof.
  intros e x. unfold hasBudget.
  apply orb_mono; [auto | apply includes_app_l].
Qed.

Lemma hasBedrooms_mono : monotone (hasBedrooms i).
Proof.
  intros e x. unfold hasBedrooms.
  repeat apply orb_mono; auto; apply lower_includes_mono.
Qed.

Lemma addUnless_mono (p q : jstring -> bool) (extra e : jstring) :
  monotone q -> q e = true -> q (addUnless p extra e) = true.
Proof.
  intros Hq He. unfold addUnless. destruct (p e); [exact He|].
  now apply Hq.
Qed.

Lemma addUnless_establishes (p : jstring -> bool) (extra e : jstring) :
  p (e ++ extra) = true -> p (addUnless p extra e) = true.
Proof.
  intros H. unfold addUnless. now destruct (p e) eqn:E.
Qed.

(** What each step appends makes its own check succeed. *)
Lemma context_added (e : jstring) :
  hasContext (e ++ js " real estate property") = true.
Proof.
  unfold hasContext. rewrite toLowerCase_app.
  replace (includes (toLowerCase e ++ toLowerCase (js " real estate property"))
                    (js "real estate")) with true; [reflexivity|].
  symmetry. apply includes_app_r. vm_compute. reflexivity.
Qed.

Lemma location_added (e : jstring) :
  (hasLocation i) (e ++ js " in " ++ location i) = true.
Proof.
  unfold hasLocation. rewrite app_assoc, toLowerCase_app.
  rewrite includes_suffix. apply orb_true_r.
Qed.

Lemma propertyType_added (e : jstring) :
  (hasPropertyType i) (e ++ js " " ++ propertyType i) = true.
Proof.
  unfold hasPropertyType. rewrite app_assoc, toLowerCase_app.
  rewrite includes_suffix. apply orb_true_r.
Qed.

Lemma budget_added (e : jstring) :
  (hasBudget i) (e ++ js " " ++ budget i) = true.
Proof.
  unfold hasBudget. rewrite app_assoc.
  rewrite includes_suffix. apply orb_true_r.
Qed.

Hypothesis transactionType_lower :
  toLowerCase (transactionType i) = transactionType i.
Hypothesis bedrooms_lower : toLowerCase (bedrooms i) = bedrooms i.

Lemma transactionType_added (e : jstring) :
  (hasTransactionType i) (e ++ js " for " ++ transactionType i) = true.
Proof.
  unfold hasTransactionType. rewrite app_assoc, toLowerCase_app.
  rewrite transactionType_lower.
  rewrite includes_suffix. apply orb_true_r.
Qed.

Lemma bedrooms_added (e : jstring) :
  (hasBedrooms i) (e ++ js " " ++ bedrooms i ++ js " bhk") = true.
Proof.
  unfold hasBedrooms. rewrite app_assoc, toLowerCase_app.
  rewrite (toLowerCase_app (bedrooms i)), bedrooms_lower.
  change (toLowerCase (js " bhk")) with (js " bhk").
  rewrite includes_suffix. now rewrite orb_true_r.
Qed.

Lemma built_saturated (query : jstring) :
  (saturated i) (buildEnhancedQuery query i) = true.
Proof.
  rewrite buildEnhancedQuery_steps.
  set (e1 := addUnless hasContext _ query).
  set (e2 := addUnless (hasLocation i) _ e1).
  set (e3 := addUnless (hasPropertyType i) _ e2).
  set (e4 := addUnless (hasTransactionType i) _ e3).
  set (e5 := addUnless (hasBudget i) _ e4).
  set (e6 := addUnless (hasBedrooms i) _ e5).
  assert (H1 : hasContext e1 = true)
    by apply addUnless_establishes, context_added.
  assert (H2 : (hasLocation i) e2 = true)
    by apply addUnless_establishes, location_added.
  assert (H3 : (hasPropertyType i) e3 = true)
    by apply addUnless_establishes, propertyType_added.
  assert (H4 : (hasTransactionType i) e4 = true)
    by apply addUnless_establishes, transactionType_added.
  assert (H5 : (hasBudget i) e5 = true)
    by apply addUnless_establishes, budget_added.
  assert (H6 : (hasBedrooms i) e6 = true)
    by apply addUnless_establishes, bedrooms_added.
  pose proof hasContext_mono as M1.
  pose proof hasLocation_mono as M2.
  pose proof hasPropertyType_mono as M3.
  pose proof hasTransactionType_mono as M4.
  pose proof hasBudget_mono as M5.
  pose proof hasBedrooms_mono as M6.
  unfold saturated. rewrite !andb_true_iff. repeat split.
  - apply M1. subst e6 e5 e4 e3 e2.
    do 5 (apply addUnless_mono; [exact M1|]). assumption.
  - apply M2. subst e6 e5 e4 e3.
    do 4 (apply addUnless_mono; [exact M2|]). assumption.
  - apply M3. subst e6 e5 e4.
    do 3 (apply addUnless_mono; [exact M3|]). assumption.
  - apply M4. subst e6 e5.
    do 2 (apply addUnless_mono; [exact M4|]). assumption.
  - apply M5. subst e6.
    do 1 (apply addUnless_mono; [exact M5|]). assumption.
  - now apply M6.
Qed.


End Enhance.

(** ** What a step can add *)

Lemma addUnless_adds (present : jstring -> bool) (extra e : jstring) :
  exists t, addUnless present extra e = e ++ t
            /\ (List.length t <= List.length extra)%nat.
Proof.
  unfold addUnless. destruct (present e).
  - exists []. rewrite app_nil_r. split; [reflexivity | cbn; lia].
  - exists extra. split; [reflexivity | lia].
Qed.

Lemma buildEnhancedQuery_adds (query : jstring) (i : intent) :
  exists added,
    buildEnhancedQuery query i = query ++ added ++ portalSuffix
    /\ (List.length added
        <= List.length (js " real estate property")
           + List.length (js " in " ++ location i)
           + List.length (js " " ++ propertyType i)
           + List.length (js " for " ++ transactionType i)
           + List.length (js " " ++ budget i)
           + List.length (js " " ++ bedrooms i ++ js " bhk"))%nat.
Proof.
  rewrite buildEnhancedQuery_steps.
  destruct (addUnless_adds hasContext (js " real estate property") query)
    as (t1 & -> & H1).
  destruct (addUnless_adds (hasLocation i) (js " in " ++ location i)
                           (query ++ t1)) as (t2 & -> & H2).
  destruct (addUnless_adds (hasPropertyType i) (js " " ++ propertyType i)
                           ((query ++ t1) ++ t2)) as (t3 & -> & H3).
  destruct (addUnless_adds (hasTransactionType i)
                           (js " for " ++ transactionType i)
                           (((query ++ t1) ++ t2) ++ t3)) as (t4 & -> & H4).
  destruct (addUnless_adds (hasBudget i) (js " " ++ budget i)
                           ((((query ++ t1) ++ t2) ++ t3) ++ t4))
    as (t5 & -> & H5).
  destruct (addUnless_adds (hasBedrooms i)
                           (js " " ++ bedrooms i ++ js " bhk")
                           (((((query ++ t1) ++ t2) ++ t3) ++ t4) ++ t5))
    as (t6 & -> & H6).
  exists (t1 ++ t2 ++ t3 ++ t4 ++ t5 ++ t6). split.
  - now rewrite <- !app_assoc.
  - rewrite !length_app in *. lia.
Qed.

End EnhanceFacts.

(* ================================================================== *)
(** * Facts about the site tiers *)
(* ================================================================== *)

Module ScoreFacts.

Import WebSearchService Vocabulary.

Local Open Scope string_scope.
Local Open Scope list_scope.

Lemma premiumSites_eq :
  premiumSites = [js "99acres"; js "magicbricks"; js "housing"; js "nobroker";
                  js "commonfloor"; js "squareyards"; js "makaan"; js "proptiger"].
Proof. vm_compute. reflexivity. Qed.

Lemma shared_site_is_premium (link site : jstring) :
  In site [js "commonfloor"; js "squareyards"; js "makaan"; js "proptiger"] ->
  includes link site = true ->
  existsb (includes link) premiumSites = true.
Proof.
  intros Hin Hs. apply existsb_exists. exists site. split; [|exact Hs].
  rewrite premiumSites_eq. simpl in *. tauto.
Qed.

Lemma standard_match_cases (link : jstring) :
  existsb (includes link) standardSites = true ->
  existsb (includes link) premiumSites = true \/
  includes link (js "propertywala") = true \/
  includes link (js "indiaproperty") = true.
Proof.
  intros H. apply existsb_exists in H as (site & Hin & Hs).
  unfold standardSites in Hin.
  destruct Hin as [<-|[<-|[<-|[<-|[<-|[<-|[]]]]]]].
  1-4: left; eapply shared_site_is_premium; [|exact Hs]; simpl; tauto.
  - right; left; exact Hs.
  - right; right; exact Hs.
Qed.

(** ** The range of the score *)

Local Open Scope Z_scope.

Ltac branches :=
  repeat match goal with
         | |- context [if ?c then _ else _] => destruct c
         | |- context [match ?x with Some _ => _ | None => _ end] =>
             destruct x
         end;
  lia.

Lemma siteScore_range (link : jstring) : 0 <= siteScore link <= 20.
Proof.
  unfold siteScore, otherBonus, standardBonus, premiumBonus.
  destruct (existsb (includes link) premiumSites).
  - change (0 + 20) with 20. change (20 =? 0) with false. cbv iota.
    change (20 =? 0) with false. cbv iota. lia.
  - change (0 =? 0) with true. cbv iota.
    destruct (existsb (includes link) standardSites).
    + change (0 + 15) with 15. change (15 =? 0) with false. cbv iota. lia.
    + change (0 =? 0) with true. cbv iota.
      destruct (existsb (includes link) otherSites); lia.
Qed.

Lemma propertyTypeScore_range (title snippet propertyType : jstring) :
  0 <= propertyTypeScore title snippet propertyType <= 12.
Proof. unfold propertyTypeScore. branches. Qed.

Lemma locationScore_range (title snippet location : jstring) :
  0 <= locationScore title snippet location <= 15.
Proof. unfold locationScore. branches. Qed.

Lemma priceScore_range (title snippet : jstring) :
  0 <= priceScore title snippet <= 8.
Proof. unfold priceScore. branches. Qed.

Lemma bedroomScore_range (title snippet bedrooms : jstring) :
  0 <= bedroomScore title snippet bedrooms <= 15.
Proof. unfold bedroomScore. branches. Qed.

Lemma detailScore_range (title snippet : jstring) :
  0 <= detailScore title snippet <= 12.
Proof. unfold detailScore. branches. Qed.

Lemma recencyScore_range (title snippet : jstring) :
  0 <= recencyScore title snippet <= 5.
Proof. unfold recencyScore. branches. Qed.

Lemma transactionScore_range (title snippet transactionType : jstring) :
  -15 <= transactionScore title snippet transactionType <= 10.
Proof. unfold transactionScore. branches. Qed.

Lemma unrelatedPenalty_range (title snippet : jstring) :
  -20 <= unrelatedPenalty title snippet <= 0.
Proof. unfold unrelatedPenalty. branches. Qed.

Lemma detailTermScore_range (title snippet : jstring) :
  0 <= detailTermScore title snippet <= 10.
Proof. unfold detailTermScore. branches. Qed.

Lemma pagemapScore_range (pm : option pagemapObj) :
  0 <= pagemapScore pm <= 23.
Proof. unfold pagemapScore. branches. Qed.

Lemma completenessScore_range (title snippet link : jstring) :
  0 <= completenessScore title snippet link <= 5.
Proof. unfold completenessScore. branches. Qed.

Lemma calculateRelevanceScore_range (it : item)
    (query location propertyType transactionType bedrooms : jstring) :
  -35 <= calculateRelevanceScore it query location propertyType
                                 transactionType bedrooms <= 135.
Proof.
  unfold calculateRelevanceScore. cbv zeta.
  pose proof (siteScore_range (toLowerCase (link it))).
  pose proof (propertyTypeScore_range (toLowerCase (title it))
                (toLowerCase (snippet it)) propertyType).
  pose proof (locationScore_range (toLowerCase (title it))
                (toLowerCase (snippet it)) location).
  pose proof (priceScore_range (toLowerCase (title it))
                (toLowerCase (snippet it))).
  pose proof (bedroomScore_range (toLowerCase (title it))
                (toLowerCase (snippet it)) bedrooms).
  pose proof (detailScore_range (toLowerCase (title it))
                (toLowerCase (snippet it))).
  pose proof (recencyScore_range (toLowerCase (title it))
                (toLowerCase (snippet it))).
  pose proof (transactionScore_range (toLowerCase (title it))
                (toLowerCase (snippet it)) transactionType).
  pose proof (unrelatedPenalty_range (toLowerCase (title it))
                (toLowerCase (snippet it))).
  pose proof (detailTermScore_range (toLowerCase (title it))
                (toLowerCase (snippet it))).
  pose proof (pagemapScore_range (pagemap it)).
  pose proof (completenessScore_range (toLowerCase (title it))
                (toLowerCase (snippet it)) (toLowerCase (link it))).
  lia.
Qed.

End ScoreFacts.

(* ================================================================== *)
(** * Facts about the response post-processing *)
(* ================================================================== *)

Module ResponseFacts.

Import MistralService Vocabulary StringFacts RegexFacts.

Local Open Scope string_scope.
Local Open Scope list_scope.

Lemma noQuestionMark_check (s : jstring) :
  forallb (fun c => negb (N.eqb qmark c)) s = true -> noQuestionMark s.
Proof.
  intros H Hin. rewrite forallb_forall in H. specialize (H _ Hin).
  now rewrite N.eqb_refl in H.
Qed.

Lemma noQuestionMark_app (a b : jstring) :
  noQuestionMark a -> noQuestionMark b -> noQuestionMark (a ++ b).
Proof.
  intros Ha Hb H. apply in_app_or in H as [H|H]; auto.
Qed.

Lemma noQuestionMark_replace (rx : RegExp) (rep s : jstring) :
  noQuestionMark s -> noQuestionMark rep -> noQuestionMark (replace rx rep s).
Proof.
  intros Hs Hrep H. apply In_replace in H as [H|H]; auto.
Qed.

Lemma noQuestionMark_trim (s : jstring) :
  noQuestionMark s -> noQuestionMark (trim s).
Proof. intros Hs H. apply Hs. now apply In_trim. Qed.

Lemma noQuestionMark_removeAll (patterns : list RegExp) (s : jstring) :
  noQuestionMark s ->
  noQuestionMark (fold_left (fun acc p => replace p [] acc) patterns s).
Proof.
  revert s. induction patterns as [|p ps IH]; intros s Hs; simpl; [exact Hs|].
  apply IH. apply noQuestionMark_replace; [exact Hs | intros []].
Qed.

Lemma questionMarkPattern :
  re "\?" "g"
  = {| pattern := Some (RChar qmark); ignoreCase := false; global := true |}.
Proof. vm_compute. reflexivity. Qed.

(** Step 5 of the pipeline removes every question mark. *)
Lemma noQuestionMark_after_conversion (s : jstring) :
  noQuestionMark (replace (re "\?" "g") (js ".") s).
Proof.
  rewrite questionMarkPattern. unfold replace.
  cbn [pattern ignoreCase global].
  change (js ".") with [46%N].
  rewrite replace_char_everywhere.
  apply not_In_replace_char. discriminate.
Qed.

Lemma noQuestionMark_cleanResponse (aiResponse userMessage : jstring) :
  noQuestionMark (cleanResponse aiResponse userMessage).
Proof.
  unfold cleanResponse. cbv zeta.
  apply noQuestionMark_replace;
    [|apply noQuestionMark_check; vm_compute; reflexivity].
  apply noQuestionMark_trim.
  apply noQuestionMark_replace;
    [|apply noQuestionMark_check; vm_compute; reflexivity].
  apply noQuestionMark_replace;
    [|apply noQuestionMark_check; vm_compute; reflexivity].
  destruct (isConversationEnding userMessage).
  - match goal with
    | |- noQuestionMark (if ?c then _ else _) => destruct c
    end.
    + apply noQuestionMark_app;
        [|apply noQuestionMark_check; vm_compute; reflexivity].
      apply noQuestionMark_removeAll, noQuestionMark_after_conversion.
    + apply noQuestionMark_removeAll, noQuestionMark_after_conversion.
  - apply noQuestionMark_after_conversion.
Qed.

(** The digest has a question mark only where a hit has one. *)
Lemma In_digits_go (fuel : nat) (n : N) (acc : jstring) (c : N) :
  In c (digits_go fuel n acc) -> In c acc \/ (48 <= c <= 57)%N.
Proof.
  revert n acc. induction fuel as [|f IH]; intros n acc; simpl; [auto|].
  assert (Hd : (48 <= 48 + n mod 10 <= 57)%N).
  { pose proof (N.mod_upper_bound n 10 ltac:(discriminate)) as Hm.
    revert Hm. generalize (n mod 10)%N. intros x Hx. lia. }
  destruct (N.eqb (n / 10) 0).
  - intros [<-|H]; auto.
  - intros H. apply IH in H as [[<-|H]|H]; auto.
Qed.

Lemma noQuestionMark_of_nat (n : nat) : noQuestionMark (of_nat n).
Proof.
  intros H. apply In_digits_go in H as [[]|H].
  unfold qmark in H. lia.
Qed.

Lemma noQuestionMark_cleanText (s : jstring) :
  noQuestionMark s -> noQuestionMark (cleanText s).
Proof.
  intros H. apply noQuestionMark_trim, noQuestionMark_replace; [exact H|].
  apply noQuestionMark_check. reflexivity.
Qed.

Lemma noQuestionMark_summaryEntries (label : jstring) (rs : list result) :
  noQuestionMark label ->
  Forall hitWithoutQuestionMark rs ->
  forall i, noQuestionMark (summaryEntries label i rs).
Proof.
  intros Hl H. induction H as [|r rs (Ht & Hs & Hk) Hrs IH]; intros i.
  - intros [].
  - cbn [summaryEntries]. apply noQuestionMark_app; [|apply IH].
    unfold summaryEntry.
    repeat (apply noQuestionMark_app);
      try (apply noQuestionMark_check; reflexivity);
      auto using noQuestionMark_of_nat, noQuestionMark_cleanText.
Qed.

Lemma In_firstn {X : Type} (n : nat) (l : list X) (x : X) :
  In x (firstn n l) -> In x l.
Proof.
  revert l. induction n as [|n IH]; intros [|y l]; simpl; try tauto.
  intros [H|H]; auto.
Qed.

Lemma noQuestionMark_summaryOf (rs : list result) :
  Forall hitWithoutQuestionMark rs -> noQuestionMark (summaryOf rs).
Proof.
  intros H. unfold summaryOf.
  assert (Hhead : noQuestionMark
            (nl ++ nl ++ js "### 📊 Latest Real Estate Information ###" ++ nl))
    by (apply noQuestionMark_check; vm_compute; reflexivity).
  destruct (Nat.leb 3 (List.length rs)).
  - apply noQuestionMark_app; [exact Hhead|].
    apply noQuestionMark_summaryEntries;
      [apply noQuestionMark_check; vm_compute; reflexivity|].
    rewrite Forall_forall in *. intros r Hr. apply H.
    revert Hr. apply In_firstn.
  - apply noQuestionMark_app; [exact Hhead|].
    apply noQuestionMark_summaryEntries;
      [apply noQuestionMark_check; vm_compute; reflexivity | exact H].
Qed.

End ResponseFacts.

(* ================================================================== *)
(** * Facts about language detection *)
(* ================================================================== *)

Module LanguageFacts.

Import LanguageService Vocabulary StringFacts RegexFacts.

Local Open Scope string_scope.
Local Open Scope list_scope.

(** ** Script blocks *)

Lemma hasRun_iff (block : N * N) (s : jstring) :
  hasRun block s = true <-> containsRun block s.
Proof.
  unfold hasRun. rewrite anySuffix_split. split.
  - intros (pre & post & -> & H).
    destruct post as [|a [|b [|c post]]]; try discriminate.
    simpl in H. rewrite !andb_true_iff in H. destruct H as [[Ha Hb] Hc].
    now exists pre, a, b, c, post.
  - intros (pre & a & b & c & post & -> & Ha & Hb & Hc).
    exists pre, (a :: b :: c :: post). split; [reflexivity|].
    simpl. now rewrite Ha, Hb, Hc.
Qed.

(** ** The pattern [[lo-hi]{3,}] *)

(** A required iteration consumes one character of the class. *)
Lemma required_iteration (ci : bool) (A : Type) (block : N * N)
    (k : jstring -> caps -> option A) (greedy : bool) (fuel lo : nat)
    (s : jstring) (cs : caps) :
  repeat_loop
    (fun s0 cs0 (k0 : jstring -> caps -> option A) =>
       m ci (RClass false [CRange (fst block) (snd block)]) s0
         (clear_groups
            (groups_of (RClass false [CRange (fst block) (snd block)])) cs0)
         k0)
    k greedy (S fuel) (S lo) None s cs
  = match s with
    | c :: s' =>
        if class_match ci false [CRange (fst block) (snd block)] c
        then repeat_loop
               (fun s0 cs0 (k0 : jstring -> caps -> option A) =>
                  m ci (RClass false [CRange (fst block) (snd block)]) s0
                    (clear_groups
                       (groups_of
                          (RClass false [CRange (fst block) (snd block)]))
                       cs0)
                    k0)
               k greedy fuel lo None s' (clear_groups [] cs)
        else None
    | [] => None
    end.
Proof.
  cbn [repeat_loop m groups_of].
  destruct s as [|c s']; [reflexivity|].
  destruct (class_match ci false _ c); reflexivity.
Qed.

(** Optional greedy iterations cannot make a match fail. *)
Lemma optional_iterations (A : Type)
    (step : jstring -> caps -> (jstring -> caps -> option A) -> option A)
    (k : jstring -> caps -> option A) (fuel : nat) (s : jstring)
    (cs : caps) :
  (forall s' cs', isSome (k s' cs') = true) ->
  isSome (repeat_loop step k true fuel 0 None s cs) = true.
Proof.
  intros Hk. destruct fuel as [|fuel]; cbn [repeat_loop]; [apply Hk|].
  match goal with |- isSome (match ?x with _ => _ end) = true =>
    destruct x end; [reflexivity | apply Hk].
Qed.

Lemma class_match_block (ci : bool) (block : N * N) (c : N) :
  (128 <= fst block)%N ->
  class_match ci false [CRange (fst block) (snd block)] c = inBlock block c.
Proof.
  intros Hlo. unfold class_match, inBlock. cbn [existsb citem_match xorb].
  rewrite !orb_false_r.
  destruct ci; cbn [andb]; [|now rewrite orb_false_r].
  unfold upper_cu, lower_cu.
  destruct (N.leb (fst block) c && N.leb c (snd block)) eqn:E;
    [reflexivity|].
  cbn [orb].
  assert (Hu : (if N.leb 97 c && N.leb c 122 then c - 32 else c)%N = c
               \/ ((if N.leb 97 c && N.leb c 122 then c - 32 else c) < 128)%N).
  { destruct (N.leb 97 c && N.leb c 122) eqn:F; [right|now left].
    apply andb_true_iff in F as [F1 F2].
    apply N.leb_le in F1, F2. lia. }
  assert (Hl : (if N.leb 65 c && N.leb c 90 then c + 32 else c)%N = c
               \/ ((if N.leb 65 c && N.leb c 90 then c + 32 else c) < 128)%N).
  { destruct (N.leb 65 c && N.leb c 90) eqn:F; [right|now left].
    apply andb_true_iff in F as [F1 F2].
    apply N.leb_le in F1, F2. lia. }
  assert (Hsmall : forall x, (x < 128)%N ->
             N.leb (fst block) x && N.leb x (snd block) = false).
  { intros x Hx. apply andb_false_iff. left. apply N.leb_gt. lia. }
  destruct Hu as [->|Hu], Hl as [->|Hl];
    rewrite ?E, ?(Hsmall _ Hu), ?(Hsmall _ Hl); reflexivity.
Qed.

Lemma m_repeat (ci : bool) (A : Type) (r : regex) (lo : nat)
    (hi : option nat) (greedy : bool) (s : jstring) (cs : caps)
    (k : jstring -> caps -> option A) :
  m ci (RRepeat r lo hi greedy) s cs k
  = repeat_loop (fun s0 cs0 (k0 : jstring -> caps -> option A) =>
                   m ci r s0 (clear_groups (groups_of r) cs0) k0)
                k greedy (lo + List.length s) lo hi s cs.
Proof. reflexivity. Qed.

(** Three required iterations need a run at the start of the text, whatever
    follows the quantifier. *)
Lemma three_iterations_need_run (ci : bool) (A : Type) (block : N * N)
    (k : jstring -> caps -> option A) (s : jstring) (cs : caps) :
  (128 <= fst block)%N ->
  isSome (m ci (blockRegex block) s cs k) = true ->
  startsRun block s = true.
Proof.
  intros Hlo. unfold blockRegex. rewrite m_repeat. cbn [Nat.add].
  rewrite required_iteration.
  destruct s as [|a s]; [discriminate|].
  rewrite (class_match_block ci block a Hlo).
  destruct (inBlock block a) eqn:Ea; [|discriminate].
  cbn [List.length]. rewrite required_iteration.
  destruct s as [|b s]; [discriminate|].
  rewrite (class_match_block ci block b Hlo).
  destruct (inBlock block b) eqn:Eb; [|discriminate].
  cbn [List.length]. rewrite required_iteration.
  destruct s as [|c s]; [discriminate|].
  rewrite (class_match_block ci block c Hlo).
  destruct (inBlock block c) eqn:Ec; [|discriminate].
  intros _. cbn [startsRun]. now rewrite Ea, Eb, Ec.
Qed.

Lemma run_matches (ci : bool) (A : Type) (block : N * N)
    (k : jstring -> caps -> option A) (s : jstring) (cs : caps) :
  (128 <= fst block)%N ->
  (forall s' cs', isSome (k s' cs') = true) ->
  startsRun block s = true ->
  isSome (m ci (blockRegex block) s cs k) = true.
Proof.
  intros Hlo Hk H.
  destruct s as [|a [|b [|c s]]]; try discriminate.
  cbn [startsRun] in H. rewrite !andb_true_iff in H.
  destruct H as [[Ha Hb] Hc].
  unfold blockRegex. rewrite m_repeat. cbn [Nat.add List.length].
  rewrite required_iteration, (class_match_block ci block a Hlo), Ha.
  rewrite required_iteration, (class_match_block ci block b Hlo), Hb.
  rewrite required_iteration, (class_match_block ci block c Hlo), Hc.
  now apply optional_iterations.
Qed.

Lemma match_here_block (block : N * N) (s : jstring) :
  (128 <= fst block)%N ->
  isSome (match_here false (blockRegex block) s) = startsRun block s.
Proof.
  intros Hlo. unfold match_here.
  destruct (startsRun block s) eqn:E.
  - now apply run_matches.
  - destruct (isSome (m false (blockRegex block) s [] _)) eqn:F;
      [|reflexivity].
    apply three_iterations_need_run in F; [congruence|exact Hlo].
Qed.

Lemma test_blockPattern (block : N * N) (s : jstring) :
  (128 <= fst block)%N ->
  test (blockPattern block) s = hasRun block s.
Proof.
  intros Hlo. rewrite (test_anySuffix (blockPattern block) (blockRegex block));
    [|reflexivity].
  apply anySuffix_ext. intros t. now apply match_here_block.
Qed.


(** ** Keyword alternations *)

Lemma m_seq (ci : bool) (A : Type) (a b : regex) (s : jstring) (cs : caps)
    (k : jstring -> caps -> option A) :
  m ci (seq a b) s cs k = m ci a s cs (fun s' cs' => m ci b s' cs' k).
Proof. destruct a, b; reflexivity. Qed.

Lemma char_match_caseless (ci : bool) (p c : N) :
  (128 <= p)%N -> char_match ci p c = N.eqb p c.
Proof.
  intros Hp. unfold char_match. destruct ci; [|reflexivity].
  unfold upper_cu.
  destruct (N.leb 97 p && N.leb p 122) eqn:Fp.
  { apply andb_true_iff in Fp as [_ F]. apply N.leb_le in F. lia. }
  destruct (N.leb 97 c && N.leb c 122) eqn:Fc; [|reflexivity].
  apply andb_true_iff in Fc as [F1 F2]. apply N.leb_le in F1, F2.
  transitivity false; [|symmetry]; apply N.eqb_neq; lia.
Qed.

Lemma m_word (ci : bool) (A : Type) (w : jstring) (s : jstring) (cs : caps)
    (k : jstring -> caps -> option A) :
  caseless w = true ->
  m ci (word w) s cs k
  = if starts_with w s then k (skipn (List.length w) s) cs else None.
Proof.
  revert s. induction w as [|p w IH]; intros s Hw.
  - now destruct s.
  - cbn [caseless forallb] in Hw. apply andb_true_iff in Hw as [Hp Hw].
    apply N.leb_le in Hp.
    change (word (p :: w)) with (seq (RChar p) (word w)).
    rewrite m_seq. cbn [m].
    destruct s as [|c s]; [reflexivity|].
    rewrite (char_match_caseless ci p c Hp). cbn [starts_with].
    destruct (N.eqb p c); [|reflexivity].
    now rewrite IH.
Qed.

Lemma m_alts_words (ci : bool) (A : Type) (w : jstring) (ws : list jstring)
    (s : jstring) (cs : caps) (k : jstring -> caps -> option A) :
  forallb caseless (w :: ws) = true ->
  (forall s' cs', isSome (k s' cs') = true) ->
  isSome (m ci (alts (map word (w :: ws))) s cs k)
  = existsb (fun x => starts_with x s) (w :: ws).
Proof.
  intros Hws Hk. revert w Hws.
  induction ws as [|w2 ws IH]; intros w Hws.
  - cbn [forallb] in Hws. rewrite andb_true_r in Hws.
    cbn [map alts existsb]. rewrite (m_word _ _ _ _ _ _ Hws), orb_false_r.
    destruct (starts_with w s); [apply Hk | reflexivity].
  - cbn [forallb] in Hws. apply andb_true_iff in Hws as [Hw Hws].
    change (alts (map word (w :: w2 :: ws)))
      with (RAlt (word w) (alts (map word (w2 :: ws)))).
    cbn [m]. rewrite (m_word _ _ _ _ _ _ Hw).
    change (existsb (fun x => starts_with x s) (w :: w2 :: ws))
      with (starts_with w s || existsb (fun x => starts_with x s) (w2 :: ws)).
    rewrite <- (IH w2 Hws).
    destruct (starts_with w s).
    + specialize (Hk (skipn (List.length w) s) cs).
      destruct (k (skipn (List.length w) s) cs); [reflexivity|discriminate].
    + reflexivity.
Qed.

Lemma existsb_includes (s : jstring) (xs : list jstring) :
  existsb (fun x => anySuffix (starts_with x) s) xs = existsb (includes s) xs.
Proof.
  induction xs as [|x xs IH]; cbn [existsb]; [reflexivity|].
  now rewrite IH, includes_anySuffix.
Qed.

Lemma test_keywordPattern (w : jstring) (ws : list jstring) (s : jstring) :
  forallb caseless (w :: ws) = true ->
  test (keywordPattern (w :: ws)) s = existsb (includes s) (w :: ws).
Proof.
  intros Hws.
  rewrite (test_anySuffix (keywordPattern (w :: ws)) _ s eq_refl).
  cbn [ignoreCase keywordPattern].
  rewrite (anySuffix_ext _ (fun t => existsb (fun x => starts_with x t)
                                             (w :: ws))).
  - rewrite anySuffix_existsb. apply existsb_includes.
  - intros t. unfold match_here. cbn [m].
    now apply m_alts_words.
Qed.


(** ** The detection table *)

Lemma languagePatterns_eq :
  languagePatterns
  = [ ("hi", [ blockPattern devanagari; keywordPattern hindiKeywords ]);
      ("mr", [ marathiPattern ]);
      ("gu", [ blockPattern gujarati ]);
      ("bn", [ blockPattern bengali ]);
      ("ta", [ blockPattern tamil ]);
      ("te", [ blockPattern telugu ]);
      ("kn", [ blockPattern kannada ]);
      ("ml", [ blockPattern malayalam ]);
      ("pa", [ blockPattern gurmukhi ]);
      ("ur", [ blockPattern arabic ]) ].
Proof. vm_compute. reflexivity. Qed.

(** The Marathi pattern begins with the Devanagari run, so it matches only
    where the first Hindi pattern matches too. *)
Lemma marathi_needs_devanagari_run (s : jstring) :
  test marathiPattern s = true -> hasRun devanagari s = true.
Proof.
  rewrite (test_anySuffix marathiPattern marathiRegex s eq_refl).
  apply anySuffix_impl. intros t H.
  unfold match_here, marathiRegex in H. cbn [m ignoreCase marathiPattern] in H.
  apply three_iterations_need_run in H; [exact H|].
  vm_compute. discriminate.
Qed.

Lemma firstMatch_languagePatterns (s : jstring) :
  firstMatch languagePatterns s
  = if hasHindiKeyword s then Some "hi" else firstRun scriptBlocks s.
Proof.
  rewrite languagePatterns_eq. cbn [firstMatch existsb].
  rewrite !test_blockPattern by (vm_compute; discriminate).
  unfold hasHindiKeyword, hindiKeywords.
  rewrite test_keywordPattern by (vm_compute; reflexivity).
  fold hindiKeywords.
  rewrite !orb_false_r.
  cbn [firstRun scriptBlocks].
  destruct (hasRun devanagari s) eqn:Ed; cbn [orb].
  - now destruct (existsb (includes s) hindiKeywords).
  - destruct (existsb (includes s) hindiKeywords); [reflexivity|].
    destruct (test marathiPattern s) eqn:Em; [|reflexivity].
    apply marathi_needs_devanagari_run in Em. congruence.
Qed.


Lemma firstRun_found (earlier later : list (string * (N * N)))
    (tag : string) (block : N * N) (s : jstring) :
  hasRun block s = true ->
  (forall t b, In (t, b) earlier -> hasRun b s = false) ->
  firstRun (earlier ++ (tag, block) :: later) s = Some tag.
Proof.
  intros Hrun. induction earlier as [|[t b] earlier IH]; intros Hno.
  - cbn [app firstRun]. now rewrite Hrun.
  - cbn [app firstRun]. rewrite (Hno t b (or_introl eq_refl)).
    apply IH. intros t' b' H. apply (Hno t' b'). now right.
Qed.

(** The characters of the script blocks are not white space. *)
Lemma not_space_in_range (c : N) :
  (1536 <= c <= 3455)%N -> is_space c = false.
Proof.
  intros H. unfold is_space.
  replace (N.leb c 13) with false by (symmetry; apply N.leb_gt; lia).
  replace (N.leb 8192 c) with false by (symmetry; apply N.leb_gt; lia).
  repeat match goal with
         | |- context [N.eqb c ?k] =>
             replace (N.eqb c k) with false
               by (symmetry; apply N.eqb_neq; lia)
         end.
  now rewrite andb_false_r.
Qed.

Lemma block_char_not_space (tag : string) (block : N * N) (c : N) :
  In (tag, block) scriptBlocks -> inBlock block c = true ->
  is_space c = false.
Proof.
  intros Hin Hc. apply not_space_in_range.
  unfold inBlock in Hc. apply andb_true_iff in Hc as [H1 H2].
  apply N.leb_le in H1, H2.
  cbn [scriptBlocks In] in Hin.
  repeat (destruct Hin as [Hin|Hin];
          [injection Hin as _ <-;
           unfold devanagari, gujarati, bengali, tamil, telugu, kannada,
             malayalam, gurmukhi, arabic in H1, H2;
           cbn [fst snd] in H1, H2; lia|]).
  contradiction.
Qed.

Lemma run_not_blank (tag : string) (block : N * N) (s : jstring) :
  In (tag, block) scriptBlocks -> hasRun block s = true ->
  truthy s = true /\ Nat.eqb (List.length (trim s)) 0 = false.
Proof.
  intros Hin Hrun. apply hasRun_iff in Hrun
    as (pre & a & b & c & post & -> & Ha & _ & _).
  pose proof (block_char_not_space tag block a Hin Ha) as Hsp.
  assert (Hina : In a (pre ++ a :: b :: c :: post))
    by (apply in_or_app; right; now left).
  split.
  - now destruct pre.
  - pose proof (trim_keeps _ a Hina Hsp) as Ht.
    destruct (trim (pre ++ a :: b :: c :: post)); [destruct Ht|reflexivity].
Qed.

End LanguageFacts.

(* ================================================================== *)
(** * Facts about the detected codes *)
(* ================================================================== *)

Module DetectionFacts.

Import LanguageService Vocabulary StringFacts LanguageFacts.

Local Open Scope string_scope.
Local Open Scope list_scope.

Lemma starts_with_In (w s : jstring) (c : N) :
  starts_with w s = true -> In c w -> In c s.
Proof.
  revert s. induction w as [|p w IH]; intros s H Hc; [destruct Hc|].
  destruct s as [|d s]; [discriminate|].
  cbn [starts_with] in H. apply andb_true_iff in H as [Hp Hw].
  apply N.eqb_eq in Hp. subst d.
  destruct Hc as [<-|Hc]; [now left|]. right. now apply IH.
Qed.

Lemma includes_In (s w : jstring) (c : N) :
  includes s w = true -> In c w -> In c s.
Proof.
  induction s as [|d s IH]; cbn [includes]; intros H Hc.
  - rewrite orb_false_r in H. now apply (starts_with_In w []).
  - apply orb_true_iff in H as [H|H].
    + now apply (starts_with_In w (d :: s)).
    + right. now apply IH.
Qed.

(** A run needs a character of its block. *)
Lemma hasRun_In (block : N * N) (s : jstring) :
  hasRun block s = true -> exists c, In c s /\ inBlock block c = true.
Proof.
  intros H. apply hasRun_iff in H as (pre & a & b & c & post & -> & Ha & _).
  exists a. split; [|exact Ha]. apply in_or_app. right. now left.
Qed.

Lemma plain_no_block (s : jstring) (tag : string) (block : N * N) (c : N) :
  plain s = true -> In (tag, block) scriptBlocks -> In c s ->
  inBlock block c = false.
Proof.
  intros Hp Hin Hc. unfold plain in Hp. rewrite forallb_forall in Hp.
  specialize (Hp c Hc). apply negb_true_iff in Hp.
  unfold inSomeBlock in Hp.
  destruct (inBlock block c) eqn:E; [|reflexivity].
  assert (H : existsb (fun entry => inBlock (snd entry) c) scriptBlocks = true).
  { apply existsb_exists. now exists (tag, block). }
  congruence.
Qed.

Lemma plain_no_run (s : jstring) (blocks : list (string * (N * N))) :
  plain s = true -> incl blocks scriptBlocks -> firstRun blocks s = None.
Proof.
  intros Hp. induction blocks as [|[tag block] blocks IH]; intros Hincl;
    [reflexivity|].
  cbn [firstRun].
  destruct (hasRun block s) eqn:E.
  - apply hasRun_In in E as (c & Hc & Hb).
    rewrite (plain_no_block s tag block c Hp) in Hb;
      [discriminate | apply Hincl; now left | exact Hc].
  - apply IH. intros x Hx. apply Hincl. now right.
Qed.

(** Every Hindi keyword begins with a Devanagari character. *)
Lemma plain_no_keyword (s : jstring) :
  plain s = true -> hasHindiKeyword s = false.
Proof.
  intros Hp. unfold hasHindiKeyword.
  destruct (existsb (includes s) hindiKeywords) eqn:E; [|reflexivity].
  apply existsb_exists in E as (w & Hw & Hincl).
  assert (Hfirst : forallb (fun w => match w with
                                     | c :: _ => inBlock devanagari c
                                     | [] => false
                                     end) hindiKeywords = true)
    by (vm_compute; reflexivity).
  rewrite forallb_forall in Hfirst. specialize (Hfirst w Hw).
  destruct w as [|c w]; [discriminate|].
  assert (Hc : In c s) by (apply (includes_In s (c :: w)); [exact Hincl | now left]).
  rewrite (plain_no_block s "hi" devanagari c Hp) in Hfirst;
    [discriminate | now left | exact Hc].
Qed.

Lemma plain_is_english (s : jstring) :
  plain s = true -> detectLanguage (VString s) = "en".
Proof.
  intros Hp. unfold detectLanguage.
  destruct (negb (truthy s) || Nat.eqb (List.length (trim s)) 0);
    [reflexivity|].
  rewrite firstMatch_languagePatterns, (plain_no_keyword s Hp).
  now rewrite (plain_no_run s scriptBlocks Hp (incl_refl _)).
Qed.

Lemma detected_code (text : jsval) : In (detectLanguage text) detectedCodes.
Proof.
  destruct text as [| |b|z|s]; try (now left).
  unfold detectLanguage.
  destruct (negb (truthy s) || Nat.eqb (List.length (trim s)) 0);
    [now left|].
  rewrite firstMatch_languagePatterns.
  destruct (hasHindiKeyword s); [right; now left|].
  cbn [firstRun scriptBlocks].
  repeat match goal with
         | |- In (match (if ?c then _ else _) with _ => _ end) _ =>
             destruct c; [cbn; tauto|]
         end.
  now left.
Qed.

End DetectionFacts.

(* ================================================================== *)
(** * Facts about the texts of a language *)
(* ================================================================== *)

Module FormatFacts.

Import Data LanguageService Vocabulary.

Local Open Scope string_scope.
Local Open Scope list_scope.

Lemma formatEntries_numbered (rs : list result) (index : nat) (acc : jstring) :
  formatEntries index rs acc = acc ++ numbered (index + 1) rs.
Proof.
  revert index acc. induction rs as [|r rest IH]; intros index acc.
  - cbn [formatEntries numbered]. now rewrite app_nil_r.
  - cbn [formatEntries numbered]. rewrite IH. unfold entryOf.
    replace (S index + 1)%nat with (S (index + 1)) by lia.
    now rewrite <- !app_assoc.
Qed.

Lemma or_else_own (table : list (string * jstring)) (code : string)
    (text other : jstring) :
  own table code text -> or_else (get table code) other = text.
Proof.
  intros [H Hne]. rewrite H. destruct text; [contradiction|reflexivity].
Qed.

Lemma own_found (table : list (string * jstring)) (code : string) :
  match get table code with Some (_ :: _) => true | _ => false end = true ->
  exists text, own table code text.
Proof.
  unfold own. destruct (get table code) as [[|c v]|]; try discriminate.
  intros _. exists (c :: v). split; [reflexivity|discriminate].
Qed.

(** Every table of texts has an entry for each of the codes that detection
    returns. *)
Lemma tables_cover (code : string) :
  In code detectedCodes ->
  (exists text, own languageNames code text)
  /\ (exists text, own systemMessages code text)
  /\ (exists text, own noResultsMessages code text)
  /\ (exists text, own introMessages code text)
  /\ (exists text, own moreInfoMessages code text).
Proof.
  intros H. cbv [detectedCodes In] in H.
  repeat (destruct H as [<- | H];
          [repeat (split; [apply own_found; vm_compute; reflexivity|]);
           apply own_found; vm_compute; reflexivity|]).
  contradiction.
Qed.

End FormatFacts.

(* ================================================================== *)
(** * Facts about the extracted intent *)
(* ================================================================== *)

Module IntentFacts.

Import WebSearchService Vocabulary EngineFacts.

Local Open Scope string_scope.
Local Open Scope list_scope.


Lemma firstCapture_origin (patterns : list RegExp) (query v : jstring) :
  firstCapture patterns query = Some v ->
  exists p, In p patterns /\ match_group p 1 query = Some v.
Proof.
  induction patterns as [|p ps IH]; [discriminate|].
  cbn [firstCapture].
  destruct (match_group p 1 query) as [u|] eqn:E.
  - intros H. injection H as <-. exists p. split; [now left | exact E].
  - intros H. destruct (IH H) as (q & Hq & Hv).
    exists q. split; [now right | exact Hv].
Qed.

Lemma char_match_lower (ci : bool) (p c : N) :
  char_match ci p c = true -> lower_cu c = lower_cu p.
Proof.
  unfold char_match, upper_cu, lower_cu.
  destruct ci; intros H; apply N.eqb_eq in H; [|now subst].
  destruct (N.leb 97 p && N.leb p 122) eqn:Ep;
    destruct (N.leb 97 c && N.leb c 122) eqn:Ec;
    destruct (N.leb 65 p && N.leb p 90) eqn:Fp;
    destruct (N.leb 65 c && N.leb c 90) eqn:Fc;
    rewrite ?andb_true_iff, ?andb_false_iff, ?N.leb_le, ?N.leb_gt in *;
    lia.
Qed.

Lemma digit_class (ci : bool) (c : N) :
  class_match ci false [CDigit] c = true -> is_digit c = true.
Proof.
  unfold class_match. cbn [existsb citem_match xorb].
  rewrite !orb_false_r.
  destruct (is_digit c) eqn:E; [reflexivity|].
  destruct ci; cbn [andb orb]; [|discriminate].
  unfold is_digit, upper_cu, lower_cu in *.
  destruct (N.leb 97 c && N.leb c 122) eqn:Ec;
    destruct (N.leb 65 c && N.leb c 90) eqn:Fc;
    rewrite ?orb_true_iff, ?andb_true_iff, ?andb_false_iff, ?N.leb_le,
      ?N.leb_gt in *;
    lia.
Qed.

(** A text consumed by [\d+] is made of digits. *)
Lemma digits_matched (ci : bool) (lo : nat) (hi : option nat) (g : bool)
    (v : jstring) :
  matched ci (RRepeat (RClass false [CDigit]) lo hi g) v ->
  forallb is_digit v = true.
Proof.
  cbn [matched]. intros (ws & -> & Hws).
  induction Hws as [|w ws (c & -> & Hc) _ IH]; [reflexivity|].
  cbn [List.concat app forallb]. now rewrite (digit_class ci c Hc).
Qed.

Lemma wordToDigit_digits (v : jstring) :
  forallb is_digit v = true -> forallb is_digit (wordToDigit v) = true.
Proof.
  intros H. unfold wordToDigit.
  repeat match goal with
         | |- context [if ?b then _ else _] => destruct b; [reflexivity|]
         end.
  exact H.
Qed.

Lemma matched_seq (ci : bool) (a b : regex) (v : jstring) :
  matched ci (seq a b) v ->
  exists w1 w2, v = w1 ++ w2 /\ matched ci a w1 /\ matched ci b w2.
Proof.
  intros H.
  assert (Hl : matched ci b v ->
               exists w1 w2, v = w1 ++ w2 /\ matched ci REmpty w1
                             /\ matched ci b w2).
  { intros Hb. exists [], v. cbn. auto. }
  assert (Hr : matched ci a v ->
               exists w1 w2, v = w1 ++ w2 /\ matched ci a w1
                             /\ matched ci REmpty w2).
  { intros Ha. exists v, []. rewrite app_nil_r. cbn. auto. }
  destruct a; try (apply Hl; exact H);
    destruct b; try (apply Hr; exact H); exact H.
Qed.

(** A text consumed by a literal word equals it up to the case of ASCII
    letters. *)
Lemma word_matched (ci : bool) (w v : jstring) :
  matched ci (word w) v -> toLowerCase v = toLowerCase w.
Proof.
  revert v. induction w as [|p w IH]; intros v H.
  - cbn in H. now subst.
  - change (word (p :: w)) with (seq (RChar p) (word w)) in H.
    apply matched_seq in H as (w1 & w2 & -> & (c & -> & Hc) & H2).
    cbn [toLowerCase map app]. rewrite (char_match_lower ci p c Hc).
    f_equal. now apply IH.
Qed.

Lemma alts_words_matched (ci : bool) (w : jstring) (ws : list jstring)
    (v : jstring) :
  matched ci (alts (map word (w :: ws))) v ->
  exists x, In x (w :: ws) /\ toLowerCase v = toLowerCase x.
Proof.
  revert w. induction ws as [|w2 ws IH]; intros w H.
  - exists w. split; [now left | now apply word_matched in H].
  - change (alts (map word (w :: w2 :: ws)))
      with (RAlt (word w) (alts (map word (w2 :: ws)))) in H.
    destruct H as [H|H].
    + exists w. split; [now left | now apply word_matched in H].
    + destruct (IH w2 H) as (x & Hx & E). exists x. split; [now right|exact E].
Qed.

Lemma digits_of_lower (v : jstring) :
  forallb is_digit (toLowerCase v) = true -> forallb is_digit v = true.
Proof.
  induction v as [|c v IH]; [reflexivity|].
  cbn [toLowerCase map forallb]. intros H.
  apply andb_true_iff in H as [Hc Hv].
  rewrite (IH Hv), andb_true_r.
  unfold is_digit, lower_cu in *.
  destruct (N.leb 65 c && N.leb c 90) eqn:E; [|exact Hc].
  rewrite ?andb_true_iff, ?N.leb_le in *. lia.
Qed.

Lemma numberWord_digits (v : jstring) :
  (exists x, In x numberWords /\ toLowerCase v = toLowerCase x) ->
  forallb is_digit (wordToDigit v) = true.
Proof.
  intros (x & Hx & E). unfold wordToDigit.
  cbn [numberWords In] in Hx.
  repeat (destruct Hx as [<-|Hx]; [rewrite E|]).
  1-5: vm_compute; reflexivity.
  6: contradiction.
  all: match goal with
       | |- forallb is_digit ?t = true =>
           let t' := eval vm_compute in t in change t with t'
       end.
  all: apply digits_of_lower; rewrite E; reflexivity.
Qed.

Lemma bedroomPatterns_groups (p : RegExp) :
  In p bedroomPatterns ->
  exists r, pattern p = Some r
            /\ (groupBodies r = [(1%nat, digitsRegex)]
                \/ groupBodies r = [(1%nat, alts (map word numberWords))]
                \/ groupBodies r = []).
Proof.
  unfold bedroomPatterns. cbn [In].
  intros [<-|[<-|[<-|[<-|[<-|[]]]]]]; eexists; split;
    try (vm_compute; reflexivity).
  - left. vm_compute. reflexivity.
  - left. vm_compute. reflexivity.
  - left. vm_compute. reflexivity.
  - right. left. vm_compute. reflexivity.
  - right. right. vm_compute. reflexivity.
Qed.

Lemma lower_digits (d : jstring) :
  forallb is_digit d = true -> toLowerCase d = d.
Proof.
  induction d as [|c d IH]; [reflexivity|].
  cbn [forallb toLowerCase map]. intros H.
  apply andb_true_iff in H as [Hc Hd].
  fold (toLowerCase d). rewrite (IH Hd). f_equal.
  unfold is_digit, lower_cu in *.
  destruct (N.leb 65 c && N.leb c 90) eqn:E; [|reflexivity].
  rewrite ?andb_true_iff, ?N.leb_le in *. lia.
Qed.

(** What the bedroom patterns capture: digits, or one of the number words
    in any case. *)
Lemma captured_bedroom_text (query v : jstring) :
  firstCapture bedroomPatterns query = Some v ->
  forallb is_digit v = true
  \/ exists x, In x numberWords /\ toLowerCase v = toLowerCase x.
Proof.
  intros E. apply firstCapture_origin in E as (p & Hp & Hv).
  destruct (bedroomPatterns_groups p Hp) as (r & Hr & Hg).
  destruct (match_group_sound p r 1 query v Hr Hv) as (body & Hin & Hm).
  destruct Hg as [Hg|[Hg|Hg]]; rewrite Hg in Hin.
  - destruct Hin as [Hin|[]]. injection Hin as <-.
    left. now apply digits_matched in Hm.
  - destruct Hin as [Hin|[]]. injection Hin as <-.
    right.
    exact (alts_words_matched (ignoreCase p) (js "one") (tl numberWords)
                              v Hm).
  - destruct Hin.
Qed.

(** The bedroom count is empty or a string of decimal digits, whatever the
    query. *)
Lemma bedrooms_are_digits (query : jstring) :
  forallb is_digit (extractBedrooms query) = true.
Proof.
  unfold extractBedrooms.
  destruct (firstCapture bedroomPatterns query) as [v|] eqn:E; [|reflexivity].
  destruct (captured_bedroom_text query v E) as [H|H].
  - now apply wordToDigit_digits.
  - now apply numberWord_digits.
Qed.

(** No captured text is [single], [double] or [triple]. *)
Lemma no_multiplicity_word_captured (query v : jstring) :
  firstCapture bedroomPatterns query = Some v ->
  ~ In (toLowerCase v) [js "single"; js "double"; js "triple"].
Proof.
  intros E Hin. destruct (captured_bedroom_text query v E) as [H|(x & Hx & Hl)].
  - assert (Hd : forallb is_digit (toLowerCase v) = true)
      by now rewrite (lower_digits v H).
    cbn [In] in Hin.
    destruct Hin as [Hin|[Hin|[Hin|[]]]]; rewrite <- Hin in Hd;
      vm_compute in Hd; discriminate.
  - rewrite Hl in Hin. cbn [numberWords In] in Hx.
    repeat (destruct Hx as [<-|Hx];
            [vm_compute in Hin; intuition discriminate|]).
    contradiction.
Qed.

(** The transaction type is [buy], [rent] or empty. *)
Lemma transactionType_values (query : jstring) :
  extractTransactionType query = js "buy"
  \/ extractTransactionType query = js "rent"
  \/ extractTransactionType query = [].
Proof.
  unfold extractTransactionType.
  destruct (firstIncluded buyTerms (toLowerCase query)); [now left|].
  cbn [truthy negb].
  destruct (firstIncluded rentTerms (toLowerCase query)); auto.
Qed.

(** What intent extraction produces is in lower case where the query
    enhancement needs it. *)
Lemma extracted_lower (query : jstring) (lead : leadInfo) :
  toLowerCase (transactionType (extractIntent query lead))
    = transactionType (extractIntent query lead)
  /\ toLowerCase (bedrooms (extractIntent query lead))
     = bedrooms (extractIntent query lead).
Proof.
  cbn [extractIntent transactionType bedrooms]. split.
  - destruct (transactionType_values query) as [E | [E | E]]; rewrite E; reflexivity.
  - apply lower_digits, bedrooms_are_digits.
Qed.

(** ** The dynamic bedroom patterns *)


Lemma digit_not (c k : N) :
  is_digit c = true -> (k < 48 \/ 57 < k)%N -> N.eqb c k = false.
Proof.
  unfold is_digit. rewrite andb_true_iff, !N.leb_le.
  intros [H1 H2] Hk. apply N.eqb_neq. lia.
Qed.

(** A digit followed by a digit or a backslash is a term of its own. *)
Lemma parse_term_digit (f : nat) (c n : N) (rest : jstring) (g : nat) :
  is_digit c = true -> (is_digit n = true \/ n = 92%N) ->
  parse_term (S f) (c :: n :: rest) g = Some (RChar c, n :: rest, g).
Proof.
  intros Hc Hn. cbn [parse_term].
  rewrite !(digit_not c _ Hc) by lia. cbn [orb].
  unfold quantified, parse_quant.
  assert (Hq : forall k, (k < 48 \/ 57 < k)%N -> k <> 92%N -> N.eqb n k = false).
  { intros k Hk Hk'. destruct Hn as [Hn| ->].
    - now apply digit_not.
    - apply N.eqb_neq. congruence. }
  rewrite !Hq by (lia || discriminate). reflexivity.
Qed.

Lemma parse_alt_digits (d : jstring) (f : nat) (tail : jstring) (g : nat) :
  forallb is_digit d = true ->
  parse_alt (List.length d + S f) (d ++ 92%N :: tail) g
  = match parse_alt (S f) (92%N :: tail) g with
    | Some (a, s, g') => Some (literally d a, s, g')
    | None => None
    end.
Proof.
  remember (parse_alt (S f) (92%N :: tail) g) as T eqn:ET.
  induction d as [|c d IH]; intros Hd.
  - cbn [List.length Nat.add app literally fold_right]. rewrite <- ET.
    destruct T as [[[a s] g']|]; reflexivity.
  - cbn [forallb] in Hd. apply andb_true_iff in Hd as [Hc Hd].
    cbn [List.length Nat.add app]. cbn [parse_alt].
    rewrite !(digit_not c _ Hc) by lia. cbn [orb].
    assert (Hterm : parse_term (List.length d + S f) (c :: d ++ 92%N :: tail) g
                    = Some (RChar c, d ++ 92%N :: tail, g)).
    { rewrite Nat.add_succ_r.
      destruct d as [|n d]; cbn [app].
      - apply parse_term_digit; auto.
      - cbn [forallb] in Hd. apply andb_true_iff in Hd as [Hn _].
        apply parse_term_digit; auto. }
    rewrite Hterm, (IH Hd).
    destruct T as [[[a s] g']|]; reflexivity.
Qed.

(** For a string of digits, the pattern of [bedroomPattern] is the one the
    [RegExp] constructor parses from its source text. *)
Lemma bedroomPattern_is_constructor (d : jstring) (unit : string) :
  forallb is_digit d = true ->
  In unit ["bhk"; "bedroom"; "bed"; "rk"] ->
  pattern (bedroomPattern d unit) = parse (d ++ js "\s*" ++ js unit).
Proof.
  intros Hd Hunit. unfold bedroomPattern. cbn [pattern].
  unfold parse at 2.
  rewrite !length_app.
  replace (4 * (List.length d + (List.length (js "\s*") + List.length (js unit))) + 8)%nat
    with (S (List.length d
             + S (4 * (List.length (js "\s*") + List.length (js unit)) + 6
                  + 3 * List.length d)))%nat by lia.
  cbn [parse_disj].
  change (js "\s*" ++ js unit) with (92%N :: js "s*" ++ js unit).
  rewrite (parse_alt_digits d _ _ 1 Hd).
  generalize (3 * List.length d)%nat. intros n.
  cbn [In] in Hunit.
  destruct Hunit as [<-|[<-|[<-|[<-|[]]]]]; vm_compute; reflexivity.
Qed.

(** In the pipeline the scorer receives the extracted bedroom count, so its
    four bedroom patterns are the ones the constructor builds. *)
Lemma pipeline_bedroomPatterns (query : jstring) (lead : leadInfo)
    (unit : string) :
  In unit ["bhk"; "bedroom"; "bed"; "rk"] ->
  pattern (bedroomPattern (bedrooms (extractIntent query lead)) unit)
  = parse (bedrooms (extractIntent query lead) ++ js "\s*" ++ js unit).
Proof.
  intros H. apply bedroomPattern_is_constructor; [|exact H].
  apply bedrooms_are_digits.
Qed.

(** ** The budget *)

Lemma budgetPatterns_groups (p : RegExp) (body : regex) :
  In p budgetPatterns ->
  exists r, pattern p = Some r
            /\ (In (1%nat, body) (groupBodies r) -> body = amountRegex).
Proof.
  unfold budgetPatterns. cbn [In].
  intros [<-|[<-|[<-|[<-|[<-|[]]]]]]; eexists;
    (split; [vm_compute; reflexivity|]);
    (let H := fresh in
     intros H; vm_compute in H;
     repeat (destruct H as [H|H];
             [first [discriminate H | injection H as <-; reflexivity]|]);
     destruct H).
Qed.

Lemma amount_class (ci : bool) (c : N) :
  class_match ci false [CDigit; CRange 44 44; CRange 46 46] c = true ->
  is_digit c = true \/ c = comma \/ c = dot.
Proof.
  unfold class_match, comma, dot. cbn [existsb citem_match xorb].
  rewrite !orb_false_r.
  unfold is_digit, upper_cu, lower_cu.
  destruct ci; cbn [andb orb];
    destruct (N.leb 97 c && N.leb c 122) eqn:Ec;
    destruct (N.leb 65 c && N.leb c 90) eqn:Fc;
    rewrite ?orb_true_iff, ?andb_true_iff, ?andb_false_iff, ?N.leb_le,
            ?N.leb_gt, ?N.eqb_eq in *;
    lia.
Qed.

Lemma amount_matched (ci : bool) (v : jstring) :
  matched ci amountRegex v ->
  exists d rest,
    v = d :: rest /\ is_digit d = true
    /\ Forall (fun c => is_digit c = true \/ c = comma \/ c = dot) rest.
Proof.
  unfold amountRegex. cbn [matched].
  intros (w1 & w2 & -> & (d & -> & Hd) & ws & -> & Hws).
  exists d, (List.concat ws). split; [reflexivity|].
  split; [now apply (digit_class ci)|].
  induction Hws as [|w ws (c & -> & Hc) _ IH]; [constructor|].
  cbn [List.concat app]. constructor; [|exact IH].
  now apply (amount_class ci).
Qed.

(** [replace(/[,.]/g, '')] drops the commas and the dots. *)
Lemma match_here_class (items : list citem) (s : jstring) :
  match_here false (RClass false items) s
  = match s with
    | c :: _ =>
        if class_match false false items c then Some (1%nat, []) else None
    | [] => None
    end.
Proof.
  destruct s as [|c s]; [reflexivity|].
  unfold match_here. cbn [m].
  destruct (class_match false false items c); [|reflexivity].
  cbn [List.length].
  now replace (S (List.length s) - List.length s)%nat with 1%nat by lia.
Qed.

Lemma replace_class_everywhere (items : list citem) (s : jstring) :
  replace_go false true (RClass false items) [] true O s
  = filter (fun c => negb (class_match false false items c)) s.
Proof.
  induction s as [|c s IH]; [reflexivity|].
  cbn [replace_go]. rewrite match_here_class.
  cbn [filter].
  destruct (class_match false false items c); cbn [negb app]; now rewrite IH.
Qed.

Lemma separators_removed (v : jstring) :
  Forall (fun c => is_digit c = true \/ c = comma \/ c = dot) v ->
  forallb is_digit
          (filter (fun c => negb (class_match false false
                                    [CRange 44 44; CRange 46 46] c)) v)
  = true.
Proof.
  induction 1 as [|c v Hc _ IH]; [reflexivity|].
  cbn [filter].
  destruct (class_match false false [CRange 44 44; CRange 46 46] c) eqn:E;
    cbn [negb]; [exact IH|].
  cbn [forallb]. rewrite IH, andb_true_r.
  destruct Hc as [Hc|[->| ->]]; [exact Hc | discriminate E | discriminate E].
Qed.

Lemma digit_kept (d : N) :
  is_digit d = true ->
  class_match false false [CRange 44 44; CRange 46 46] d = false.
Proof.
  unfold class_match, is_digit. cbn [existsb citem_match xorb andb orb].
  rewrite !orb_false_r.
  destruct (N.leb 44 d && N.leb d 44) eqn:E1;
    destruct (N.leb 46 d && N.leb d 46) eqn:E2; try reflexivity;
    rewrite ?andb_true_iff, ?N.leb_le in *; lia.
Qed.

(** A budget taken from the query is a non-empty string of digits. *)
Lemma extracted_budget_digits (query : jstring) (lead : leadInfo) :
  truthy (knownSlot lead "budget") = false ->
  forallb is_digit (extractBudget query lead) = true
  /\ (firstCapture budgetPatterns query <> None ->
      extractBudget query lead <> []).
Proof.
  intros Hknown. unfold extractBudget. rewrite Hknown. cbn [negb].
  destruct (firstCapture budgetPatterns query) as [v|] eqn:E.
  - apply firstCapture_origin in E as (p & Hp & Hv).
    assert (Hbody : exists r body,
               pattern p = Some r /\ In (1%nat, body) (groupBodies r)
               /\ matched (ignoreCase p) body v).
    { destruct (budgetPatterns_groups p REmpty Hp) as (r & Hr & _).
      destruct (match_group_sound p r 1 query v Hr Hv) as (body & Hin & Hm).
      now exists r, body. }
    destruct Hbody as (r & body & Hr & Hin & Hm).
    destruct (budgetPatterns_groups p body Hp) as (r' & Hr' & Hb).
    rewrite Hr in Hr'. injection Hr' as <-.
    rewrite (Hb Hin) in Hm.
    apply amount_matched in Hm as (d & rest & -> & Hd & Hrest).
    change (replace (re "[,.]" "g") [] (d :: rest))
      with (replace_go false true (RClass false [CRange 44 44; CRange 46 46])
                       [] true O (d :: rest)).
    rewrite replace_class_everywhere. cbn [filter].
    rewrite (digit_kept d Hd). cbn [negb forallb]. rewrite Hd.
    split; [|discriminate].
    now apply separators_removed.
  - split; [|congruence].
    destruct (knownSlot lead "budget"); [reflexivity | discriminate].
Qed.

(** ** Property type and location *)

Lemma firstIncluded_In (xs : list jstring) (text x : jstring) :
  firstIncluded xs text = Some x -> In x xs /\ includes text x = true.
Proof.
  induction xs as [|y xs IH]; [discriminate|].
  cbn [firstIncluded]. destruct (includes text y) eqn:E.
  - intros H. injection H as <-. split; [now left | exact E].
  - intros H. destruct (IH H). split; [now right | assumption].
Qed.

Lemma extracted_propertyType (query : jstring) (lead : leadInfo) :
  truthy (knownSlot lead "propertyType") = false ->
  extractPropertyType query lead = []
  \/ (In (extractPropertyType query lead) propertyTypes
      /\ includes (toLowerCase query) (extractPropertyType query lead)
         = true).
Proof.
  intros Hknown. unfold extractPropertyType. rewrite Hknown. cbn [negb].
  destruct (firstIncluded propertyTypes (toLowerCase query)) as [x|] eqn:E.
  - right. now apply firstIncluded_In.
  - left. destruct (knownSlot lead "propertyType"); [reflexivity|discriminate].
Qed.

Lemma extracted_location_trimmed (query : jstring) (lead : leadInfo) :
  truthy (knownSlot lead "preferredLocation") = false ->
  trimmed (extractLocation query lead).
Proof.
  intros Hknown. unfold extractLocation, trimmed. rewrite Hknown. cbn [negb].
  destruct (firstCapture locationPatterns query) as [v|].
  - apply StringFacts.trim_trim.
  - destruct (knownSlot lead "preferredLocation"); [reflexivity|discriminate].
Qed.

Lemma firstIncluded_some (xs : list jstring) (text : jstring) :
  existsb (includes text) xs = true ->
  exists x, firstIncluded xs text = Some x.
Proof.
  induction xs as [|y xs IH]; [discriminate|].
  cbn [existsb firstIncluded]. destruct (includes text y); [eauto|].
  exact IH.
Qed.

(** A buying term decides, whatever else the query says. *)
Lemma buy_term_decides (query : jstring) :
  existsb (includes (toLowerCase query)) buyTerms = true ->
  extractTransactionType query = js "buy".
Proof.
  intros H. unfold extractTransactionType.
  destruct (firstIncluded_some buyTerms (toLowerCase query) H) as (x & ->).
  reflexivity.
Qed.

End IntentFacts.

(* ================================================================== *)
(** * Facts about the search *)
(* ================================================================== *)

Module SearchFacts.

Import WebSearchService Vocabulary RankingFacts.

Local Open Scope string_scope.
Local Open Scope list_scope.

Lemma primarySearch_unconfigured (this : webSearchService)
    (axiosGet : searchRequest -> searchReply) (query : jstring)
    (lead : leadInfo) :
  configured this = false ->
  primarySearch this axiosGet query lead = ([], None).
Proof.
  unfold configured, primarySearch. intros H.
  apply andb_false_iff in H as [H|H]; rewrite H; cbn [negb orb];
    [reflexivity|].
  now rewrite orb_true_r.
Qed.

Lemma primarySearch_configured (this : webSearchService)
    (axiosGet : searchRequest -> searchReply) (query : jstring)
    (lead : leadInfo) :
  configured this = true ->
  primarySearch this axiosGet query lead
  = ( [primaryRequest this query lead],
      match axiosGet (primaryRequest this query lead) with
      | Rejected => None
      | NoData | NoItems => Some []
      | Items items =>
          if existsb (fun it => scoringThrows it (extractIntent query lead))
                     items
          then None
          else Some (rankResults items query (extractIntent query lead))
      end ).
Proof.
  unfold configured, primarySearch. intros H.
  apply andb_true_iff in H as [H1 H2]. rewrite H1, H2. cbn [negb orb].
  fold (primaryRequest this query lead).
  destruct (axiosGet (primaryRequest this query lead)) as [| | |[|it items]];
    try reflexivity.
  destruct (existsb _ (it :: items)); reflexivity.
Qed.



Lemma fallbackSearch_eq (this : webSearchService)
    (axiosGet : searchRequest -> searchReply) (query : jstring) :
  fallbackSearch this axiosGet query
  = ( [fallbackRequest this query],
      map bareResult (hitsOf (axiosGet (fallbackRequest this query))) ).
Proof.
  unfold fallbackSearch. fold (fallbackRequest this query).
  destruct (axiosGet (fallbackRequest this query)) as [| | |[|it items]];
    reflexivity.
Qed.

(** Every ranked hit is one of the hits given. *)
Lemma rankResults_shows (items : list item) (query : jstring) (i : intent)
    (r : result) :
  In r (rankResults items query i) -> exists it, In it items /\ shows r it.
Proof.
  unfold rankResults. intros H.
  apply ResponseFacts.In_firstn in H. rename H into Hin.
  apply in_map_iff in Hin as (s & <- & Hs).
  apply (Permutation.Permutation_in s
           (Permutation.Permutation_sym (sortByScore_perm _))) in Hs.
  unfold scoreItems in Hs. apply in_map_iff in Hs as (it & <- & Hit).
  exists it. split; [exact Hit|]. now repeat split.
Qed.


End SearchFacts.

(* ================================================================== *)
(** * Facts about a conversation turn *)
(* ================================================================== *)

Module TurnFacts.

Import WebSearchService MistralService Vocabulary.

Local Open Scope string_scope.
Local Open Scope list_scope.

Lemma cleanedMessage_text (userMessage : jsval) (cleaned : jstring) :
  cleanedMessage userMessage = Some cleaned ->
  exists c rest,
    userMessage = VString (c :: rest) /\ cleaned = trim (c :: rest)
    /\ Nat.eqb (List.length cleaned) 0 = false.
Proof.
  destruct userMessage as [| |b|z|[|c rest]]; try discriminate.
  cbn [cleanedMessage].
  destruct (Nat.eqb (List.length (trim (c :: rest))) 0) eqn:E;
    [discriminate|].
  intros H. injection H as <-. now exists c, rest.
Qed.

(** A turn with a key and a message that is not blank. *)
Lemma generateResponse_turn (this : mistralService)
    (web : webSearchService) (axiosGet : searchRequest -> searchReply)
    (axiosPost : chatRequest -> chatReply) (userMessage : jsval)
    (cleaned : jstring) (leadInfo : leadContext)
    (messageHistory : list storedMessage) :
  present (apiKey this) = true ->
  cleanedMessage userMessage = Some cleaned ->
  let found := searchRealEstateInfo web axiosGet cleaned [] in
  let request :=
    turnRequest this (snd found) cleaned leadInfo messageHistory in
  generateResponse this web axiosGet axiosPost userMessage leadInfo
                   messageHistory
  = {| searches := fst found;
       chats := [request];
       result_of :=
         match axiosPost request with
         | ChatRejected => Returned apology
         | ChatContent content =>
             Returned (appendSearchResults
                         (or_else (Some content) unavailable)
                         (Some (snd found)) cleaned)
         end |}.
Proof.
  intros Hkey Hmsg.
  apply cleanedMessage_text in Hmsg as (c & rest & -> & -> & Hlen).
  unfold generateResponse, turnRequest, apology, unavailable.
  rewrite Hkey. cbn [negb]. rewrite Hlen.
  destruct (searchRealEstateInfo web axiosGet (trim (c :: rest)) [])
    as [sent hits].
  cbv beta iota zeta delta [fst snd].
  destruct (axiosPost _); reflexivity.
Qed.

(** A turn with a key and without a usable message. *)
Lemma generateResponse_no_message (this : mistralService)
    (web : webSearchService) (axiosGet : searchRequest -> searchReply)
    (axiosPost : chatRequest -> chatReply) (userMessage : jsval)
    (leadInfo : leadContext) (messageHistory : list storedMessage) :
  present (apiKey this) = true ->
  cleanedMessage userMessage = None ->
  generateResponse this web axiosGet axiosPost userMessage leadInfo
                   messageHistory
  = {| searches := []; chats := [];
       result_of :=
         Returned
           match userMessage with
           | VString (_ :: _) =>
               js "Please provide your question in detail so I can assist you better."
           | _ => js "Please ask a valid question."
           end |}.
Proof.
  intros H Hmsg. unfold generateResponse. rewrite H. cbn [negb].
  destruct userMessage as [| |b|z|[|c rest]]; try reflexivity.
  cbn [cleanedMessage] in Hmsg.
  destruct (Nat.eqb (List.length (trim (c :: rest))) 0);
    [reflexivity | discriminate].
Qed.

Lemma lastTen_length {X : Type} (l : list X) :
  (List.length (lastTen l) <= 10)%nat.
Proof. unfold lastTen. rewrite length_skipn. lia. Qed.

Lemma formatMessageHistory_length (messageHistory : list storedMessage) :
  (List.length (formatMessageHistory messageHistory) <= 10)%nat.
Proof.
  unfold formatMessageHistory. rewrite length_map. apply lastTen_length.
Qed.

End TurnFacts.

(* ================================================================== *)
(** * Facts about the prompts *)
(* ================================================================== *)

Module PromptFacts.

Import LanguageService MistralService Vocabulary StringFacts.

Local Open Scope string_scope.
Local Open Scope list_scope.

(** [extends a b]: [b] is [a] with something appended. *)
Lemma extends_refl (a : jstring) : extends a a.
Proof. exists []. now rewrite app_nil_r. Qed.

Lemma extends_app (a b t : jstring) : extends a b -> extends a (b ++ t).
Proof. intros (u & ->). exists (u ++ t). now rewrite app_assoc. Qed.

Lemma extends_trans (a b c : jstring) :
  extends a b -> extends b c -> extends a c.
Proof. intros (u & ->) (v & ->). exists (u ++ v). now rewrite app_assoc. Qed.

Lemma extends_addWhen (a : jstring) (value : option jstring)
    (line : jstring -> jstring) (message : jstring) :
  extends a message -> extends a (addWhen value line message).
Proof.
  intros H. unfold addWhen. destruct value as [[|c v]|]; try exact H.
  now apply extends_app.
Qed.

Lemma extends_if (a : jstring) (b : bool) (x y : jstring) :
  extends a x -> extends a y -> extends a (if b then x else y).
Proof. now destruct b. Qed.

Lemma extends_promptEntries (a : jstring) (rs : list result) (i : nat)
    (message : jstring) :
  extends a message -> extends a (promptEntries i rs message).
Proof.
  revert i message. induction rs as [|r rs IH]; intros i message H;
    [exact H|].
  cbn [promptEntries]. apply IH. now repeat apply extends_app.
Qed.

Lemma extends_contextEntries (a : jstring) (rs : list result) (i : nat)
    (context : jstring) :
  extends a context -> extends a (contextEntries i rs context).
Proof.
  revert i context. induction rs as [|r rs IH]; intros i context H;
    [exact H|].
  cbn [contextEntries]. apply IH. now repeat apply extends_app.
Qed.

Lemma extends_notes (a : jstring) (userMessage : jstring)
    (notes : list (RegExp * jstring)) (message : jstring) :
  extends a message ->
  extends a (fold_left (fun message e =>
                          if test (fst e) userMessage
                          then message ++ nl ++ nl ++ snd e
                          else message)
                       notes message).
Proof.
  revert message. induction notes as [|e notes IH]; intros message H;
    [exact H|].
  cbn [fold_left]. apply IH. apply extends_if; [|exact H].
  now apply extends_app.
Qed.

(** One stage of a chain of [let]s that only append. *)
Ltac stage :=
  lazymatch goal with
  | |- extends ?a (let message := ?e in @?body message) =>
      apply (extends_trans a e (body e));
      [ | cbv beta; generalize e; intros ]
  end.

Ltac appended :=
  repeat first
    [ apply extends_refl
    | apply extends_app
    | apply extends_promptEntries
    | apply extends_contextEntries
    | apply extends_addWhen
    | apply extends_notes
    | apply extends_if
    | match goal with
      | |- extends _ (match ?x with _ => _ end) => destruct x
      end ].

(** The enhanced message begins with the message of the user. *)
Lemma enhanceUserMessage_extends (userMessage : jstring)
    (leadInfo : leadContext) :
  extends userMessage (enhanceUserMessage userMessage leadInfo).
Proof.
  cbv beta delta [enhanceUserMessage].
  repeat (stage; [appended|]). appended.
Qed.

(** ** The instruction of the turn *)

Ltac settle := cbv beta iota delta [negb andb orb]; try reflexivity.

Ltac by_cases leadInfo historyInfo :=
  cbv beta iota delta [nextStep nextTopic askingOrder find isOpen known asked];
  destruct (truthy (l_name leadInfo)), (askedAboutName historyInfo);
  settle;
  destruct (truthy (l_propertyType leadInfo)),
           (askedAboutPropertyType historyInfo);
  settle;
  destruct (truthy (l_budget leadInfo)), (askedAboutBudget historyInfo);
  settle;
  destruct (truthy (l_preferredLocation leadInfo)),
           (askedAboutLocation historyInfo);
  settle.

Lemma currentInstructionsEnglish_step (isEnding hasAllBasicInfo : bool)
    (leadInfo : leadContext) (historyInfo : extractedInfo) :
  currentInstructionsEnglish isEnding hasAllBasicInfo leadInfo historyInfo
  = instructionEnglish
      (nextStep isEnding hasAllBasicInfo leadInfo historyInfo).
Proof.
  cbv beta delta [currentInstructionsEnglish].
  destruct isEnding; [reflexivity|].
  destruct hasAllBasicInfo; [reflexivity|].
  by_cases leadInfo historyInfo.
Qed.

Lemma currentInstructionsHindi_step (isEnding hasAllBasicInfo : bool)
    (leadInfo : leadContext) (historyInfo : extractedInfo) :
  currentInstructionsHindi isEnding hasAllBasicInfo leadInfo historyInfo
  = instructionHindi
      (nextStep isEnding hasAllBasicInfo leadInfo historyInfo).
Proof.
  cbv beta delta [currentInstructionsHindi].
  destruct isEnding; [reflexivity|].
  destruct hasAllBasicInfo; [reflexivity|].
  by_cases leadInfo historyInfo.
Qed.

Lemma includes_extends (a b w : jstring) :
  extends a b -> includes a w = true -> includes b w = true.
Proof. intros (t & ->) H. now apply includes_app_l. Qed.

(** A stage whose result does not matter for what follows. *)
Ltac pass :=
  lazymatch goal with
  | |- includes (let context := ?e in @?body context) ?w = true =>
      change (includes (body e) w = true); cbv beta;
      generalize e; intros
  end.

(** With the one-question flag, the system message contains the instruction
    of the step, in the rendering of the detected language. *)
Lemma systemContext_instruction (leadInfo : leadContext) :
  flagged (l_oneQuestionAtATime leadInfo) = true ->
  includes
    (systemContext leadInfo)
    (if hindiHeadings (promptLanguage leadInfo)
     then instructionHindi
            (nextStep (endingNow leadInfo) (allBasicInfo leadInfo) leadInfo
                      (historyOf leadInfo))
     else instructionEnglish
            (nextStep (endingNow leadInfo) (allBasicInfo leadInfo) leadInfo
                      (historyOf leadInfo)))
  = true.
Proof.
  intros Hflag. cbv beta delta [systemContext].
  lazymatch goal with
  | |- includes (let detectedLangCode := ?e in @?body detectedLangCode) ?w
       = true =>
      change (includes (body (promptLanguage leadInfo)) w = true); cbv beta
  end.
  generalize (promptLanguage leadInfo) as detectedLangCode.
  intros detectedLangCode.
  do 4 pass.
  lazymatch goal with
  | |- includes (let context := ?e in @?body context) ?w = true =>
      apply (includes_extends e (body e) w)
  end.
  - cbv beta. repeat (stage; [appended|]). appended.
  - rewrite Hflag. cbv beta iota zeta. fold (historyOf leadInfo).
    rewrite (currentInstructionsEnglish_step (endingNow leadInfo) (allBasicInfo leadInfo) leadInfo (historyOf leadInfo)), (currentInstructionsHindi_step (endingNow leadInfo) (allBasicInfo leadInfo) leadInfo (historyOf leadInfo)).
    apply includes_app_l.
    destruct (hindiHeadings detectedLangCode);
      rewrite app_assoc; apply includes_suffix.
Qed.

(** The seven instructions are pairwise different. *)
Lemma instructionEnglish_injective (s1 s2 : step) :
  instructionEnglish s1 = instructionEnglish s2 -> s1 = s2.
Proof.
  destruct s1 as [| |[]|], s2 as [| |[]|]; try reflexivity;
    intros H; vm_compute in H; discriminate H.
Qed.

Lemma instructionHindi_injective (s1 s2 : step) :
  instructionHindi s1 = instructionHindi s2 -> s1 = s2.
Proof.
  destruct s1 as [| |[]|], s2 as [| |[]|]; try reflexivity;
    intros H; vm_compute in H; discriminate H.
Qed.

End PromptFacts.

(* ================================================================== *)
(** * Facts about closing messages *)
(* ================================================================== *)

Module ClosingFacts.

Import MistralService Vocabulary StringFacts RegexFacts LanguageFacts.

Local Open Scope string_scope.
Local Open Scope list_scope.

(** ** Alternations of literal words *)

Lemma m_word_like (ci : bool) (A : Type) (w : jstring) (s : jstring)
    (cs : caps) (k : jstring -> caps -> option A) :
  m ci (word w) s cs k
  = if startsLike ci w s then k (skipn (List.length w) s) cs else None.
Proof.
  revert s. induction w as [|p w IH]; intros s.
  - now destruct s.
  - change (word (p :: w)) with (seq (RChar p) (word w)).
    rewrite m_seq. cbn [m].
    destruct s as [|c s]; [reflexivity|].
    cbn [startsLike]. destruct (char_match ci p c); [|reflexivity].
    now rewrite IH.
Qed.

Lemma m_alts_like (ci : bool) (A : Type) (w : jstring) (ws : list jstring)
    (s : jstring) (cs : caps) (k : jstring -> caps -> option A) :
  (forall s' cs', isSome (k s' cs') = true) ->
  isSome (m ci (alts (map word (w :: ws))) s cs k)
  = existsb (fun x => startsLike ci x s) (w :: ws).
Proof.
  intros Hk. revert w.
  induction ws as [|w2 ws IH]; intros w.
  - cbn [map alts existsb]. rewrite m_word_like, orb_false_r.
    destruct (startsLike ci w s); [apply Hk | reflexivity].
  - change (alts (map word (w :: w2 :: ws)))
      with (RAlt (word w) (alts (map word (w2 :: ws)))).
    cbn [m]. rewrite m_word_like.
    change (existsb (fun x => startsLike ci x s) (w :: w2 :: ws))
      with (startsLike ci w s
            || existsb (fun x => startsLike ci x s) (w2 :: ws)).
    rewrite <- (IH w2).
    destruct (startsLike ci w s).
    + specialize (Hk (skipn (List.length w) s) cs).
      destruct (k (skipn (List.length w) s) cs); [reflexivity|discriminate].
    + reflexivity.
Qed.

Lemma test_keywordAlternation (w : jstring) (ws : list jstring)
    (s : jstring) :
  test (keywordAlternation (w :: ws)) s
  = existsb (fun x => anySuffix (startsLike true x) s) (w :: ws).
Proof.
  rewrite (test_anySuffix (keywordAlternation (w :: ws)) _ s eq_refl).
  cbn [ignoreCase keywordAlternation].
  rewrite (anySuffix_ext _ (fun t => existsb (fun x => startsLike true x t)
                                             (w :: ws))).
  - apply anySuffix_existsb.
  - intros t. unfold match_here. now apply m_alts_like.
Qed.

(** ** Texts without capital letters *)

Lemma char_match_noCapital (p c : N) :
  negb (N.leb 65 p && N.leb p 90) = true ->
  negb (N.leb 65 c && N.leb c 90) = true ->
  char_match true p c = N.eqb p c.
Proof.
  unfold char_match, upper_cu. intros Hp Hc.
  apply negb_true_iff in Hp, Hc.
  destruct (N.eqb p c) eqn:E.
  - apply N.eqb_eq in E. subst c. apply N.eqb_refl.
  - apply N.eqb_neq in E. apply N.eqb_neq.
    destruct (N.leb 97 p && N.leb p 122) eqn:Ep;
      destruct (N.leb 97 c && N.leb c 122) eqn:Ec;
      rewrite ?andb_true_iff, ?andb_false_iff, ?N.leb_le, ?N.leb_gt in *;
      lia.
Qed.

Lemma startsLike_noCapital (w s : jstring) :
  noCapital w = true -> noCapital s = true ->
  startsLike true w s = starts_with w s.
Proof.
  revert s. induction w as [|p w IH]; intros s Hw Hs; [now destruct s|].
  destruct s as [|c s]; [reflexivity|].
  cbn [noCapital forallb] in Hw, Hs.
  apply andb_true_iff in Hw as [Hp Hw], Hs as [Hc Hs].
  cbn [startsLike starts_with].
  rewrite (char_match_noCapital p c Hp Hc). now rewrite IH.
Qed.

Lemma anySuffix_startsLike (w s : jstring) :
  noCapital w = true -> noCapital s = true ->
  anySuffix (startsLike true w) s = includes s w.
Proof.
  intros Hw. induction s as [|c s IH]; intros Hs.
  - cbn [anySuffix includes]. now rewrite (startsLike_noCapital w [] Hw Hs).
  - cbn [anySuffix includes].
    rewrite (startsLike_noCapital w (c :: s) Hw Hs).
    cbn [noCapital forallb] in Hs. apply andb_true_iff in Hs as [_ Hs].
    now rewrite (IH Hs).
Qed.

Lemma noCapital_toLowerCase (s : jstring) : noCapital (toLowerCase s) = true.
Proof.
  induction s as [|c s IH]; [reflexivity|].
  cbn [toLowerCase map noCapital forallb]. fold (toLowerCase s).
  fold (noCapital (toLowerCase s)). rewrite IH, andb_true_r.
  unfold lower_cu. apply negb_true_iff.
  destruct (N.leb 65 c && N.leb c 90) eqn:E.
  - apply andb_true_iff in E as [E1 E2]. apply N.leb_le in E1, E2.
    apply andb_false_iff. right. apply N.leb_gt. lia.
  - exact E.
Qed.

(** On a text without capitals, an alternation of words without capitals
    matches when one of the words occurs. *)
Lemma test_words (ws : list jstring) (s : jstring) :
  ws <> [] -> forallb noCapital ws = true -> noCapital s = true ->
  test (keywordAlternation ws) s = existsb (includes s) ws.
Proof.
  intros Hne Hws Hs. destruct ws as [|w ws]; [congruence|].
  rewrite test_keywordAlternation.
  rewrite forallb_forall in Hws.
  generalize (w :: ws) Hws. clear - Hs.
  intros l Hl. induction l as [|x l IH]; [reflexivity|].
  cbn [existsb]. rewrite anySuffix_startsLike.
  - f_equal. apply IH. intros y Hy. apply Hl. now right.
  - apply Hl. now left.
  - exact Hs.
Qed.

(** ** The closing patterns *)

Lemma endingPhrases_words : endingPhrases = map keywordAlternation endingWords.
Proof. vm_compute. reflexivity. Qed.

Lemma words_tested (lists : list (list jstring)) (s : jstring) :
  forallb (fun ws => match ws with [] => false | _ => forallb noCapital ws end)
          lists = true ->
  noCapital s = true ->
  existsb (fun phrase => test phrase s) (map keywordAlternation lists)
  = existsb (includes s) (List.concat lists).
Proof.
  intros Hl Hs. induction lists as [|ws lists IH]; [reflexivity|].
  cbn [forallb] in Hl. apply andb_true_iff in Hl as [Hws Hl].
  cbn [map existsb List.concat]. rewrite existsb_app, (IH Hl). f_equal.
  destruct ws as [|w ws]; [discriminate|].
  now apply test_words.
Qed.

Lemma isEnding_words (s : jstring) :
  noCapital s = true ->
  existsb (fun phrase => test phrase s) endingPhrases
  = existsb (includes s) (List.concat endingWords).
Proof.
  intros Hs. rewrite endingPhrases_words. apply words_tested; [|exact Hs].
  vm_compute. reflexivity.
Qed.

Lemma includes_refl (s : jstring) : includes s s = true.
Proof.
  pose proof (includes_prefix s []) as H. now rewrite app_nil_r in H.
Qed.

Lemma includes_trans (a b c : jstring) :
  includes a b = true -> includes b c = true -> includes a c = true.
Proof.
  intros Hab Hbc.
  apply includes_split in Hab as (p1 & q1 & ->).
  apply includes_split in Hbc as (p2 & q2 & ->).
  replace (p1 ++ (p2 ++ c ++ q2) ++ q1)
    with ((p1 ++ p2) ++ c ++ (q2 ++ q1))
    by (now rewrite <- !app_assoc).
  apply includes_middle.
Qed.

(** Every short closing phrase contains an alternative of a closing
    pattern. *)
Lemma short_phrase_covered (s phrase : jstring) :
  In phrase shortEndingPhrases ->
  str_eqb s phrase || includes s phrase = true ->
  existsb (includes s) (List.concat endingWords) = true.
Proof.
  intros Hin H.
  assert (Hs : includes s phrase = true).
  { apply orb_true_iff in H as [H|H]; [|exact H].
    unfold str_eqb in H.
    destruct (list_eq_dec N.eq_dec s phrase) as [->|]; [|discriminate].
    apply includes_refl. }
  assert (Hcov : forallb (fun phrase =>
                            existsb (includes phrase)
                                    (List.concat endingWords))
                         shortEndingPhrases = true)
    by (vm_compute; reflexivity).
  rewrite forallb_forall in Hcov. specialize (Hcov phrase Hin).
  apply existsb_exists in Hcov as (w & Hw & Hpw).
  apply existsb_exists. exists w. split; [exact Hw|].
  now apply (includes_trans s phrase w).
Qed.

(** The closing test in closed form. *)
Lemma isConversationEnding_closed (message : jstring) :
  isConversationEnding message
  = truthy message
    && (existsb (includes (normalized message)) (List.concat endingWords)
        || shortNonQuestion (normalized message)).
Proof.
  unfold isConversationEnding.
  destruct (truthy message); cbn [negb andb]; [|reflexivity].
  fold (normalized message). fold (shortNonQuestion (normalized message)).
  rewrite (isEnding_words (normalized message))
    by apply noCapital_toLowerCase.
  match goal with
  | |- (if ?c then true else _) = _ => destruct c eqn:E
  end; [|reflexivity].
  apply andb_true_iff in E as [_ E].
  apply existsb_exists in E as (phrase & Hin & Hphrase).
  now rewrite (short_phrase_covered _ phrase Hin Hphrase).
Qed.

(** ** Short messages *)

Lemma lower_cu_qmark (c : N) : lower_cu c = qmark -> c = qmark.
Proof.
  unfold lower_cu, qmark.
  destruct (N.leb 65 c && N.leb c 90) eqn:E; [|auto].
  apply andb_true_iff in E as [E1 E2]. apply N.leb_le in E1, E2. lia.
Qed.

Lemma includes_char (s : jstring) (c : N) :
  includes s [c] = true -> In c s.
Proof.
  intros H. apply includes_split in H as (pre & post & ->).
  apply in_or_app. right. now left.
Qed.

Lemma normalized_no_qmark (message : jstring) :
  ~ In qmark message -> includes (normalized message) (js "?") = false.
Proof.
  intros Hno.
  destruct (includes (normalized message) (js "?")) eqn:E; [|reflexivity].
  change (js "?") with [qmark] in E. apply includes_char in E.
  unfold normalized, toLowerCase in E.
  apply in_map_iff in E as (c & Hc & Hin).
  apply lower_cu_qmark in Hc. subst c.
  apply In_trim in Hin. contradiction.
Qed.

Lemma normalized_length (message : jstring) :
  List.length (normalized message) = List.length (trim message).
Proof. unfold normalized, toLowerCase. apply length_map. Qed.

(** Membership by computation. *)
Lemma In_check (x : jstring) (l : list jstring) :
  existsb (str_eqb x) l = true -> In x l.
Proof.
  intros H. apply existsb_exists in H as (y & Hy & E).
  unfold str_eqb in E.
  destruct (list_eq_dec N.eq_dec x y) as [->|]; [exact Hy | discriminate].
Qed.

Lemma endingWords_truthy (w : jstring) :
  In w (List.concat endingWords) -> truthy w = true.
Proof.
  assert (H : forallb truthy (List.concat endingWords) = true)
    by (vm_compute; reflexivity).
  rewrite forallb_forall in H. apply H.
Qed.

End ClosingFacts.

(* ================================================================== *)
(** * Facts about the need for a search *)
(* ================================================================== *)

Module NeedFacts.

Import WebSearchService Vocabulary StringFacts.

Local Open Scope string_scope.
Local Open Scope list_scope.

Lemma lower_upper (c : N) : lower_cu (upper_cu c) = lower_cu c.
Proof.
  unfold lower_cu, upper_cu.
  destruct (N.leb 97 c && N.leb c 122) eqn:E.
  - apply andb_true_iff in E as [E1 E2]. apply N.leb_le in E1, E2.
    replace (N.leb 65 (c - 32) && N.leb (c - 32) 90) with true
      by (symmetry; apply andb_true_iff; split; apply N.leb_le; lia).
    replace (N.leb 65 c && N.leb c 90) with false
      by (symmetry; apply andb_false_iff; right; apply N.leb_gt; lia).
    lia.
  - reflexivity.
Qed.

Lemma toLowerCase_toUpperCase (s : jstring) :
  toLowerCase (toUpperCase s) = toLowerCase s.
Proof.
  unfold toLowerCase, toUpperCase. rewrite map_map.
  apply map_ext. apply lower_upper.
Qed.

Lemma needsWebSearch_context (a q b : jstring) :
  needsWebSearch q = true -> needsWebSearch (a ++ q ++ b) = true.
Proof.
  unfold needsWebSearch. intros H.
  apply existsb_exists in H as (keyword & Hk & Hin).
  apply existsb_exists. exists keyword. split; [exact Hk|].
  rewrite !toLowerCase_app. now apply includes_app_r, includes_app_l.
Qed.

End NeedFacts.

(* ================================================================== *)
(** * Facts about the search engine ID *)
(* ================================================================== *)

Module EngineIdFacts.

Import WebSearchService Vocabulary StringFacts.

Local Open Scope string_scope.
Local Open Scope list_scope.

Lemma clear_groups_nil (cs : caps) : clear_groups [] cs = cs.
Proof.
  unfold clear_groups. induction cs as [|p cs IH]; [reflexivity|].
  cbn [filter existsb negb]. f_equal. exact IH.
Qed.

Lemma class_not_ampersand (c : N) :
  class_match false true [CRange 38 38] c = negb (N.eqb c ampersand).
Proof.
  unfold class_match, ampersand. cbn [existsb citem_match andb orb].
  rewrite !orb_false_r.
  destruct (N.eqb_spec c 38) as [->|Hne]; [reflexivity|].
  replace ((38 <=? c)%N && (c <=? 38)%N) with false; [reflexivity|].
  symmetry. apply andb_false_iff.
  destruct (N.leb_spec 38 c); [right; apply N.leb_gt; lia | now left].
Qed.

Lemma upTo_from (s : jstring) : s = upToAmpersand s ++ fromAmpersand s.
Proof.
  induction s as [|c s IH]; [reflexivity|]. cbn [upToAmpersand fromAmpersand].
  destruct (N.eqb c ampersand); [reflexivity|]. simpl. now rewrite <- IH.
Qed.

Lemma upTo_no_ampersand (s : jstring) : ~ In ampersand (upToAmpersand s).
Proof.
  induction s as [|c s IH]; [intros []|]. cbn [upToAmpersand].
  destruct (N.eqb_spec c ampersand) as [E|E]; [intros []|].
  intros [H|H]; [congruence | now apply IH].
Qed.

Lemma upTo_value (v rest : jstring) :
  ~ In ampersand v -> (rest = [] \/ exists t, rest = ampersand :: t) ->
  upToAmpersand (v ++ rest) = v.
Proof.
  intros Hv Hrest. induction v as [|c v IH].
  - destruct Hrest as [->|[t ->]]; [reflexivity|].
    cbn [app upToAmpersand]. now rewrite N.eqb_refl.
  - cbn [app upToAmpersand].
    destruct (N.eqb_spec c ampersand) as [E|E].
    + exfalso. apply Hv. now left.
    + f_equal. apply IH. intros H. apply Hv. now right.
Qed.

(** The greedy loop of [[^&]+] and [[^&]*] before a continuation that
    accepts whatever is left: it stops at the first ampersand. *)
Lemma value_loop (A : Type) (k : jstring -> caps -> option A) (s : jstring) :
  (forall s' cs', k s' cs' <> None) ->
  forall (fuel lo : nat) (cs : caps),
    (lo + List.length s <= fuel)%nat ->
    repeat_loop
      (fun s0 cs0 (k0 : jstring -> caps -> option A) =>
         m false (RClass true [CRange 38 38]) s0
           (clear_groups (groups_of (RClass true [CRange 38 38])) cs0) k0)
      k true fuel lo None s cs
    = if Nat.leb lo (List.length (upToAmpersand s))
      then k (fromAmpersand s) cs else None.
Proof.
  intros Hk. induction s as [|c s IH]; intros fuel lo cs Hfuel.
  - cbn [upToAmpersand fromAmpersand List.length].
    destruct fuel as [|fuel]; cbn [repeat_loop m].
    + destruct lo; [reflexivity | simpl in Hfuel; lia].
    + destruct lo; reflexivity.
  - destruct fuel as [|fuel]; [simpl in Hfuel; lia|].
    cbn [repeat_loop m groups_of upToAmpersand fromAmpersand].
    rewrite class_not_ampersand, clear_groups_nil.
    destruct (N.eqb c ampersand); cbn [negb List.length].
    + destruct lo; reflexivity.
    + replace (Nat.eqb (List.length s) (S (List.length s))) with false
        by (symmetry; apply Nat.eqb_neq; lia).
      rewrite andb_false_r. cbn [option_map].
      rewrite IH by (simpl in Hfuel; lia).
      destruct lo as [|lo]; cbn [pred Nat.leb]; [|reflexivity].
      destruct (k (fromAmpersand s) cs) eqn:E; [reflexivity|].
      now apply Hk in E.
Qed.

Lemma pattern_engineId : pattern (re "cx=([^&]+)" "") = Some engineId.
Proof. vm_compute. reflexivity. Qed.

Lemma firstn_upTo (u : jstring) :
  firstn (List.length u - List.length (fromAmpersand u)) u = upToAmpersand u.
Proof.
  rewrite (upTo_from u) at 1 3. rewrite length_app.
  replace (List.length (upToAmpersand u) + List.length (fromAmpersand u)
           - List.length (fromAmpersand u))%nat
    with (List.length (upToAmpersand u) + 0)%nat by lia.
  rewrite firstn_app_2. simpl. apply app_nil_r.
Qed.

Lemma match_here_engineId (s : jstring) :
  match_here false engineId s
  = match valueHere s with
    | Some v => Some ((3 + List.length v)%nat, [(1%nat, v)])
    | None => None
    end.
Proof.
  unfold valueHere. change (js "cx=") with [99%N; 120%N; 61%N].
  unfold match_here, engineId. cbn [m starts_with]. unfold char_match.
  destruct s as [|c0 s]; [reflexivity|].
  destruct (N.eqb 99 c0); [|reflexivity].
  destruct s as [|c1 s]; [reflexivity|].
  destruct (N.eqb 120 c1); [|reflexivity].
  destruct s as [|c2 u]; [reflexivity|].
  destruct (N.eqb 61 c2); [|reflexivity].
  cbn [andb skipn].
  rewrite value_loop; [| discriminate | lia].
  rewrite firstn_upTo.
  pose proof (upTo_from u) as Hu. apply (f_equal (@List.length N)) in Hu.
  rewrite length_app in Hu.
  destruct (upToAmpersand u) as [|c v] eqn:E; [reflexivity|].
  cbn [Nat.leb List.length]. cbn [List.length] in Hu.
  do 2 f_equal. lia.
Qed.

Lemma valueHere_truthy (s v : jstring) : valueHere s = Some v -> v <> [].
Proof.
  unfold valueHere. destruct (starts_with _ s); [|discriminate].
  destruct (upToAmpersand _); [discriminate|].
  intros H; injection H as <-. discriminate.
Qed.

Lemma search_engineId (s : jstring) (i : nat) :
  match search false engineId i s with
  | Some (_, _, cs) =>
      match capture 1 cs with
      | Some (c :: v) => Some (c :: v)
      | _ => None
      end
  | None => None
  end = cxValue s.
Proof.
  revert i.
  induction s as [|c s IH]; intros i; cbn [search cxValue];
    rewrite match_here_engineId.
  - destruct (valueHere []) as [v|] eqn:E; [|reflexivity].
    cbn [capture Nat.eqb]. apply valueHere_truthy in E.
    destruct v; [contradiction|reflexivity].
  - destruct (valueHere (c :: s)) as [v|] eqn:E; [|apply IH].
    cbn [capture Nat.eqb]. apply valueHere_truthy in E.
    destruct v; [contradiction|reflexivity].
Qed.

Lemma match_group_engineId (s : jstring) :
  match_group (re "cx=([^&]+)" "") 1 s = cxValue s.
Proof.
  unfold match_group, exec. rewrite pattern_engineId.
  change (ignoreCase (re "cx=([^&]+)" "")) with false.
  apply search_engineId.
Qed.

Lemma valueHere_sound (s v : jstring) :
  valueHere s = Some v ->
  v <> [] /\ ~ In ampersand v /\ exists rest, s = js "cx=" ++ v ++ rest.
Proof.
  intros H. split; [now apply valueHere_truthy in H|].
  unfold valueHere in H.
  destruct (starts_with (js "cx=") s) eqn:E; [|discriminate].
  apply starts_with_split in E as [post ->].
  change (skipn 3 (js "cx=" ++ post)) with post in H.
  assert (Hv : upToAmpersand post = v)
    by (destruct (upToAmpersand post); [discriminate | now injection H]).
  subst v. split; [apply upTo_no_ampersand|].
  exists (fromAmpersand post). now rewrite <- upTo_from.
Qed.

Lemma cxValue_sound (s v : jstring) :
  cxValue s = Some v ->
  v <> [] /\ ~ In ampersand v /\ includes s (js "cx=" ++ v) = true.
Proof.
  induction s as [|c s IH]; cbn [cxValue].
  - destruct (valueHere []) eqn:E; [|discriminate].
    vm_compute in E. discriminate.
  - destruct (valueHere (c :: s)) as [w|] eqn:E.
    + intros H; injection H as ->.
      apply valueHere_sound in E as (H1 & H2 & rest & ->).
      split; [exact H1|]. split; [exact H2|].
      rewrite app_assoc. apply includes_prefix.
    + intros H. destruct (IH H) as (H1 & H2 & H3).
      split; [exact H1|]. split; [exact H2|].
      cbn [includes]. rewrite H3. apply orb_true_r.
Qed.

Lemma cxValue_none (s : jstring) :
  includes s (js "cx=") = false -> cxValue s = None.
Proof.
  induction s as [|c s IH]; intros H.
  - vm_compute. reflexivity.
  - cbn [includes] in H. apply orb_false_iff in H as [H1 H2].
    cbn [cxValue]. unfold valueHere. rewrite H1. now apply IH.
Qed.

Lemma starts_with_within (w a b : jstring) :
  (List.length w <= List.length a)%nat ->
  starts_with w (a ++ b) = true -> starts_with w a = true.
Proof.
  revert a. induction w as [|x w IH]; intros a Hlen H; [reflexivity|].
  destruct a as [|y a]; [simpl in Hlen; lia|].
  simpl in H |- *. apply andb_true_iff in H as [H1 H2].
  rewrite H1. apply IH; [simpl in Hlen; lia | exact H2].
Qed.

(** The first [cx=] of the text with its value, up to the end or to the
    next ampersand. *)
Lemma cxValue_url (pre v rest : jstring) :
  includes (pre ++ js "cx") (js "cx=") = false ->
  v <> [] -> ~ In ampersand v ->
  (rest = [] \/ exists t, rest = ampersand :: t) ->
  cxValue (pre ++ js "cx=" ++ v ++ rest) = Some v.
Proof.
  intros Hpre Hv Hamp Hrest. induction pre as [|c pre IH].
  - cbn [app]. destruct v as [|v0 v]; [contradiction|].
    assert (E : valueHere (js "cx=" ++ (v0 :: v) ++ rest) = Some (v0 :: v)).
    { unfold valueHere. rewrite starts_with_refl_app.
      change (skipn 3 (js "cx=" ++ (v0 :: v) ++ rest))
        with ((v0 :: v) ++ rest).
      now rewrite (upTo_value (v0 :: v) rest Hamp Hrest). }
    destruct (js "cx=" ++ (v0 :: v) ++ rest); cbn [cxValue]; now rewrite E.
  - cbn [app includes] in Hpre. apply orb_false_iff in Hpre as [H1 H2].
    cbn [app cxValue]. unfold valueHere.
    destruct (starts_with (js "cx=") (c :: pre ++ js "cx=" ++ v ++ rest))
      eqn:E; [|now apply IH].
    exfalso.
    replace (c :: pre ++ js "cx=" ++ v ++ rest)
      with ((c :: pre ++ js "cx") ++ (js "=" ++ v ++ rest)) in E
      by (cbn [app]; f_equal; rewrite <- app_assoc; reflexivity).
    apply starts_with_within in E.
    + rewrite E in H1. discriminate.
    + cbn [List.length]. rewrite length_app.
      change (List.length (js "cx=")) with 3%nat.
      change (List.length (js "cx")) with 2%nat. lia.
Qed.

(** The engine ID of the service in closed form. *)
Lemma searchEngineIdOf_cxValue (id : jstring) :
  searchEngineIdOf (Some id)
  = Some match cxValue id with Some v => v | None => id end.
Proof.
  unfold searchEngineIdOf. rewrite match_group_engineId.
  destruct (truthy id && includes id (js "cx=")) eqn:E.
  - destruct (cxValue id); reflexivity.
  - apply andb_false_iff in E as [E|E].
    + apply truthy_false in E. subst id. vm_compute. reflexivity.
    + now rewrite (cxValue_none id E).
Qed.

End EngineIdFacts.

(* ================================================================== *)
(** * The model on concrete inputs *)
(* ================================================================== *)

Module Examples.

Import LanguageService WebSearchService MistralService Vocabulary.

Local Open Scope string_scope.
Local Open Scope list_scope.

(** Every pattern of the three services is accepted by the parser. *)
Lemma patterns_well_formed :
  forallb well_formed
    (List.concat (map snd languagePatterns)
     ++ locationPatterns ++ budgetPatterns ++ bedroomPatterns
     ++ pricePatterns ++ propertyDetailPatterns ++ recencyPatterns
     ++ buyPatterns ++ rentPatterns ++ [realEstateVocabulary]
     ++ nameQuestionPatterns ++ budgetQuestionPatterns
     ++ locationQuestionPatterns ++ propertyTypeQuestionPatterns
     ++ nameResponsePatterns ++ budgetResponsePatterns
     ++ [locationResponsePattern] ++ endingPhrases ++ questionPatterns
     ++ [ bedroomPattern (js "3") "bhk"; bedroomPattern (js "3") "bedroom";
          bedroomPattern (js "3") "bed"; bedroomPattern (js "3") "rk" ])
  = true.
Proof. vm_compute. reflexivity. Qed.

(** For a digit string the pattern built by [bedroomPattern] is the one the
    [RegExp] constructor parses from the source text. *)
Example bedroomPattern_as_parsed :
  pattern (bedroomPattern (js "12") "bhk") = pattern (re "12\s*bhk" "i")
  /\ pattern (bedroomPattern (js "3") "rk") = pattern (re "3\s*rk" "i").
Proof. vm_compute. split; reflexivity. Qed.

Example premium_names :
  premiumSites = [ js "99acres"; js "magicbricks"; js "housing";
                   js "nobroker"; js "commonfloor"; js "squareyards";
                   js "makaan"; js "proptiger" ].
Proof. vm_compute. reflexivity. Qed.

Example intent_of_a_query :
  extractIntent (js "Two BHK house to buy, budget is Rs. 75,00,000") []
  = {| location := []; budget := js "7500000"; propertyType := js "house";
       transactionType := js "buy"; bedrooms := js "2" |}.
Proof. vm_compute. reflexivity. Qed.

Example location_after_preposition :
  location (extractIntent (js "3 bhk villa near Baner") []) = js "Baner".
Proof. vm_compute. reflexivity. Qed.

Example enhanced_query :
  buildEnhancedQuery (js "2 bhk in Pune")
                     (extractIntent (js "2 bhk in Pune") [])
  = js "2 bhk in Pune real estate property (99acres.com OR magicbricks.com OR housing.com OR nobroker.in OR commonfloor.com OR squareyards.com OR makaan.com OR proptiger.com)".
Proof. vm_compute. reflexivity. Qed.

(** A listing on a premium portal that matches the intent outscores the
    same kind of hit on an unknown site that matches nothing. *)
Example premium_listing_outscores_unrelated_hit :
  let listing :=
    {| title := js "3 BHK Flat in Pune for Sale";
       link := js "https://www.99acres.com/3-bhk-flat-pune";
       snippet := js "Spacious flat priced at ₹75 lakh with gym and parking";
       pagemap := None |} in
  let other :=
    {| title := js "Weekly cooking tips";
       link := js "https://example.org/tips";
       snippet := js "Ten recipes for busy evenings";
       pagemap := None |} in
  calculateRelevanceScore listing (js "3 bhk flat in pune") (js "pune")
                          (js "flat") (js "buy") (js "3") = 95%Z
  /\ calculateRelevanceScore other (js "3 bhk flat in pune") (js "pune")
                             (js "flat") (js "buy") (js "3") = (-20)%Z.
Proof. vm_compute. split; reflexivity. Qed.

Example ranking_keeps_ties_in_order :
  let hit t := {| title := js t; link := js "https://example.org/";
                  snippet := js "nothing"; pagemap := None |} in
  let i := {| location := []; budget := []; propertyType := [];
              transactionType := []; bedrooms := [] |} in
  map r_title
      (rankResults [hit "a"; hit "flat b"; hit "c"; hit "flat d"; hit "e";
                    hit "f"] (js "q") i)
  = [js "flat b"; js "flat d"; js "a"; js "c"; js "e"].
Proof. vm_compute. reflexivity. Qed.

Example history_of_a_budget_exchange :
  extractInfoFromHistory
    [ {| t_role := Assistant; content := js "What is your budget?" |};
      {| t_role := User; content := js "My budget is 5000000" |} ]
  = {| askedAboutName := false; askedAboutBudget := true;
       askedAboutLocation := false; askedAboutPropertyType := false;
       provided := {| p_name := None; p_budget := Some (js "5000000");
                      p_propertyType := None;
                      p_preferredLocation := None |} |}.
Proof. vm_compute. reflexivity. Qed.

Example closing_messages :
  isConversationEnding (js "thanks") = true
  /\ isConversationEnding (js "What is the price of 2 BHK in Pune?") = false
  /\ isConversationEnding (js "Pune") = true.
Proof. vm_compute. repeat split. Qed.

Example cleaned_response :
  cleanResponse
    (js "The price is 50 lakh. Would you like to see more options? What is your budget?")
    (js "what does a flat in pune cost")
  = js "The price is 50 lakh..".
Proof. vm_compute. reflexivity. Qed.

Example detected_languages :
  map (fun t => detectLanguage (VString (js t)))
      [ "hello"; "नमस्ते"; "मला घर हवे आहे"; "મને ઘર જોઈએ"; "আমি বাড়ি চাই";
        "ہیلو دوست"; "हम" ]
  = [ "en"; "hi"; "hi"; "gu"; "bn"; "ur"; "hi" ].
Proof. vm_compute. reflexivity. Qed.

(** A lead whose property type is the name of an inherited member: when
    neither the title nor the snippet of a hit has that name, scoring the
    hit throws, the fallback request follows, and the hits of its reply
    are returned as they are. *)
Example inherited_type_falls_back :
  let this := {| googleApiKey := Some (js "key");
                 googleSearchEngineId := Some (js "engine") |} in
  let hit := {| title := js "2 BHK flat in Baner";
                link := js "https://www.99acres.com/p1";
                snippet := js "Ready to move"; pagemap := None |} in
  let lead := [("propertyType", js "constructor")] in
  searchRealEstateInfo this (fun _ => Items [hit]) (js "flat in Baner") lead
  = ( [ primaryRequest this (js "flat in Baner") lead;
        fallbackRequest this (js "flat in Baner") ],
      [ bareResult hit ] ).
Proof. vm_compute. reflexivity. Qed.

End Examples.

(* ================================================================== *)
(** * The specification's claims *)
(* ================================================================== *)

Import LanguageService WebSearchService MistralService Vocabulary.

Local Open Scope string_scope.
Local Open Scope list_scope.

(** ** C1: slots carried over from the known record *)

(** C1, as stated, fails: a transaction type or a bedroom count present in
    the known record is not copied; both slots are derived from the query
    text. *)
Lemma C1_counterexample :
  let lead := [("transactionType", js "buy"); ("bedrooms", js "3");
               ("bedroomCount", js "3")] in
  let r := extractIntent (js "2 bhk flat for rent") lead in
  knownSlot lead "transactionType" = js "buy" /\
  transactionType r = js "rent" /\
  transactionType r <> knownSlot lead "transactionType" /\
  knownSlot lead "bedrooms" = js "3" /\
  knownSlot lead "bedroomCount" = js "3" /\
  bedrooms r = js "2" /\
  bedrooms r <> knownSlot lead "bedrooms".
Proof.
  vm_compute. repeat split; discriminate.
Qed.

(** C1 (amended).  For every query and every known record, the location,
    the budget and the property type are copied verbatim from the known
    record ([preferredLocation], [budget], [propertyType]) whenever they are
    non-empty there, and are then never replaced by a value extracted from
    the query.  The transaction type and the bedroom count do not depend on
    the known record at all: they are always derived from the query. *)
Theorem C1_known_location_budget_type_kept (query : jstring) (lead : leadInfo) :
  (truthy (knownSlot lead "preferredLocation") = true ->
   location (extractIntent query lead) = knownSlot lead "preferredLocation")
  /\ (truthy (knownSlot lead "budget") = true ->
      budget (extractIntent query lead) = knownSlot lead "budget")
  /\ (truthy (knownSlot lead "propertyType") = true ->
      propertyType (extractIntent query lead) = knownSlot lead "propertyType")
  /\ (forall lead' : leadInfo,
        transactionType (extractIntent query lead')
          = transactionType (extractIntent query lead)
        /\ bedrooms (extractIntent query lead')
          = bedrooms (extractIntent query lead)).
Proof.
  unfold extractIntent, extractLocation, extractBudget, extractPropertyType.
  cbn [location budget propertyType transactionType bedrooms].
  repeat split.
  - intros H. now rewrite H.
  - intros H. now rewrite H.
  - intros H. now rewrite H.
Qed.

Lemma C1_witness :
  let lead := [("preferredLocation", js "Mumbai")] in
  truthy (knownSlot lead "preferredLocation") = true /\
  location (extractIntent (js "2 bhk in Pune") lead) = js "Mumbai".
Proof.
  split; [reflexivity|].
  apply (proj1 (C1_known_location_budget_type_kept
                  (js "2 bhk in Pune") [("preferredLocation", js "Mumbai")])).
  reflexivity.
Defined.

(** ** C2: enhancing an enhanced query *)




(** ** C3: the ranked list *)

(** C3.  For every list of raw hits, query and intent, the ranked list has
    at most five entries; it renders the first five of the scored hits in
    an order of non-increasing relevance score; every hit left out scores no
    more than every hit kept; and hits of equal score keep their original
    relative order (for each score, the kept hits of that score are the
    first ones of the input with that score, in input order). *)
Theorem C3_ranked_top_five_sorted_stable
    (items : list item) (query : jstring) (i : intent) :
  (List.length (rankResults items query i) <= 5)%nat
  /\ exists kept dropped : list scored,
       rankResults items query i = map enhanceItem kept
       /\ Permutation (kept ++ dropped) (scoreItems items query i)
       /\ StronglySorted outranks kept
       /\ Forall (fun k => Forall (outranks k) dropped) kept
       /\ forall v : Z,
            filter (hasScore v) (scoreItems items query i)
            = filter (hasScore v) kept
              ++ filter (hasScore v) dropped.
Proof.
  unfold rankResults. set (hits := scoreItems items query i).
  split.
  - rewrite length_firstn. lia.
  - exists (firstn 5 (sortByScore hits)), (skipn 5 (sortByScore hits)).
    pose proof (RankingFacts.sortByScore_sorted hits) as Hsorted.
    rewrite <- (firstn_skipn 5 (sortByScore hits)) in Hsorted.
    apply RankingFacts.StronglySorted_app_inv in Hsorted
      as (Hkept & _ & Hcross).
    repeat split.
    + now rewrite firstn_map.
    + rewrite firstn_skipn. apply Permutation_sym.
      apply RankingFacts.sortByScore_perm.
    + exact Hkept.
    + exact Hcross.
    + intros v. rewrite <- filter_app, firstn_skipn.
      symmetry. apply RankingFacts.sortByScore_stable.
Qed.

(** ** C4: question marks in the returned text *)

(** C4, as stated, fails in two ways: with an empty hit list the generated
    text is returned as it is, question marks included; and the digest that
    is appended after the clean-up repeats the hits' titles verbatim. *)
Lemma C4_counterexample :
  let hit := {| r_title := js "Why buy now?"; r_link := js "https://x.in/a";
                r_snippet := js "A guide for buyers";
                r_description := None; r_image := None;
                r_price := None; r_name := None |} in
  appendSearchResults (js "Is it a flat?") (Some []) (js "show me flats in pune")
    = js "Is it a flat?"
  /\ In qmark
        (appendSearchResults (js "Is it a flat?") (Some [])
                             (js "show me flats in pune"))
  /\ In qmark
        (appendSearchResults (js "Prices are rising.") (Some [hit])
                             (js "show me flats in pune")).
Proof.
  vm_compute. repeat split; tauto.
Qed.

(** C4 (amended).  For every generated text, every non-empty hit list and
    every user message, the returned text is the cleaned response followed
    by the digest of the hits; the cleaned response contains no question
    mark, and the digest contains one only where the title, snippet or link
    of a hit does.  With an empty or missing hit list the generated text is
    returned unchanged. *)
Theorem C4_cleaned_response_has_no_question_mark
    (aiResponse userMessage : jstring) (hit : result) (hits : list result) :
  appendSearchResults aiResponse (Some (hit :: hits)) userMessage
    = cleanResponse aiResponse userMessage ++ summaryOf (hit :: hits)
  /\ ~ In qmark (cleanResponse aiResponse userMessage)
  /\ (Forall hitWithoutQuestionMark (hit :: hits) ->
      ~ In qmark
           (appendSearchResults aiResponse (Some (hit :: hits)) userMessage))
  /\ appendSearchResults aiResponse (Some []) userMessage = aiResponse
  /\ appendSearchResults aiResponse None userMessage = aiResponse.
Proof.
  split; [reflexivity|].
  split; [apply ResponseFacts.noQuestionMark_cleanResponse|].
  split; [|split; reflexivity].
  intros H. cbn [appendSearchResults].
  apply ResponseFacts.noQuestionMark_app.
  - apply ResponseFacts.noQuestionMark_cleanResponse.
  - now apply ResponseFacts.noQuestionMark_summaryOf.
Qed.

Lemma C4_witness :
  let hit := {| r_title := js "2 BHK flat in Baner"; r_link := js "https://x.in/a";
                r_snippet := js "Ready to move";
                r_description := None; r_image := None;
                r_price := None; r_name := None |} in
  Forall hitWithoutQuestionMark [hit] /\
  ~ In qmark
       (appendSearchResults (js "It costs 50 lakh. Would you like to see more?")
                            (Some [hit]) (js "price of a flat in pune")).
Proof.
  assert (H : Forall hitWithoutQuestionMark
                [ {| r_title := js "2 BHK flat in Baner";
                     r_link := js "https://x.in/a";
                     r_snippet := js "Ready to move";
                     r_description := None; r_image := None;
                     r_price := None; r_name := None |} ]).
  { constructor; [|constructor].
    repeat split; apply ResponseFacts.noQuestionMark_check;
      vm_compute; reflexivity. }
  split; [exact H|].
  exact (proj1 (proj2 (proj2 (C4_cleaned_response_has_no_question_mark
           (js "It costs 50 lakh. Would you like to see more?")
           (js "price of a flat in pune") _ [])))
         H).
Defined.

(** ** C5: number words in the bedroom count *)

(** C5 (defect).  The words [single], [double] and [triple] are never
    turned into a digit.  The last bedroom pattern matches "double bedroom"
    but has no capturing group, so for every query its [match[1]] is
    [undefined], the pattern never contributes to the bedroom count, and no
    text that reaches the conversion chain is one of these three words:
    for "double bedroom" the bedroom count stays empty.  The
    words [one] to [five], which the fourth pattern captures, are mapped;
    the conversion chain itself knows [double]. *)
Theorem C5_double_bedroom_not_extracted :
  extractBedrooms (js "double bedroom") = []
  /\ bedrooms (extractIntent (js "double bedroom flat in Pune") []) = []
  /\ extractBedrooms (js "single bed") = []
  /\ extractBedrooms (js "triple bhk") = []
  /\ test (nth 4 bedroomPatterns (re "" "")) (js "double bedroom") = true
  /\ (forall query : jstring,
        match_group (nth 4 bedroomPatterns (re "" "")) 1 query = None)
  /\ (forall query : jstring,
        firstCapture bedroomPatterns query
        = firstCapture (firstn 4 bedroomPatterns) query)
  /\ (forall query : jstring,
        match firstCapture bedroomPatterns query with
        | Some m1 =>
            ~ In (toLowerCase m1) [js "single"; js "double"; js "triple"]
        | None => True
        end)
  /\ wordToDigit (js "double") = js "2"
  /\ map extractBedrooms
         [js "one bhk"; js "two bedroom"; js "Three BHK"; js "four bed";
          js "five bedroom"; js "2 bhk"]
     = [js "1"; js "2"; js "3"; js "4"; js "5"; js "2"].
Proof.
  assert (Hfifth : forall query : jstring,
            match_group (nth 4 bedroomPatterns (re "" "")) 1 query = None).
  { intros query.
    assert (Hp : exists r,
              pattern (nth 4 bedroomPatterns (re "" "")) = Some r
              /\ groups_of r = []).
    { eexists. split; vm_compute; reflexivity. }
    destruct Hp as (r & Hr & Hg).
    apply (EngineFacts.match_group_absent _ r 1 query Hr).
    rewrite Hg. intros []. }
  split; [vm_compute; reflexivity|].
  split; [vm_compute; reflexivity|].
  split; [vm_compute; reflexivity|].
  split; [vm_compute; reflexivity|].
  split; [vm_compute; reflexivity|].
  split; [exact Hfifth|].
  split; [|split; [|split; vm_compute; reflexivity]].
  2:{ intros query.
      destruct (firstCapture bedroomPatterns query) as [m1|] eqn:E; [|exact I].
      now apply (IntentFacts.no_multiplicity_word_captured query). }
  intros query.
  assert (Hlist : bedroomPatterns
            = firstn 4 bedroomPatterns
              ++ [nth 4 bedroomPatterns (re "" "")]) by reflexivity.
  rewrite Hlist at 1. clear Hlist.
  induction (firstn 4 bedroomPatterns) as [|p ps IH]; cbn [app firstCapture].
  - now rewrite Hfifth.
  - now rewrite IH.
Qed.

(** ** C6: script runs and the default tag *)

(** C6, as stated, fails: the tags are tried in a fixed order and the first
    match wins.  A text whose only script run is Gujarati, and which also
    contains the two-character Hindi keyword [हम], gets the tag [hi]: the
    keyword pattern of the Hindi entry is tried before the Gujarati entry,
    though Hindi does not share the Gujarati block.  Likewise a text with a
    run of Gujarati characters and a run of Devanagari characters, and no
    keyword of the Hindi or of the Marathi list, gets [hi], not [gu]. *)
Lemma C6_counterexample :
  let text := js "ગુજરાત हम" in
  let mixed := js "ગુજરાત भारत" in
  hasRun gujarati text = true
  /\ map (fun entry => hasRun (snd entry) text) scriptBlocks
     = [false; true; false; false; false; false; false; false; false]
  /\ existsb (includes text) marathiKeywords = false
  /\ detectLanguage (VString text) = "hi"
  /\ detectLanguage (VString text) <> "gu"
  /\ hasRun gujarati mixed = true
  /\ existsb (includes mixed) hindiKeywords = false
  /\ existsb (includes mixed) marathiKeywords = false
  /\ detectLanguage (VString mixed) = "hi"
  /\ detectLanguage (VString mixed) <> "gu".
Proof.
  vm_compute. repeat split; discriminate.
Qed.

(** C6 (amended).  The script blocks are tried in the order Devanagari
    ([hi]), Gujarati, Bengali, Tamil, Telugu, Kannada, Malayalam, Gurmukhi,
    Arabic.  A text with three contiguous characters of a block gets that
    block's tag provided no block earlier in this order has such a run in
    the text and, for a block other than Devanagari, the text contains none
    of the Hindi keywords.  A value that is not a string, the empty string
    and a text of white space only get the default tag [en]. *)
Theorem C6_first_script_run_decides
    (text : jstring) (tag : string) (block : N * N)
    (earlier later : list (string * (N * N))) :
  (scriptBlocks = earlier ++ (tag, block) :: later ->
   containsRun block text ->
   (forall t b, In (t, b) earlier -> ~ containsRun b text) ->
   (tag <> "hi" ->
    forall w, In w hindiKeywords -> includes text w = false) ->
   detectLanguage (VString text) = tag)
  /\ (forallb is_space text = true -> detectLanguage (VString text) = "en")
  /\ detectLanguage (VString []) = "en"
  /\ detectLanguage VUndefined = "en"
  /\ detectLanguage VNull = "en"
  /\ (forall b, detectLanguage (VBool b) = "en")
  /\ (forall z, detectLanguage (VNumber z) = "en").
Proof.
  split; [|split; [|repeat split]].
  - intros Hsplit Hrun Hearlier Hkw.
    assert (Hin : In (tag, block) scriptBlocks).
    { rewrite Hsplit. apply in_or_app. right. now left. }
    apply LanguageFacts.hasRun_iff in Hrun.
    destruct (LanguageFacts.run_not_blank tag block text Hin Hrun)
      as [Htruthy Htrim].
    unfold detectLanguage. rewrite Htruthy, Htrim. cbn [negb orb].
    rewrite LanguageFacts.firstMatch_languagePatterns.
    destruct (hasHindiKeyword text) eqn:Ek.
    + destruct (string_dec tag "hi") as [->|Hne]; [reflexivity|].
      unfold hasHindiKeyword in Ek.
      apply existsb_exists in Ek as (w & Hw & Hincl).
      rewrite (Hkw Hne w Hw) in Hincl. discriminate.
    + rewrite Hsplit.
      rewrite (LanguageFacts.firstRun_found earlier later tag block text Hrun);
        [reflexivity|].
      intros t b Htb. specialize (Hearlier t b Htb).
      destruct (hasRun b text) eqn:E; [|reflexivity].
      apply LanguageFacts.hasRun_iff in E. contradiction.
  - intros Hblank. unfold detectLanguage.
    rewrite (StringFacts.trim_spaces text Hblank). cbn [List.length Nat.eqb].
    now rewrite orb_true_r.
Qed.

Lemma C6_witness :
  let text := js "મને ઘર જોઈએ" in
  scriptBlocks
    = [("hi", devanagari)]
      ++ ("gu", gujarati)
         :: [ ("bn", bengali); ("ta", tamil);
              ("te", telugu); ("kn", kannada);
              ("ml", malayalam); ("pa", gurmukhi);
              ("ur", arabic) ]
  /\ containsRun gujarati text
  /\ detectLanguage (VString text) = "gu".
Proof.
  assert (Hrun : containsRun gujarati
                   (js "મને ઘર જોઈએ")).
  { apply LanguageFacts.hasRun_iff. vm_compute. reflexivity. }
  split; [reflexivity|]. split; [exact Hrun|].
  apply (proj1 (C6_first_script_run_decides (js "મને ઘર જોઈએ") "gu"
                  gujarati [("hi", devanagari)]
                  [ ("bn", bengali); ("ta", tamil);
                    ("te", telugu); ("kn", kannada);
                    ("ml", malayalam);
                    ("pa", gurmukhi);
                    ("ur", arabic) ])).
  - reflexivity.
  - exact Hrun.
  - intros t b [E|[]]. injection E as _ <-.
    intros H. apply LanguageFacts.hasRun_iff in H.
    vm_compute in H. discriminate.
  - intros _ w Hw.
    assert (Hall : forallb (fun k => negb (includes (js "મને ઘર જોઈએ") k))
                     hindiKeywords = true)
      by (vm_compute; reflexivity).
    rewrite forallb_forall in Hall. specialize (Hall w Hw).
    now destruct (includes (js "મને ઘર જોઈએ") w).
Defined.

(** ** C7: the asked-about flags only rise *)

(** C7.  While the turns are scanned, none of the four asked-about flags
    goes from true back to false; and when every turn of a window also
    occurs in a second window, every flag that is true for the first window
    is true for the second. *)
Theorem C7_asked_flags_monotone :
  (forall (info : extractedInfo) (msg : turn),
     (askedAboutName info = true ->
      askedAboutName (scanTurn info msg) = true) /\
     (askedAboutBudget info = true ->
      askedAboutBudget (scanTurn info msg) = true) /\
     (askedAboutLocation info = true ->
      askedAboutLocation (scanTurn info msg) = true) /\
     (askedAboutPropertyType info = true ->
      askedAboutPropertyType (scanTurn info msg) = true))
  /\ (forall w1 w2 : list turn,
        incl w1 w2 ->
        (askedAboutName (extractInfoFromHistory w1) = true ->
         askedAboutName (extractInfoFromHistory w2) = true) /\
        (askedAboutBudget (extractInfoFromHistory w1) = true ->
         askedAboutBudget (extractInfoFromHistory w2) = true) /\
        (askedAboutLocation (extractInfoFromHistory w1) = true ->
         askedAboutLocation (extractInfoFromHistory w2) = true) /\
        (askedAboutPropertyType (extractInfoFromHistory w1) = true ->
         askedAboutPropertyType (extractInfoFromHistory w2) = true)).
Proof.
  split.
  - intros info msg.
    pose proof (fun t => HistoryFacts.asked_scanTurn t info msg) as H.
    pose proof (H Name) as Hn.
    pose proof (H Budget) as Hb.
    pose proof (H Location) as Hl.
    pose proof (H PropertyType) as Hp.
    cbn [asked] in Hn, Hb, Hl, Hp.
    repeat split; intros E.
    + now rewrite Hn, E.
    + now rewrite Hb, E.
    + now rewrite Hl, E.
    + now rewrite Hp, E.
  - intros w1 w2 Hincl.
    assert (Hall : forall t,
               asked t (extractInfoFromHistory w1) = true ->
               asked t (extractInfoFromHistory w2) = true).
    { intros t. rewrite !HistoryFacts.asked_extract.
      intros H. apply existsb_exists in H as (msg & Hin & Hmsg).
      apply existsb_exists. exists msg. split; [now apply Hincl | exact Hmsg]. }
    repeat split.
    + exact (Hall Name).
    + exact (Hall Budget).
    + exact (Hall Location).
    + exact (Hall PropertyType).
Qed.

Lemma C7_witness :
  let w1 := [ {| t_role := Assistant; content := js "What is your budget?" |} ] in
  let w2 := [ {| t_role := User; content := js "Hello" |};
              {| t_role := Assistant; content := js "What is your budget?" |};
              {| t_role := User; content := js "My budget is 5000000" |} ] in
  incl w1 w2 /\
  askedAboutBudget (extractInfoFromHistory w1) = true /\
  askedAboutBudget (extractInfoFromHistory w2) = true.
Proof.
  assert (Hincl :
    incl [ {| t_role := Assistant; content := js "What is your budget?" |} ]
         [ {| t_role := User; content := js "Hello" |};
           {| t_role := Assistant; content := js "What is your budget?" |};
           {| t_role := User; content := js "My budget is 5000000" |} ]).
  { intros x [<-|[]]. right. left. reflexivity. }
  assert (H1 : askedAboutBudget (extractInfoFromHistory
    [ {| t_role := Assistant; content := js "What is your budget?" |} ]) = true)
    by (vm_compute; reflexivity).
  split; [exact Hincl|]. split; [exact H1|].
  exact (proj1 (proj2 (proj2 C7_asked_flags_monotone _ _ Hincl)) H1).
Defined.

(** ** C8: empty or missing hit list *)

(** C8.  Handed an empty or a missing hit list, result formatting returns
    the fixed "no relevant real estate information" message of the language:
    each of the eleven tags has its own, different from the others, and any
    other tag that is no name inherited from [Object.prototype] gets the
    English one.  Response post-processing returns the generated text as it
    is, with no digest appended.  Both functions return early, so no error
    is raised. *)
Theorem C8_empty_hits_fixed_message_and_unchanged_text :
  Forall (fun entry =>
            formatSearchResultsInLanguage None (fst entry) = snd entry /\
            formatSearchResultsInLanguage (Some []) (fst entry) = snd entry)
         noResultsMessages
  /\ map fst noResultsMessages
     = ["en"; "hi"; "mr"; "gu"; "bn"; "ta"; "te"; "kn"; "ml"; "pa"; "ur"]
  /\ NoDup (map snd noResultsMessages)
  /\ (forall langCode,
        inherited langCode = false ->
        get noResultsMessages langCode = None ->
        formatSearchResultsInLanguage None langCode
          = js "I couldn't find any relevant real estate information for your query."
        /\ formatSearchResultsInLanguage (Some []) langCode
          = js "I couldn't find any relevant real estate information for your query.")
  /\ (forall aiResponse userMessage,
        appendSearchResults aiResponse None userMessage = aiResponse /\
        appendSearchResults aiResponse (Some []) userMessage = aiResponse).
Proof.
  split; [|split; [|split; [|split]]].
  - vm_compute. repeat constructor.
  - reflexivity.
  - vm_compute.
    repeat (apply NoDup_cons;
            [intros H;
             repeat (destruct H as [H|H]; [discriminate H|]); exact H|]).
    apply NoDup_nil.
  - intros langCode _ H. unfold formatSearchResultsInLanguage. rewrite H.
    split; vm_compute; reflexivity.
  - intros; split; reflexivity.
Qed.

Lemma C8_witness :
  inherited "fr" = false /\
  get noResultsMessages "fr" = None /\
  formatSearchResultsInLanguage None "fr"
    = js "I couldn't find any relevant real estate information for your query.".
Proof.
  assert (Hi : inherited "fr" = false) by (vm_compute; reflexivity).
  assert (Hg : get noResultsMessages "fr" = None) by (vm_compute; reflexivity).
  split; [exact Hi|]. split; [exact Hg|].
  destruct (proj1 (proj2 (proj2 (proj2
              C8_empty_hits_fixed_message_and_unchanged_text)))
                  "fr" Hi Hg) as [H _].
  exact H.
Defined.

(** ** C9: the Marathi tag *)

(** C9.  For every input, the classifier does not return [mr].  The Hindi
    entry comes first and its first pattern, the bare Devanagari run, matches
    every text that the Marathi pattern can match, because that pattern
    begins with the same run of three Devanagari characters. *)
Theorem C9_marathi_never_detected (text : jsval) :
  detectLanguage text <> "mr"
  /\ (forall s : jstring,
        test marathiPattern s = true ->
        containsRun devanagari s /\
        detectLanguage (VString s) = "hi").
Proof.
  split.
  - destruct text as [| |b|z|s]; try discriminate.
    unfold detectLanguage.
    destruct (negb (truthy s) || Nat.eqb (List.length (trim s)) 0);
      [discriminate|].
    rewrite LanguageFacts.firstMatch_languagePatterns.
    destruct (hasHindiKeyword s); [discriminate|].
    cbn [firstRun scriptBlocks].
    repeat match goal with
           | |- (match (if ?c then _ else _) with _ => _ end) <> _ =>
               destruct c; [discriminate|]
           end.
    discriminate.
  - intros s H.
    apply LanguageFacts.marathi_needs_devanagari_run in H.
    split; [now apply LanguageFacts.hasRun_iff|].
    destruct (LanguageFacts.run_not_blank "hi" devanagari s)
      as [Htruthy Htrim]; [now left | exact H |].
    unfold detectLanguage. rewrite Htruthy, Htrim. cbn [negb orb].
    rewrite LanguageFacts.firstMatch_languagePatterns.
    destruct (hasHindiKeyword s); [reflexivity|].
    cbn [firstRun scriptBlocks].
    now rewrite H.
Qed.

Lemma C9_witness :
  test marathiPattern (js "मला घर हवे आहे") = true /\
  detectLanguage (VString (js "मला घर हवे आहे")) = "hi".
Proof.
  assert (H : test marathiPattern (js "मला घर हवे आहे") = true)
    by (vm_compute; reflexivity).
  split; [exact H|].
  exact (proj2 (proj2 (C9_marathi_never_detected VNull) _ H)).
Defined.

(** ** C10: the standard tier of the site score *)

(** C10.  The +15 bonus of the standard tier is added only for links that
    contain "propertywala" or "indiaproperty".  The other four names of the
    standard list (commonfloor, squareyards, makaan, proptiger) are also
    premium names; a link containing one of them gets the +20 of the premium
    tier, and the [score === 0] gate then skips the standard tier. *)
Theorem C10_standard_bonus_only_for_two_sites (link : jstring) :
  (standardBonus (premiumBonus 0 link) link = (premiumBonus 0 link + 15)%Z ->
   includes link (js "propertywala") = true \/
   includes link (js "indiaproperty") = true)
  /\ (siteScore link = 15%Z ->
      includes link (js "propertywala") = true \/
      includes link (js "indiaproperty") = true)
  /\ (forall site,
        In site [js "commonfloor"; js "squareyards"; js "makaan"; js "proptiger"] ->
        includes link site = true ->
        premiumBonus 0 link = 20%Z /\
        standardBonus (premiumBonus 0 link) link = 20%Z /\
        siteScore link = 20%Z).
Proof.
  pose proof (ScoreFacts.standard_match_cases link) as Hstd.
  pose proof (ScoreFacts.shared_site_is_premium link) as Hshared.
  unfold siteScore, otherBonus, standardBonus, premiumBonus.
  destruct (existsb (includes link) premiumSites) eqn:Ep.
  - change (0 + 20)%Z with 20%Z. change (20 =? 0)%Z with false. cbv iota.
    split; [intro; discriminate|]. split; [intro; discriminate|]. auto.
  - assert (Hno : forall site,
              In site [js "commonfloor"; js "squareyards"; js "makaan";
                       js "proptiger"] ->
              includes link site = true -> False).
    { intros site Hin Hs. specialize (Hshared site Hin Hs). discriminate. }
    change (0 =? 0)%Z with true. cbv iota.
    destruct (existsb (includes link) standardSites) eqn:Es.
    + destruct (Hstd eq_refl) as [H|H]; [discriminate|].
      split; [auto|]. split; [auto|].
      intros site Hin Hs. destruct (Hno site Hin Hs).
    + split; [intro; discriminate|]. split.
      * change (0 =? 0)%Z with true. cbv iota.
        destruct (existsb (includes link) otherSites); intro; discriminate.
      * intros site Hin Hs. destruct (Hno site Hin Hs).
Qed.

Lemma C10_witness :
  siteScore (js "https://www.propertywala.com/p1") = 15%Z /\
  (includes (js "https://www.propertywala.com/p1") (js "propertywala") = true \/
   includes (js "https://www.propertywala.com/p1") (js "indiaproperty") = true).
Proof.
  split; [vm_compute; reflexivity|].
  apply (C10_standard_bonus_only_for_two_sites (js "https://www.propertywala.com/p1")).
  vm_compute; reflexivity.
Defined.

(* ================================================================== *)
(** * Further properties of the services *)
(* ================================================================== *)

(** ** Language detection *)

(** X1.  Detection returns one of ten codes: [en] or the code of one
    of the nine script blocks (never [mr]).  A text without any character
    of the nine script blocks, whatever else it contains, is classified as
    [en]. *)
Theorem detected_code_is_one_of_ten (text : jsval) (s : jstring) :
  In (detectLanguage text) detectedCodes
  /\ (plain s = true -> detectLanguage (VString s) = "en").
Proof.
  split.
  - apply DetectionFacts.detected_code.
  - apply DetectionFacts.plain_is_english.
Qed.

Lemma detected_code_is_one_of_ten_witness :
  plain (js "2 bhk flat in Pune under ₹50 lakh") = true
  /\ detectLanguage (VString (js "2 bhk flat in Pune under ₹50 lakh")) = "en".
Proof.
  split; [vm_compute; reflexivity|].
  apply (proj2 (detected_code_is_one_of_ten
                  VNull (js "2 bhk flat in Pune under ₹50 lakh"))).
  vm_compute; reflexivity.
Defined.

(** X2.  Whatever the text, the code that detection returns has a
    name and a system message of its own: the name is never "Unknown" and
    the English message is no stand-in.  The system message built for the
    code is the English one as it is for [en], and otherwise the message of
    the language followed by the reminder that names the language. *)
Theorem detected_language_has_its_own_message (text : jsval) :
  exists name message,
    own languageNames (detectLanguage text) name
    /\ own systemMessages (detectLanguage text) message
    /\ getLanguageName (detectLanguage text) = name
    /\ name <> js "Unknown"
    /\ createSystemMessageForLanguage (detectLanguage text)
       = if String.eqb (detectLanguage text) "en" then message
         else message ++ languageReminder name.
Proof.
  pose proof (DetectionFacts.detected_code text) as Hcode.
  destruct (FormatFacts.tables_cover _ Hcode)
    as ((name & Hn) & (message & Hm) & _).
  exists name, message.
  assert (Hname : getLanguageName (detectLanguage text) = name)
    by (unfold getLanguageName; now apply FormatFacts.or_else_own).
  split; [exact Hn|]. split; [exact Hm|]. split; [exact Hname|]. split.
  - destruct Hn as [Hn _]. intros ->.
    cbv [detectedCodes In] in Hcode.
    repeat (destruct Hcode as [E | Hcode];
            [rewrite <- E in Hn; vm_compute in Hn; discriminate|]).
    contradiction.
  - cbv beta zeta delta [createSystemMessageForLanguage].
    rewrite Hname, (FormatFacts.or_else_own _ _ _ _ Hm).
    destruct (String.eqb (detectLanguage text) "en"); reflexivity.
Qed.

(** ** The configuration of the search *)

(** X3.  The search engine ID of the service is the configured
    value as it is when that value is missing or has no "cx=" in it.
    Otherwise it is either the configured value, unchanged, or a text that
    is not empty, has no ampersand and stands in the configured value right
    after a "cx=". *)
Theorem engine_id_is_kept_or_a_cx_value (id : jstring) :
  searchEngineIdOf None = None
  /\ (includes id (js "cx=") = false -> searchEngineIdOf (Some id) = Some id)
  /\ exists v,
       searchEngineIdOf (Some id) = Some v
       /\ (v = id
           \/ (v <> [] /\ ~ In ampersand v
               /\ includes id (js "cx=" ++ v) = true)).
Proof.
  split; [reflexivity|]. split.
  - intros H. rewrite EngineIdFacts.searchEngineIdOf_cxValue.
    now rewrite (EngineIdFacts.cxValue_none id H).
  - rewrite EngineIdFacts.searchEngineIdOf_cxValue.
    destruct (cxValue id) as [v|] eqn:E.
    + exists v. split; [reflexivity|]. right.
      now apply EngineIdFacts.cxValue_sound.
    + exists id. split; [reflexivity|]. now left.
Qed.

Lemma engine_id_is_kept_or_a_cx_value_witness :
  includes (js "017576662512468239146:omuauf_lfve") (js "cx=") = false
  /\ searchEngineIdOf (Some (js "017576662512468239146:omuauf_lfve"))
     = Some (js "017576662512468239146:omuauf_lfve").
Proof.
  assert (H : includes (js "017576662512468239146:omuauf_lfve") (js "cx=")
              = false) by (vm_compute; reflexivity).
  split; [exact H|].
  exact (proj1 (proj2 (engine_id_is_kept_or_a_cx_value
                         (js "017576662512468239146:omuauf_lfve"))) H).
Defined.

(** X4.  When the engine is configured by a URL, the ID is the
    value of the first "cx=" of the URL: the text, not empty and without an
    ampersand, that runs from there to the end of the URL or to the next
    ampersand. *)
Theorem engine_id_from_url (pre v rest : jstring)
    (Hfirst : includes (pre ++ js "cx") (js "cx=") = false)
    (Hvalue : v <> [] /\ ~ In ampersand v)
    (Hrest : rest = [] \/ exists t, rest = ampersand :: t) :
  searchEngineIdOf (Some (pre ++ js "cx=" ++ v ++ rest)) = Some v
  /\ googleSearchEngineId
       (newWebSearchService
          {| GOOGLE_API_KEY := None;
             GOOGLE_SEARCH_ENGINE_ID := Some (pre ++ js "cx=" ++ v ++ rest);
             MISTRAL_API_KEY := None |})
     = Some v.
Proof.
  destruct Hvalue as [Hv Hamp].
  assert (H : searchEngineIdOf (Some (pre ++ js "cx=" ++ v ++ rest)) = Some v).
  { rewrite EngineIdFacts.searchEngineIdOf_cxValue.
    now rewrite (EngineIdFacts.cxValue_url pre v rest Hfirst Hv Hamp Hrest). }
  split; [exact H|]. exact H.
Qed.

Lemma engine_id_from_url_witness :
  searchEngineIdOf
    (Some (js "https://cse.google.com/cse?" ++ js "cx="
             ++ js "017576662512468239146:omuauf_lfve" ++ js "&hl=en"))
  = Some (js "017576662512468239146:omuauf_lfve").
Proof.
  assert (H1 : includes (js "https://cse.google.com/cse?" ++ js "cx")
                        (js "cx=") = false) by (vm_compute; reflexivity).
  assert (H2 : js "017576662512468239146:omuauf_lfve" <> []
               /\ ~ In ampersand (js "017576662512468239146:omuauf_lfve")).
  { split; [vm_compute; discriminate|].
    intros H. vm_compute in H.
    repeat (destruct H as [H|H]; [discriminate|]). exact H. }
  assert (H3 : js "&hl=en" = [] \/ exists t, js "&hl=en" = ampersand :: t)
    by (right; exists (js "hl=en"); vm_compute; reflexivity).
  exact (proj1 (engine_id_from_url
                  (js "https://cse.google.com/cse?")
                  (js "017576662512468239146:omuauf_lfve")
                  (js "&hl=en") H1 H2 H3)).
Defined.

(** ** The search *)





(** X7.  Every hit that a search returns shows the title, the
    link and the snippet of a hit in the reply to one of the requests it
    sent: the search invents no result and alters none of the three
    texts. *)
Theorem search_returns_hits_of_the_replies
    (this : webSearchService) (axiosGet : searchRequest -> searchReply)
    (query : jstring) (lead : leadInfo) (r : result) :
  In r (snd (searchRealEstateInfo this axiosGet query lead)) ->
  exists request it,
    In request (fst (searchRealEstateInfo this axiosGet query lead))
    /\ In it (hitsOf (axiosGet request))
    /\ shows r it.
Proof.
  unfold searchRealEstateInfo.
  assert (Hfallback :
    forall sent,
      In r (map bareResult (hitsOf (axiosGet (fallbackRequest this query)))) ->
      exists request it,
        In request (sent ++ [fallbackRequest this query])
        /\ In it (hitsOf (axiosGet request)) /\ shows r it).
  { intros sent H. apply in_map_iff in H as (it & <- & Hit).
    exists (fallbackRequest this query), it.
    split; [apply in_or_app; right; now left|].
    split; [exact Hit | now repeat split]. }
  destruct (configured this) eqn:Ec.
  - rewrite (SearchFacts.primarySearch_configured _ _ _ _ Ec).
    destruct (axiosGet (primaryRequest this query lead)) as [| | |items] eqn:E.
    + rewrite SearchFacts.fallbackSearch_eq. cbn [fst snd]. apply Hfallback.
    + intros [].
    + intros [].
    + destruct (existsb _ items);
        [rewrite SearchFacts.fallbackSearch_eq; cbn [fst snd];
         apply Hfallback|].
      cbn [fst snd]. intros H.
      apply SearchFacts.rankResults_shows in H as (it & Hit & Hshows).
      exists (primaryRequest this query lead), it.
      split; [now left|]. rewrite E. now split.
  - rewrite (SearchFacts.primarySearch_unconfigured _ _ _ _ Ec).
    rewrite SearchFacts.fallbackSearch_eq. cbn [fst snd]. apply Hfallback.
Qed.

Lemma search_returns_hits_of_the_replies_witness :
  let this := {| googleApiKey := Some (js "key");
                 googleSearchEngineId := Some (js "engine") |} in
  let hit := {| title := js "2 BHK flat in Baner";
                link := js "https://www.99acres.com/p1";
                snippet := js "Ready to move"; pagemap := None |} in
  let axiosGet := fun _ : searchRequest => Items [hit] in
  In (bareResult hit)
     (snd (searchRealEstateInfo this axiosGet (js "flat in Baner") []))
  /\ exists request it,
       In request (fst (searchRealEstateInfo this axiosGet
                                             (js "flat in Baner") []))
       /\ In it (hitsOf (axiosGet request))
       /\ shows (bareResult hit) it.
Proof.
  cbv zeta.
  assert (H : In (bareResult {| title := js "2 BHK flat in Baner";
                                link := js "https://www.99acres.com/p1";
                                snippet := js "Ready to move";
                                pagemap := None |})
                 (snd (searchRealEstateInfo
                         {| googleApiKey := Some (js "key");
                            googleSearchEngineId := Some (js "engine") |}
                         (fun _ : searchRequest =>
                            Items [ {| title := js "2 BHK flat in Baner";
                                       link := js "https://www.99acres.com/p1";
                                       snippet := js "Ready to move";
                                       pagemap := None |} ])
                         (js "flat in Baner") [])))
    by (vm_compute; left; reflexivity).
  split; [exact H|].
  exact (search_returns_hits_of_the_replies _ _ _ _ _ H).
Defined.

(** X8.  Splitting a query at its spaces and joining the pieces
    with spaces gives the query back.  The query of the fallback request is
    therefore a prefix of the original query followed by " real estate":
    the whole query when it has at most two spaces, and otherwise the part
    before its third space. *)
Theorem fallback_query_is_a_prefix (query : jstring) :
  join (js " ") (split_str (js " ") query) = query
  /\ exists kept rest,
       query = kept ++ rest
       /\ simplifiedQuery query = kept ++ js " real estate"
       /\ (countOf space kept <= 2)%nat
       /\ (rest = []
           \/ (countOf space kept = 2%nat
               /\ exists tail, rest = space :: tail)).
Proof.
  assert (Hsep : js " " <> []) by discriminate.
  pose proof (SplitFacts.join_split_str (js " ") query Hsep) as Hjoin.
  split; [exact Hjoin|].
  unfold simplifiedQuery.
  assert (Hpieces : Forall (fun piece => countOf space piece = 0%nat)
                           (split_str (js " ") query))
    by (apply (SplitFacts.split_char_pieces space [] query); reflexivity).
  remember (split_str (js " ") query) as pieces eqn:Ep.
  destruct (Nat.leb (List.length pieces) 3) eqn:Elen.
  - apply Nat.leb_le in Elen.
    exists query, []. rewrite app_nil_r.
    rewrite firstn_all2 by exact Elen. rewrite Hjoin.
    repeat split; [|now left].
    rewrite <- Hjoin.
    change (js " ") with [space].
    rewrite (SplitFacts.countOf_join space pieces Hpieces). lia.
  - apply Nat.leb_gt in Elen.
    exists (join (js " ") (firstn 3 pieces)),
           (js " " ++ join (js " ") (skipn 3 pieces)).
    assert (Hcount : countOf space (join (js " ") (firstn 3 pieces)) = 2%nat).
    { change (js " ") with [space].
      rewrite SplitFacts.countOf_join.
      - rewrite length_firstn. lia.
      - apply Forall_forall. intros x Hx.
        rewrite Forall_forall in Hpieces. apply Hpieces.
        now apply (ResponseFacts.In_firstn 3). }
    repeat split.
    + rewrite <- Hjoin at 1. apply SplitFacts.join_firstn. lia.
    + lia.
    + right. split; [exact Hcount|].
      now exists (join (js " ") (skipn 3 pieces)).
Qed.

(** ** The need for a search *)

(** X9.  For texts of ASCII characters, whether a query needs a web
    search depends on the occurrence of a keyword only: the empty query
    needs none; a query that needs one still needs one with any such text
    before and after it; and the case of its letters is irrelevant. *)
Theorem search_need_is_kept_in_context (a query b : jstring)
    (Hascii : asciiText (a ++ query ++ b) = true) :
  needsWebSearch [] = false
  /\ (needsWebSearch query = true -> needsWebSearch (a ++ query ++ b) = true)
  /\ needsWebSearch (toUpperCase query) = needsWebSearch query.
Proof.
  split; [vm_compute; reflexivity|]. split.
  - apply NeedFacts.needsWebSearch_context.
  - unfold needsWebSearch. now rewrite NeedFacts.toLowerCase_toUpperCase.
Qed.

Lemma search_need_is_kept_in_context_witness :
  asciiText (js "What is the " ++ js "price" ++ js " of a flat?") = true
  /\ needsWebSearch (js "price") = true
  /\ needsWebSearch (js "What is the " ++ js "price" ++ js " of a flat?")
     = true.
Proof.
  assert (Ha : asciiText (js "What is the " ++ js "price"
                            ++ js " of a flat?") = true)
    by (vm_compute; reflexivity).
  assert (H : needsWebSearch (js "price") = true) by (vm_compute; reflexivity).
  split; [exact Ha|]. split; [exact H|].
  exact (proj1 (proj2 (search_need_is_kept_in_context
                         (js "What is the ") (js "price") (js " of a flat?")
                         Ha))
               H).
Defined.

(** ** The formatted hits *)

(** X10.  Formatting a hit list that is not empty for a query shows
    every hit, in the order given and numbered from 1, between the
    introduction and the closing question of the language detected in the
    query; both are the language's own texts, not the English stand-ins.  A
    query that is left out counts as English. *)
Theorem formatted_hits_are_all_shown
    (hits : list result) (query : jsval) (Hhits : hits <> []) :
  (exists intro more,
      own introMessages (detectLanguage query) intro
      /\ own moreInfoMessages (detectLanguage query) more
      /\ formatSearchResults (Some hits) query
         = intro ++ nl ++ nl ++ numbered 1 hits ++ more)
  /\ formatSearchResults (Some hits) VUndefined
     = formatSearchResults (Some hits) (VString []).
Proof.
  split; [|reflexivity].
  destruct (FormatFacts.tables_cover _ (DetectionFacts.detected_code query))
    as (_ & _ & _ & (intro & Hi) & (more & Hm)).
  exists intro, more. split; [exact Hi|]. split; [exact Hm|].
  assert (Hq : detectLanguage match query with
                              | VUndefined => VString []
                              | _ => query
                              end = detectLanguage query)
    by (destruct query; reflexivity).
  unfold formatSearchResults. cbv zeta. rewrite Hq.
  unfold formatSearchResultsInLanguage.
  destruct hits as [|r rest]; [contradiction|].
  cbv zeta.
  rewrite (FormatFacts.or_else_own _ _ _ _ Hi),
          (FormatFacts.or_else_own _ _ _ _ Hm).
  rewrite FormatFacts.formatEntries_numbered.
  now rewrite <- !app_assoc.
Qed.

Lemma formatted_hits_are_all_shown_witness :
  exists intro more,
    own introMessages (detectLanguage (VString (js "घर की कीमत"))) intro
    /\ own moreInfoMessages (detectLanguage (VString (js "घर की कीमत"))) more
    /\ formatSearchResults
         (Some [ {| r_title := js "Flats in Pune";
                    r_link := js "https://example.com/pune";
                    r_snippet := js "Two bedroom flats";
                    r_description := None;
                    r_image := None;
                    r_price := None;
                    r_name := None |} ])
         (VString (js "घर की कीमत"))
       = intro ++ nl ++ nl
           ++ numbered 1 [ {| r_title := js "Flats in Pune";
                              r_link := js "https://example.com/pune";
                              r_snippet := js "Two bedroom flats";
                              r_description := None;
                    r_image := None;
                    r_price := None;
                    r_name := None |} ]
           ++ more.
Proof.
  apply (formatted_hits_are_all_shown
           [ {| r_title := js "Flats in Pune";
                r_link := js "https://example.com/pune";
                r_snippet := js "Two bedroom flats";
                r_description := None;
                    r_image := None;
                    r_price := None;
                    r_name := None |} ]
           (VString (js "घर की कीमत"))).
  discriminate.
Defined.

(** ** The relevance score *)

(** X11.  The relevance score of a hit lies between -35 and 135,
    whatever the hit and the intent; both bounds are attained. *)
Theorem relevance_score_range (it : item)
    (query location propertyType transactionType bedrooms : jstring) :
  (-35 <= calculateRelevanceScore it query location propertyType
                                  transactionType bedrooms <= 135)%Z
  /\ (exists best,
        calculateRelevanceScore best (js "2 bhk flat in Pune") (js "Pune")
                                (js "flat") (js "buy") (js "2") = 135%Z)
  /\ (exists worst,
        calculateRelevanceScore worst (js "2 bhk flat in Pune") [] []
                                (js "buy") [] = (-35)%Z).
Proof.
  split; [apply ScoreFacts.calculateRelevanceScore_range|]. split.
  - exists {| title := js "2 BHK flat for sale in Pune Rs 50 lakh new launch";
              link := js "https://www.99acres.com/property/123456";
              snippet := js "Furnished 2 bedroom 2 bathroom 1200 sq ft amenities security gym parking garden";
              pagemap :=
                Some {| metatags := Some {| og_description := [];
                                            og_image := [] |};
                        product := Some {| product_price := [];
                                           product_name := [] |};
                        offer := true; image := true; cse_image := false |} |}.
    vm_compute. reflexivity.
  - exists {| title := js "Rooms to let"; link := js "https://example.org";
              snippet := []; pagemap := None |}.
    vm_compute. reflexivity.
Qed.

(** ** The extracted intent *)

(** X12.  The bedroom count of an extracted intent is empty or a
    string of decimal digits.  A budget that is not taken from the known
    record is a string of decimal digits as well, without the commas and
    dots of the text it was found in, and it is not empty when one of the
    budget patterns captures something. *)
Theorem extracted_numbers_are_digits (query : jstring) (lead : leadInfo) :
  forallb is_digit (bedrooms (extractIntent query lead)) = true
  /\ (truthy (knownSlot lead "budget") = false ->
      forallb is_digit (budget (extractIntent query lead)) = true
      /\ (firstCapture budgetPatterns query <> None ->
          budget (extractIntent query lead) <> [])).
Proof.
  cbn [extractIntent bedrooms budget]. split.
  - apply IntentFacts.bedrooms_are_digits.
  - apply IntentFacts.extracted_budget_digits.
Qed.

Lemma extracted_numbers_are_digits_witness :
  truthy (knownSlot [] "budget") = false
  /\ budget (extractIntent (js "3 bhk, budget is 50,00,000.50") [])
     = js "500000050"
  /\ forallb is_digit
       (budget (extractIntent (js "3 bhk, budget is 50,00,000.50") []))
     = true.
Proof.
  split; [reflexivity|]. split; [vm_compute; reflexivity|].
  apply (proj2 (extracted_numbers_are_digits
                  (js "3 bhk, budget is 50,00,000.50") [])).
  reflexivity.
Defined.

(** X13.  The transaction type of an extracted intent is
    empty, "buy" or "rent", and it is "buy" whenever the query contains one
    of the buying terms, also when it contains a renting term.  A property
    type that is not taken from the known record is empty or one of the
    listed types, and it occurs in the query in lower case.  A location
    that is not taken from the known record has no white space at either
    end. *)
Theorem extracted_texts_are_normalised (query : jstring) (lead : leadInfo) :
  In (transactionType (extractIntent query lead)) [ []; js "buy"; js "rent" ]
  /\ (existsb (includes (toLowerCase query)) buyTerms = true ->
      transactionType (extractIntent query lead) = js "buy")
  /\ (truthy (knownSlot lead "propertyType") = false ->
      propertyType (extractIntent query lead) = []
      \/ (In (propertyType (extractIntent query lead)) propertyTypes
          /\ includes (toLowerCase query)
                      (propertyType (extractIntent query lead)) = true))
  /\ (truthy (knownSlot lead "preferredLocation") = false ->
      trimmed (location (extractIntent query lead))).
Proof.
  cbn [extractIntent transactionType propertyType location].
  split; [|split; [|split]].
  - destruct (IntentFacts.transactionType_values query) as [E|[E|E]];
      rewrite E; cbn [In]; auto.
  - apply IntentFacts.buy_term_decides.
  - apply IntentFacts.extracted_propertyType.
  - apply IntentFacts.extracted_location_trimmed.
Qed.

Lemma extracted_texts_are_normalised_witness :
  existsb (includes (toLowerCase (js "Townhouse for rent in   Baner ")))
          buyTerms = true
  /\ transactionType (extractIntent (js "Townhouse for rent in   Baner ") [])
     = js "buy".
Proof.
  assert (H : existsb (includes (toLowerCase
                                   (js "Townhouse for rent in   Baner ")))
                      buyTerms = true) by (vm_compute; reflexivity).
  split; [exact H|].
  exact (proj1 (proj2 (extracted_texts_are_normalised
                         (js "Townhouse for rent in   Baner ") [])) H).
Defined.

(** ** The enhanced query *)

(** X14.  The enhanced query begins with the original query
    and ends with the list of the trusted portals; between the two it adds
    no more than the six pieces of context, so its length exceeds that of
    the query by a bounded amount.  For texts of ASCII characters and an
    intent produced by extraction, every presence check succeeds on the
    enhanced query: it names the context, the location, the property type,
    the transaction type, the budget and the bedroom count of the
    intent. *)
Theorem enhanced_query_shape (query : jstring) (i : intent) :
  (exists added,
     buildEnhancedQuery query i = query ++ added ++ portalSuffix
     /\ (List.length added
         <= 46 + List.length (location i) + List.length (propertyType i)
            + List.length (transactionType i) + List.length (budget i)
            + List.length (bedrooms i))%nat)
  /\ (forall source lead,
        asciiText query = true ->
        asciiSearch source lead = true ->
        i = extractIntent source lead ->
        saturated i (buildEnhancedQuery query i) = true).
Proof.
  split.
  - destruct (EnhanceFacts.buildEnhancedQuery_adds query i)
      as (added & E & Hlen).
    exists added. split; [exact E|].
    rewrite !length_app in Hlen.
    change (List.length (js " real estate property")) with 21%nat in Hlen.
    change (List.length (js " in ")) with 4%nat in Hlen.
    change (List.length (js " ")) with 1%nat in Hlen.
    change (List.length (js " for ")) with 5%nat in Hlen.
    change (List.length (js " bhk")) with 4%nat in Hlen.
    lia.
  - intros source lead _ _ ->.
    destruct (IntentFacts.extracted_lower source lead) as [Ht Hb].
    now apply EnhanceFacts.built_saturated.
Qed.

Lemma enhanced_query_shape_witness :
  let i := extractIntent (js "2 bhk in Pune under 50 lakh") [] in
  asciiText (js "flats to buy") = true
  /\ asciiSearch (js "2 bhk in Pune under 50 lakh") [] = true
  /\ saturated i (buildEnhancedQuery (js "flats to buy") i) = true.
Proof.
  cbv zeta.
  assert (Hq : asciiText (js "flats to buy") = true)
    by (vm_compute; reflexivity).
  assert (Hs : asciiSearch (js "2 bhk in Pune under 50 lakh") [] = true)
    by (vm_compute; reflexivity).
  split; [exact Hq|]. split; [exact Hs|].
  exact (proj2 (enhanced_query_shape
                  (js "flats to buy")
                  (extractIntent (js "2 bhk in Pune under 50 lakh") []))
               (js "2 bhk in Pune under 50 lakh") [] Hq Hs eq_refl).
Defined.

(** ** Ranking *)



(** ** The conversation turn *)

(** X16.  Without an API key the turn is rejected with the error
    "Mistral API key not set" for every input, before the message is looked
    at and without any request.  With a key, a message that is not a text
    or is empty gets "Please ask a valid question." and a blank text gets
    the request for more detail; no request is sent in either case. *)
Theorem turn_without_key_or_message
    (this : mistralService) (web : webSearchService)
    (axiosGet : searchRequest -> searchReply)
    (axiosPost : chatRequest -> chatReply) (userMessage : jsval)
    (leadInfo : leadContext) (messageHistory : list storedMessage) :
  let r := generateResponse this web axiosGet axiosPost userMessage leadInfo
                            messageHistory in
  (present (apiKey this) = false ->
   r = {| searches := []; chats := [];
          result_of := Thrown (js "Mistral API key not set") |})
  /\ (present (apiKey this) = true ->
      cleanedMessage userMessage = None ->
      searches r = [] /\ chats r = []
      /\ result_of r
         = Returned
             match userMessage with
             | VString (_ :: _) =>
                 js "Please provide your question in detail so I can assist you better."
             | _ => js "Please ask a valid question."
             end).
Proof.
  cbv zeta. split.
  - intros H. unfold generateResponse. now rewrite H.
  - intros H Hmsg.
    now rewrite (TurnFacts.generateResponse_no_message
                   this web axiosGet axiosPost userMessage leadInfo
                   messageHistory H Hmsg).
Qed.

Lemma turn_without_key_or_message_witness :
  let this := {| apiKey := Some (js "key") |} in
  let web := {| googleApiKey := None; googleSearchEngineId := None |} in
  let leadInfo :=
    {| l_name := []; l_budget := []; l_preferredLocation := [];
       l_propertyType := []; l_searchResults := None;
       l_currentMessage := []; l_oneQuestionAtATime := None;
       l_isEndingConversation := false; l_conversationHistory := None |} in
  present (apiKey this) = true
  /\ cleanedMessage (VString (js "   ")) = None
  /\ result_of (generateResponse this web (fun _ => Rejected)
                                 (fun _ => ChatRejected)
                                 (VString (js "   ")) leadInfo [])
     = Returned (js "Please provide your question in detail so I can assist you better.").
Proof.
  cbv zeta.
  assert (Hkey : present (apiKey {| apiKey := Some (js "key") |}) = true)
    by (vm_compute; reflexivity).
  assert (Hmsg : cleanedMessage (VString (js "   ")) = None)
    by (vm_compute; reflexivity).
  split; [exact Hkey|]. split; [exact Hmsg|].
  destruct (proj2 (turn_without_key_or_message
                     {| apiKey := Some (js "key") |}
                     {| googleApiKey := None; googleSearchEngineId := None |}
                     (fun _ => Rejected) (fun _ => ChatRejected)
                     (VString (js "   "))
                     {| l_name := []; l_budget := [];
                        l_preferredLocation := []; l_propertyType := [];
                        l_searchResults := None; l_currentMessage := [];
                        l_oneQuestionAtATime := None;
                        l_isEndingConversation := false;
                        l_conversationHistory := None |} [])
                  Hkey Hmsg) as (_ & _ & Hr).
  rewrite Hr. vm_compute. reflexivity.
Defined.

(** X17.  With an API key a turn never ends in an error.  A
    message that is not blank causes one search, made on the trimmed
    message alone: the requests it sends do not depend on the lead or on
    the history.  Exactly one chat request follows, and when that request
    is rejected the reply is the fixed apology. *)
Theorem turn_with_key_returns
    (this : mistralService) (web : webSearchService)
    (axiosGet : searchRequest -> searchReply)
    (axiosPost : chatRequest -> chatReply) (userMessage : jsval)
    (leadInfo : leadContext) (messageHistory : list storedMessage) :
  present (apiKey this) = true ->
  let r := generateResponse this web axiosGet axiosPost userMessage leadInfo
                            messageHistory in
  (exists text, result_of r = Returned text)
  /\ (forall leadInfo' messageHistory',
        searches (generateResponse this web axiosGet axiosPost userMessage
                                   leadInfo' messageHistory')
        = searches r)
  /\ (forall cleaned,
        cleanedMessage userMessage = Some cleaned ->
        searches r = fst (searchRealEstateInfo web axiosGet cleaned [])
        /\ exists request,
             chats r = [request]
             /\ (axiosPost request = ChatRejected ->
                 result_of r = Returned apology)).
Proof.
  intros Hkey. cbv zeta.
  destruct (cleanedMessage userMessage) as [cleaned|] eqn:Hmsg.
  - rewrite (TurnFacts.generateResponse_turn this web axiosGet axiosPost
               userMessage cleaned leadInfo messageHistory Hkey Hmsg).
    cbn [searches chats result_of]. split; [|split].
    + destruct (axiosPost _); eauto.
    + intros leadInfo' messageHistory'.
      now rewrite (TurnFacts.generateResponse_turn this web axiosGet axiosPost
                     userMessage cleaned leadInfo' messageHistory' Hkey Hmsg).
    + intros cleaned' E. injection E as <-. split; [reflexivity|].
      eexists. split; [reflexivity|]. intros E. now rewrite E.
  - rewrite (TurnFacts.generateResponse_no_message
               this web axiosGet axiosPost userMessage leadInfo
               messageHistory Hkey Hmsg).
    cbn [searches chats result_of].
    split; [eauto|]. split; [|discriminate].
    intros leadInfo' messageHistory'.
    now rewrite (TurnFacts.generateResponse_no_message
                   this web axiosGet axiosPost userMessage leadInfo'
                   messageHistory' Hkey Hmsg).
Qed.

Lemma turn_with_key_returns_witness :
  let this := {| apiKey := Some (js "key") |} in
  let web := {| googleApiKey := None; googleSearchEngineId := None |} in
  let leadInfo :=
    {| l_name := []; l_budget := []; l_preferredLocation := [];
       l_propertyType := []; l_searchResults := None;
       l_currentMessage := []; l_oneQuestionAtATime := None;
       l_isEndingConversation := false; l_conversationHistory := None |} in
  present (apiKey this) = true
  /\ exists text,
       result_of (generateResponse this web (fun _ => Rejected)
                                   (fun _ => ChatRejected)
                                   (VString (js "2 bhk flat in Pune"))
                                   leadInfo [])
       = Returned text.
Proof.
  cbv zeta.
  assert (Hkey : present (apiKey {| apiKey := Some (js "key") |}) = true)
    by (vm_compute; reflexivity).
  split; [exact Hkey|].
  exact (proj1 (turn_with_key_returns
                  {| apiKey := Some (js "key") |}
                  {| googleApiKey := None; googleSearchEngineId := None |}
                  (fun _ => Rejected) (fun _ => ChatRejected)
                  (VString (js "2 bhk flat in Pune"))
                  {| l_name := []; l_budget := [];
                     l_preferredLocation := []; l_propertyType := [];
                     l_searchResults := None; l_currentMessage := [];
                     l_oneQuestionAtATime := None;
                     l_isEndingConversation := false;
                     l_conversationHistory := None |} [] Hkey)).
Defined.

(** X18.  The chat request of a turn carries the key as a
    bearer token and at most twelve messages: first the system message,
    then the last ten messages of the history at most, in order and with
    their texts unchanged, and last a user message, whose text begins with
    the trimmed message of the user. *)
Theorem turn_request_shape
    (this : mistralService) (web : webSearchService)
    (axiosGet : searchRequest -> searchReply)
    (axiosPost : chatRequest -> chatReply) (userMessage : jsval)
    (cleaned : jstring) (leadInfo : leadContext)
    (messageHistory : list storedMessage) :
  present (apiKey this) = true ->
  cleanedMessage userMessage = Some cleaned ->
  exists request system history user,
    chats (generateResponse this web axiosGet axiosPost userMessage leadInfo
                            messageHistory)
    = [request]
    /\ authorization request = js "Bearer " ++ or_else (apiKey this) []
    /\ messages request = system :: history ++ [user]
    /\ (List.length (messages request) <= 12)%nat
    /\ cm_role system = js "system"
    /\ history = map chatTurn (formatMessageHistory messageHistory)
    /\ map cm_content history
       = map message (lastTen messageHistory)
    /\ cm_role user = js "user"
    /\ extends cleaned (cm_content user).
Proof.
  intros Hkey Hmsg.
  rewrite (TurnFacts.generateResponse_turn this web axiosGet axiosPost
             userMessage cleaned leadInfo messageHistory Hkey Hmsg).
  cbn [chats]. unfold turnRequest.
  do 4 eexists.
  split; [reflexivity|]. cbn [authorization messages].
  split; [reflexivity|]. split; [reflexivity|].
  split.
  { cbn [List.length]. rewrite length_app, length_map. cbn [List.length].
    pose proof (TurnFacts.formatMessageHistory_length messageHistory). lia. }
  split; [reflexivity|]. split; [reflexivity|].
  split.
  { unfold formatMessageHistory. rewrite !map_map. reflexivity. }
  split; [reflexivity|].
  cbn [cm_content]. apply PromptFacts.enhanceUserMessage_extends.
Qed.

Lemma turn_request_shape_witness :
  let this := {| apiKey := Some (js "key") |} in
  let web := {| googleApiKey := None; googleSearchEngineId := None |} in
  let leadInfo :=
    {| l_name := []; l_budget := []; l_preferredLocation := [];
       l_propertyType := []; l_searchResults := None;
       l_currentMessage := []; l_oneQuestionAtATime := None;
       l_isEndingConversation := false; l_conversationHistory := None |} in
  let messageHistory :=
    [ {| sender := js "bot"; message := js "What is your budget?" |};
      {| sender := js "user"; message := js "My budget is 5000000" |} ] in
  let r := generateResponse this web (fun _ => Rejected)
                            (fun _ => ChatRejected)
                            (VString (js " 2 bhk flat in Pune "))
                            leadInfo messageHistory in
  present (apiKey this) = true
  /\ cleanedMessage (VString (js " 2 bhk flat in Pune "))
     = Some (js "2 bhk flat in Pune")
  /\ exists request system history user,
       chats r = [request]
       /\ authorization request = js "Bearer " ++ or_else (apiKey this) []
       /\ messages request = system :: history ++ [user]
       /\ (List.length (messages request) <= 12)%nat
       /\ cm_role system = js "system"
       /\ history = map chatTurn (formatMessageHistory messageHistory)
       /\ map cm_content history = map message (lastTen messageHistory)
       /\ cm_role user = js "user"
       /\ extends (js "2 bhk flat in Pune") (cm_content user).
Proof.
  cbv zeta.
  assert (Hkey : present (apiKey {| apiKey := Some (js "key") |}) = true)
    by (vm_compute; reflexivity).
  assert (Hmsg : cleanedMessage (VString (js " 2 bhk flat in Pune "))
                 = Some (js "2 bhk flat in Pune"))
    by (vm_compute; reflexivity).
  split; [exact Hkey|]. split; [exact Hmsg|].
  exact (turn_request_shape
           {| apiKey := Some (js "key") |}
           {| googleApiKey := None; googleSearchEngineId := None |}
           (fun _ => Rejected) (fun _ => ChatRejected)
           (VString (js " 2 bhk flat in Pune ")) (js "2 bhk flat in Pune")
           {| l_name := []; l_budget := []; l_preferredLocation := [];
       l_propertyType := []; l_searchResults := None;
       l_currentMessage := []; l_oneQuestionAtATime := None;
       l_isEndingConversation := false; l_conversationHistory := None |}
           [ {| sender := js "bot"; message := js "What is your budget?" |};
             {| sender := js "user"; message := js "My budget is 5000000" |} ]
           Hkey Hmsg).
Defined.

(** X19.  When the chat request is answered, the reply of the
    turn is built from the text of the answer, or from "AI response
    unavailable." when the answer has no text.  If the search returned no
    hit, that text is the reply, unchanged.  Otherwise the reply is the
    cleaned text, without any question mark, followed by the digest of the
    hits. *)
Theorem turn_reply_composition
    (this : mistralService) (web : webSearchService)
    (axiosGet : searchRequest -> searchReply)
    (axiosPost : chatRequest -> chatReply) (userMessage : jsval)
    (cleaned content : jstring) (leadInfo : leadContext)
    (messageHistory : list storedMessage) :
  present (apiKey this) = true ->
  cleanedMessage userMessage = Some cleaned ->
  let hits := snd (searchRealEstateInfo web axiosGet cleaned []) in
  let aiContent := or_else (Some content) unavailable in
  axiosPost (turnRequest this hits cleaned leadInfo messageHistory)
  = ChatContent content ->
  let reply := result_of (generateResponse this web axiosGet axiosPost
                                           userMessage leadInfo
                                           messageHistory) in
  (hits = [] -> reply = Returned aiContent)
  /\ (hits <> [] ->
      reply = Returned (cleanResponse aiContent cleaned ++ summaryOf hits)
      /\ ~ In qmark (cleanResponse aiContent cleaned)).
Proof.
  intros Hkey Hmsg hits aiContent Hpost. cbv zeta.
  rewrite (TurnFacts.generateResponse_turn this web axiosGet axiosPost
             userMessage cleaned leadInfo messageHistory Hkey Hmsg).
  cbn [result_of]. fold hits. rewrite Hpost. fold aiContent.
  destruct hits as [|hit hits'].
  - split; [reflexivity | congruence].
  - split; [discriminate|]. intros _.
    split; [reflexivity|].
    apply ResponseFacts.noQuestionMark_cleanResponse.
Qed.

Lemma turn_reply_composition_witness :
  let this := {| apiKey := Some (js "key") |} in
  let web := {| googleApiKey := None; googleSearchEngineId := None |} in
  let leadInfo :=
    {| l_name := []; l_budget := []; l_preferredLocation := [];
       l_propertyType := []; l_searchResults := None;
       l_currentMessage := []; l_oneQuestionAtATime := None;
       l_isEndingConversation := false; l_conversationHistory := None |} in
  let content := js "Prices start at 50 lakh. Would you like to see more?" in
  let axiosPost := fun _ : chatRequest => ChatContent content in
  present (apiKey this) = true
  /\ cleanedMessage (VString (js "2 bhk flat in Pune"))
     = Some (js "2 bhk flat in Pune")
  /\ snd (searchRealEstateInfo web (fun _ => Rejected)
                               (js "2 bhk flat in Pune") []) = []
  /\ result_of (generateResponse this web (fun _ => Rejected) axiosPost
                                 (VString (js "2 bhk flat in Pune"))
                                 leadInfo [])
     = Returned content.
Proof.
  cbv zeta.
  assert (Hkey : present (apiKey {| apiKey := Some (js "key") |}) = true)
    by (vm_compute; reflexivity).
  assert (Hmsg : cleanedMessage (VString (js "2 bhk flat in Pune"))
                 = Some (js "2 bhk flat in Pune"))
    by (vm_compute; reflexivity).
  assert (Hhits : snd (searchRealEstateInfo
                         {| googleApiKey := None;
                            googleSearchEngineId := None |}
                         (fun _ => Rejected) (js "2 bhk flat in Pune") [])
                  = [])
    by (vm_compute; reflexivity).
  split; [exact Hkey|]. split; [exact Hmsg|]. split; [exact Hhits|].
  rewrite (proj1 (turn_reply_composition
           {| apiKey := Some (js "key") |}
           {| googleApiKey := None; googleSearchEngineId := None |}
           (fun _ => Rejected)
           (fun _ : chatRequest =>
              ChatContent
                (js "Prices start at 50 lakh. Would you like to see more?"))
           (VString (js "2 bhk flat in Pune")) (js "2 bhk flat in Pune")
           (js "Prices start at 50 lakh. Would you like to see more?")
           {| l_name := []; l_budget := []; l_preferredLocation := [];
       l_propertyType := []; l_searchResults := None;
       l_currentMessage := []; l_oneQuestionAtATime := None;
       l_isEndingConversation := false; l_conversationHistory := None |}
           [] Hkey Hmsg eq_refl) Hhits).
  vm_compute. reflexivity.
Defined.

(** ** The history *)

(** X20.  Only the last ten stored messages are scanned.  The
    formatted history has at most ten turns, and whatever precedes the last
    ten messages changes neither the formatted history nor the digest made
    of it: a question the assistant asked more than ten messages ago is
    forgotten. *)
Theorem history_window (old recent : list storedMessage) :
  (List.length (formatMessageHistory (old ++ recent)) <= 10)%nat
  /\ ((10 <= List.length recent)%nat ->
      formatMessageHistory (old ++ recent) = formatMessageHistory recent
      /\ extractInfoFromHistory (formatMessageHistory (old ++ recent))
         = extractInfoFromHistory (formatMessageHistory recent)).
Proof.
  split; [apply TurnFacts.formatMessageHistory_length|].
  intros H.
  assert (E : formatMessageHistory (old ++ recent)
              = formatMessageHistory recent).
  { unfold formatMessageHistory. now rewrite HistoryFacts.lastTen_app. }
  split; [exact E | now rewrite E].
Qed.

Lemma history_window_witness :
  let old := [ {| sender := js "bot"; message := js "What is your budget?" |} ] in
  let recent := repeat {| sender := js "user"; message := js "Any flat" |} 10 in
  (10 <= List.length recent)%nat
  /\ askedAboutBudget (extractInfoFromHistory (formatMessageHistory old))
     = true
  /\ askedAboutBudget
       (extractInfoFromHistory (formatMessageHistory (old ++ recent)))
     = false.
Proof.
  cbv zeta. split; [cbn; lia|]. split; [vm_compute; reflexivity|].
  rewrite (proj2 (proj2 (history_window
             [ {| sender := js "bot"; message := js "What is your budget?" |} ]
             (repeat {| sender := js "user"; message := js "Any flat" |} 10))
                        ltac:(cbn; lia))).
  vm_compute. reflexivity.
Defined.

(** X21.  The two roles of the history are read apart: the four
    asked-about flags depend on the assistant turns only, and the texts
    that the user provided depend on the user turns only. *)
Theorem history_roles_are_read_apart (w : list turn) :
  (forall t : topic,
     asked t (extractInfoFromHistory w)
     = asked t (extractInfoFromHistory (filter fromAssistant w)))
  /\ provided (extractInfoFromHistory w)
     = provided (extractInfoFromHistory (filter fromUser w)).
Proof.
  split.
  - intros t. rewrite !HistoryFacts.asked_extract.
    apply HistoryFacts.asked_by_assistant.
  - now apply HistoryFacts.provided_by_users.
Qed.

(** X22.  A text of the user on a topic is present in the digest
    exactly when some user turn of the window provides one.  So a topic
    that has a text for one window has a text for every window that
    contains the turns of the first, though a later turn may replace the
    text. *)
Theorem provided_topics_only_grow (w1 w2 : list turn) (t : topic) :
  isSome (providedOn t (extractInfoFromHistory w1))
  = existsb (provides t) w1
  /\ (incl w1 w2 ->
      isSome (providedOn t (extractInfoFromHistory w1)) = true ->
      isSome (providedOn t (extractInfoFromHistory w2)) = true).
Proof.
  split; [apply HistoryFacts.provided_extract|].
  intros Hincl. rewrite !HistoryFacts.provided_extract.
  intros H. apply existsb_exists in H as (msg & Hin & Hmsg).
  apply existsb_exists. exists msg. split; [now apply Hincl | exact Hmsg].
Qed.

Lemma provided_topics_only_grow_witness :
  let said := {| t_role := User; content := js "My name is Asha" |} in
  let w1 := [said] in
  let w2 := [ said;
              {| t_role := User; content := js "Sorry, my name is Usha" |} ] in
  incl w1 w2
  /\ providedOn Name (extractInfoFromHistory w1) = Some (js "Asha")
  /\ providedOn Name (extractInfoFromHistory w2) = Some (js "Usha")
  /\ isSome (providedOn Name (extractInfoFromHistory w2)) = true.
Proof.
  cbv zeta.
  assert (Hincl : incl [ {| t_role := User; content := js "My name is Asha" |} ]
                       [ {| t_role := User; content := js "My name is Asha" |};
                         {| t_role := User;
                            content := js "Sorry, my name is Usha" |} ]).
  { intros x [<-|[]]. now left. }
  split; [exact Hincl|].
  split; [vm_compute; reflexivity|]. split; [vm_compute; reflexivity|].
  apply (proj2 (provided_topics_only_grow _ _ Name) Hincl).
  vm_compute. reflexivity.
Defined.

(** ** Closing messages *)

(** X23.  A message ends the conversation exactly when it is a
    non-empty text and, trimmed and in lower case, it contains one of the
    alternatives of the closing patterns or is shorter than fifteen
    characters and has no question mark.  The list of short closing
    phrases, which the test consults first, never changes the outcome:
    each of its phrases contains an alternative of a closing pattern. *)
Theorem closing_test_closed_form (message : jstring) :
  isConversationEnding message
  = truthy message
    && (existsb (includes (normalized message)) (List.concat endingWords)
        || shortNonQuestion (normalized message))
  /\ forall phrase,
       In phrase shortEndingPhrases ->
       exists w, In w (List.concat endingWords) /\ includes phrase w = true.
Proof.
  split; [apply ClosingFacts.isConversationEnding_closed|].
  intros phrase Hin.
  assert (H : existsb (includes phrase) (List.concat endingWords) = true).
  { apply (ClosingFacts.short_phrase_covered phrase phrase Hin).
    rewrite ClosingFacts.includes_refl. apply orb_true_r. }
  apply existsb_exists in H as (w & Hw & Hpw). now exists w.
Qed.

Lemma closing_test_closed_form_witness :
  In (js "got it") shortEndingPhrases
  /\ exists w, In w (List.concat endingWords)
               /\ includes (js "got it") w = true.
Proof.
  assert (H : In (js "got it") shortEndingPhrases)
    by (apply ClosingFacts.In_check; vm_compute; reflexivity).
  split; [exact H|].
  exact (proj2 (closing_test_closed_form []) (js "got it") H).
Defined.

(** X24.  Every non-empty message of ASCII characters that,
    once trimmed, has fewer than fifteen characters and no question mark
    ends the conversation, whatever it says.  So does every message that
    contains, in any case of its ASCII letters, an alternative of a closing
    pattern anywhere, also inside a longer word: "ok" inside "looking" is
    enough. *)
Theorem short_or_polite_messages_end (message : jstring) :
  (asciiText message = true ->
   truthy message = true ->
   (List.length (trim message) < 15)%nat ->
   ~ In qmark message ->
   isConversationEnding message = true)
  /\ (forall w,
        In w (List.concat endingWords) ->
        includes (normalized message) w = true ->
        isConversationEnding message = true)
  /\ (includes (normalized message) (js "ok") = true ->
      isConversationEnding message = true).
Proof.
  rewrite ClosingFacts.isConversationEnding_closed.
  assert (Hword : forall w,
            In w (List.concat endingWords) ->
            includes (normalized message) w = true ->
            truthy message
            && (existsb (includes (normalized message))
                        (List.concat endingWords)
                || shortNonQuestion (normalized message)) = true).
  { intros w Hw Hin.
    assert (Ht : truthy message = true).
    { destruct message as [|c message]; [|reflexivity].
      destruct w as [|d w]; [|discriminate Hin].
      apply ClosingFacts.endingWords_truthy in Hw. discriminate Hw. }
    rewrite Ht. cbn [andb]. apply orb_true_iff. left.
    apply existsb_exists. now exists w. }
  split; [|split].
  - intros _ Ht Hlen Hq. rewrite Ht. cbn [andb]. apply orb_true_iff. right.
    unfold shortNonQuestion.
    rewrite (ClosingFacts.normalized_no_qmark message Hq).
    rewrite ClosingFacts.normalized_length. cbn [negb].
    rewrite andb_true_r. now apply Nat.ltb_lt.
  - exact Hword.
  - apply Hword. apply ClosingFacts.In_check. vm_compute. reflexivity.
Qed.

Lemma short_or_polite_messages_end_witness :
  asciiText (js "  Call me at 5  ") = true
  /\ (List.length (trim (js "  Call me at 5  ")) < 15)%nat
  /\ isConversationEnding (js "  Call me at 5  ") = true.
Proof.
  assert (Ha : asciiText (js "  Call me at 5  ") = true)
    by (vm_compute; reflexivity).
  assert (Ht : truthy (js "  Call me at 5  ") = true)
    by (vm_compute; reflexivity).
  assert (Hlen : (List.length (trim (js "  Call me at 5  ")) < 15)%nat)
    by (vm_compute; lia).
  assert (Hq : ~ In qmark (js "  Call me at 5  ")).
  { intros H. vm_compute in H.
    repeat (destruct H as [H|H]; [discriminate|]). exact H. }
  split; [exact Ha|]. split; [exact Hlen|].
  exact (proj1 (short_or_polite_messages_end (js "  Call me at 5  "))
               Ha Ht Hlen Hq).
Defined.

(** ** The digest of the hits *)

(** X25.  The digest appended to a reply shows the first three hits
    at most: hits after the third never change the reply.  The label of
    the source links depends on the number of hits and not on the language
    of the user: "View Source" with three hits or more, and the Hindi label
    with one or two. *)
Theorem digest_shows_three_hits_at_most
    (aiResponse userMessage : jstring) (r1 r2 r3 : result)
    (rest rs : list result) :
  appendSearchResults aiResponse (Some (r1 :: r2 :: r3 :: rest)) userMessage
  = appendSearchResults aiResponse (Some [r1; r2; r3]) userMessage
  /\ summaryOf rs
     = nl ++ nl ++ js "### 📊 Latest Real Estate Information ###" ++ nl
       ++ summaryEntries
            (if Nat.leb 3 (List.length rs)
             then js "View Source" else js "स्रोत देखें")
            0 (firstn 3 rs).
Proof.
  split.
  - reflexivity.
  - unfold summaryOf. cbv zeta.
    destruct (Nat.leb 3 (List.length rs)) eqn:E.
    + now rewrite <- !app_assoc.
    + apply Nat.leb_gt in E. rewrite firstn_all2 by lia.
      now rewrite <- !app_assoc.
Qed.

(** ** The prompts *)

(** X26.  The chain that picks the instruction of the turn picks
    one of seven texts: to close, when the message ends the conversation;
    to answer, when the name, the property type, the budget and the
    location are all known; otherwise to ask about the first topic, in the
    order name, property type, budget, location, that is neither known nor
    already asked about; and to respond without a question when there is no
    such topic.  The further conditions that the source puts on the later
    branches never change the choice.  The seven texts are pairwise
    different in both renderings, and with the one-question flag the system
    message contains the one picked. *)
Theorem next_instruction_is_first_open_topic (leadInfo : leadContext) :
  (forall isEnding hasAllBasicInfo historyInfo,
     currentInstructionsEnglish isEnding hasAllBasicInfo leadInfo historyInfo
     = instructionEnglish
         (nextStep isEnding hasAllBasicInfo leadInfo historyInfo)
     /\ currentInstructionsHindi isEnding hasAllBasicInfo leadInfo historyInfo
        = instructionHindi
            (nextStep isEnding hasAllBasicInfo leadInfo historyInfo))
  /\ (forall s1 s2 : step,
        (instructionEnglish s1 = instructionEnglish s2 -> s1 = s2)
        /\ (instructionHindi s1 = instructionHindi s2 -> s1 = s2))
  /\ (flagged (l_oneQuestionAtATime leadInfo) = true ->
      includes
        (cm_content (createSystemMessage leadInfo))
        (if hindiHeadings (promptLanguage leadInfo)
         then instructionHindi
                (nextStep (endingNow leadInfo) (allBasicInfo leadInfo)
                          leadInfo (historyOf leadInfo))
         else instructionEnglish
                (nextStep (endingNow leadInfo) (allBasicInfo leadInfo)
                          leadInfo (historyOf leadInfo)))
      = true).
Proof.
  split; [|split].
  - intros isEnding hasAllBasicInfo historyInfo. split.
    + apply PromptFacts.currentInstructionsEnglish_step.
    + apply PromptFacts.currentInstructionsHindi_step.
  - intros s1 s2. split.
    + apply PromptFacts.instructionEnglish_injective.
    + apply PromptFacts.instructionHindi_injective.
  - intros Hflag.
    change (cm_content (createSystemMessage leadInfo))
      with (systemContext leadInfo).
    now apply PromptFacts.systemContext_instruction.
Qed.

Lemma next_instruction_is_first_open_topic_witness :
  let leadInfo :=
    {| l_name := js "Asha"; l_budget := []; l_preferredLocation := [];
       l_propertyType := []; l_searchResults := None;
       l_currentMessage := js "Show me homes in Pune, what are my choices?";
       l_oneQuestionAtATime := Some true;
       l_isEndingConversation := false;
       l_conversationHistory := None |} in
  flagged (l_oneQuestionAtATime leadInfo) = true
  /\ nextStep (endingNow leadInfo) (allBasicInfo leadInfo) leadInfo
              (historyOf leadInfo)
     = Asking PropertyType
  /\ includes (cm_content (createSystemMessage leadInfo))
              (instructionEnglish (Asking PropertyType))
     = true.
Proof.
  cbv zeta.
  split; [reflexivity|].
  assert (Hstep : nextStep
            (endingNow
               {| l_name := js "Asha"; l_budget := [];
                  l_preferredLocation := []; l_propertyType := [];
                  l_searchResults := None;
                  l_currentMessage := js "Show me homes in Pune, what are my choices?";
                  l_oneQuestionAtATime := Some true;
                  l_isEndingConversation := false;
                  l_conversationHistory := None |})
            (allBasicInfo
               {| l_name := js "Asha"; l_budget := [];
                  l_preferredLocation := []; l_propertyType := [];
                  l_searchResults := None;
                  l_currentMessage := js "Show me homes in Pune, what are my choices?";
                  l_oneQuestionAtATime := Some true;
                  l_isEndingConversation := false;
                  l_conversationHistory := None |})
            {| l_name := js "Asha"; l_budget := [];
               l_preferredLocation := []; l_propertyType := [];
               l_searchResults := None;
               l_currentMessage := js "Show me homes in Pune, what are my choices?";
               l_oneQuestionAtATime := Some true;
               l_isEndingConversation := false;
               l_conversationHistory := None |}
            (historyOf
               {| l_name := js "Asha"; l_budget := [];
                  l_preferredLocation := []; l_propertyType := [];
                  l_searchResults := None;
                  l_currentMessage := js "Show me homes in Pune, what are my choices?";
                  l_oneQuestionAtATime := Some true;
                  l_isEndingConversation := false;
                  l_conversationHistory := None |})
          = Asking PropertyType) by (vm_compute; reflexivity).
  split; [exact Hstep|].
  pose proof (proj2 (proj2 (next_instruction_is_first_open_topic
            {| l_name := js "Asha"; l_budget := [];
               l_preferredLocation := []; l_propertyType := [];
               l_searchResults := None;
               l_currentMessage := js "Show me homes in Pune, what are my choices?";
               l_oneQuestionAtATime := Some true;
               l_isEndingConversation := false;
               l_conversationHistory := None |})) eq_refl) as H.
  rewrite Hstep in H.
  assert (Hlang : hindiHeadings
            (promptLanguage
               {| l_name := js "Asha"; l_budget := [];
                  l_preferredLocation := []; l_propertyType := [];
                  l_searchResults := None;
                  l_currentMessage := js "Show me homes in Pune, what are my choices?";
                  l_oneQuestionAtATime := Some true;
                  l_isEndingConversation := false;
                  l_conversationHistory := None |}) = false)
    by (vm_compute; reflexivity).
  rewrite Hlang in H. exact H.
Defined.
